(** * Shadow's virtual epoll (shd-epoll.c): a shallow embedding

    The C structures become records, the flag words stay integers that are
    tested and updated with [Z.land], [Z.lor] and [Z.lnot], the GLib hash
    table of watches becomes an association list (its iteration order is the
    list order), and the collaborators of the file (descriptor layer,
    process, scheduler, kernel epoll) become an explicit environment plus a
    chronological log of the calls made to them.  The only arithmetic of the
    file is the counting of written events, which stays below the length of
    the caller's array, so the integers are taken without wrap-around.
    Reference counts of descriptors and of the epoll belong to the
    descriptor layer and are left out. *)

From Stdlib Require Import ZArith List Bool Lia.
Import ListNotations.
Local Open Scope Z_scope.
Local Open Scope bool_scope.

(** ** Flag words *)

(** The C truth value of [flags & mask]. *)
Definition has (flags mask : Z) : bool := negb (Z.land flags mask =? 0).

(** [flags |= mask] and [flags &= ~mask]. *)
Definition set_flag (flags mask : Z) : Z := Z.lor flags mask.
Definition clear_flag (flags mask : Z) : Z := Z.land flags (Z.lnot mask).

(** [enum _EpollWatchFlags]. *)
Definition EWF_NONE : Z := 0.
Definition EWF_ACTIVE : Z := Z.shiftl 1 0.
Definition EWF_READABLE : Z := Z.shiftl 1 1.
Definition EWF_WAITINGREAD : Z := Z.shiftl 1 2.
Definition EWF_READCHANGED : Z := Z.shiftl 1 3.
Definition EWF_WRITEABLE : Z := Z.shiftl 1 4.
Definition EWF_WAITINGWRITE : Z := Z.shiftl 1 5.
Definition EWF_WRITECHANGED : Z := Z.shiftl 1 6.
Definition EWF_CLOSED : Z := Z.shiftl 1 7.
Definition EWF_WATCHING : Z := Z.shiftl 1 8.
Definition EWF_EDGETRIGGER : Z := Z.shiftl 1 9.
Definition EWF_EDGETRIGGER_REPORTED : Z := Z.shiftl 1 10.
Definition EWF_ONESHOT : Z := Z.shiftl 1 11.
Definition EWF_ONESHOT_REPORTED : Z := Z.shiftl 1 12.

(** [enum _EpollFlags]. *)
Definition EF_NONE : Z := 0.
Definition EF_SCHEDULED : Z := Z.shiftl 1 0.
Definition EF_NOTIFYING : Z := Z.shiftl 1 1.
Definition EF_CLOSED : Z := Z.shiftl 1 2.

(** Constants of the Linux headers <sys/epoll.h> and <errno.h>. *)
Definition EPOLLIN : Z := 1.
Definition EPOLLOUT : Z := 4.
Definition EPOLLONESHOT : Z := Z.shiftl 1 30.
Definition EPOLLET : Z := Z.shiftl 1 31.
Definition EPOLL_CTL_ADD : Z := 1.
Definition EPOLL_CTL_DEL : Z := 2.
Definition EPOLL_CTL_MOD : Z := 3.
Definition ENOENT : Z := 2.
Definition EEXIST : Z := 17.

(** Modelled from the spec: [utility_assert], a macro of shadow.h, which
    is not among the sources.  A violated assertion aborts (section 7,
    internal-assertion); [None] is the abort. *)
Definition utility_assert {A : Type} (cond : bool) (k : option A) : option A :=
  if cond then k else None.

(** ** Watches *)

(** [struct epoll_event]: the event mask and the user cookie. *)
Record epoll_event : Type := mkEvent {
  events : Z;
  data : Z
}.

(** [struct _EpollWatch].  The watched descriptor is named by its handle,
    the stable key the hash table uses as well. *)
Record EpollWatch : Type := mkWatch {
  descriptor : Z;
  event : epoll_event;
  wflags : Z;
  referenceCount : Z
}.

Definition with_wflags (w : EpollWatch) (f : Z) : EpollWatch :=
  mkWatch (descriptor w) (event w) f (referenceCount w).

Definition with_event (w : EpollWatch) (e : epoll_event) : EpollWatch :=
  mkWatch (descriptor w) e (wflags w) (referenceCount w).

(** [_epollwatch_new]: the flags start at zero ([g_new0]). *)
Definition _epollwatch_new (d : Z) (ev : epoll_event) : EpollWatch :=
  mkWatch d ev 0 1.

Section Epoll.

(** The bits of [DescriptorStatus] are declared in shadow.h, which is not
    part of the sources at hand; they are parameters of the development. *)
Variables DS_ACTIVE DS_READABLE DS_WRITABLE DS_CLOSED : Z.

(** Whether the file is compiled with [DEBUG], which adds two sweeps of the
    watches (for a log message) around the call of the process. *)
Variable DEBUG : bool.

(** [_epollwatch_updateStatus], with the result of [descriptor_getStatus]
    as an argument. *)
Definition _epollwatch_updateStatus (status : Z) (watch : EpollWatch) : EpollWatch :=
  let flags0 := wflags watch in
  (* store the old flags that are only lazily updated *)
  let lazyFlags := 0 in
  let lazyFlags := Z.lor lazyFlags (if has flags0 EWF_READCHANGED then EWF_READCHANGED else EWF_NONE) in
  let lazyFlags := Z.lor lazyFlags (if has flags0 EWF_WRITECHANGED then EWF_WRITECHANGED else EWF_NONE) in
  let lazyFlags := Z.lor lazyFlags (if has flags0 EWF_WATCHING then EWF_WATCHING else EWF_NONE) in
  let lazyFlags := Z.lor lazyFlags (if has flags0 EWF_EDGETRIGGER_REPORTED then EWF_EDGETRIGGER_REPORTED else EWF_NONE) in
  let lazyFlags := Z.lor lazyFlags (if has flags0 EWF_ONESHOT_REPORTED then EWF_ONESHOT_REPORTED else EWF_NONE) in
  (* reset our flags *)
  let oldFlags := flags0 in
  let flags := 0 in
  (* check shadow descriptor status *)
  let flags := Z.lor flags (if has status DS_ACTIVE then EWF_ACTIVE else EWF_NONE) in
  let flags := Z.lor flags (if has status DS_READABLE then EWF_READABLE else EWF_NONE) in
  let flags := Z.lor flags (if has status DS_WRITABLE then EWF_WRITEABLE else EWF_NONE) in
  let flags := Z.lor flags (if has status DS_CLOSED then EWF_CLOSED else EWF_NONE) in
  let flags := Z.lor flags (if has (events (event watch)) EPOLLIN then EWF_WAITINGREAD else EWF_NONE) in
  let flags := Z.lor flags (if has (events (event watch)) EPOLLOUT then EWF_WAITINGWRITE else EWF_NONE) in
  let flags := Z.lor flags (if has (events (event watch)) EPOLLET then EWF_EDGETRIGGER else EWF_NONE) in
  let flags := Z.lor flags (if has (events (event watch)) EPOLLONESHOT then EWF_ONESHOT else EWF_NONE) in
  (* add back in our lazyFlags that we dont check separately *)
  let flags := Z.lor flags lazyFlags in
  (* update changed status for edgetrigger mode *)
  let flags :=
    if negb (Z.land oldFlags EWF_READABLE =? Z.land flags EWF_READABLE)
    then Z.lor flags EWF_READCHANGED else flags in
  let flags :=
    if negb (Z.land oldFlags EWF_WRITEABLE =? Z.land flags EWF_WRITEABLE)
    then Z.lor flags EWF_WRITECHANGED else flags in
  with_wflags watch flags.

(** The decision of [_epollwatch_isReady] on flags that were just updated. *)
Definition ready_flags (flags : Z) : bool :=
  if has flags EWF_CLOSED || negb (has flags EWF_ACTIVE) || negb (has flags EWF_WATCHING)
  then false
  else
    let isReady := false in
    let hasReadEvent := has flags EWF_READABLE && has flags EWF_WAITINGREAD in
    let hasWriteEvent := has flags EWF_WRITEABLE && has flags EWF_WAITINGWRITE in
    let isReady :=
      if has flags EWF_EDGETRIGGER then
        let isReady :=
          if hasReadEvent && (has flags EWF_READCHANGED || negb (has flags EWF_EDGETRIGGER_REPORTED))
          then true else isReady in
        if hasWriteEvent && (has flags EWF_WRITECHANGED || negb (has flags EWF_EDGETRIGGER_REPORTED))
        then true else isReady
      else
        if hasReadEvent || hasWriteEvent then true else isReady in
    if isReady && has flags EWF_ONESHOT && has flags EWF_ONESHOT_REPORTED
    then false else isReady.

(** [_epollwatch_isReady]: the watch after the call and the result. *)
Definition _epollwatch_isReady (status : Z) (watch : EpollWatch) : EpollWatch * bool :=
  let watch := _epollwatch_updateStatus status watch in
  (watch, ready_flags (wflags watch)).

(** ** The epoll and what surrounds it *)

(** The table [epoll->watching], keyed by descriptor handle.  The order of
    the list stands for the order in which the hash table is iterated
    while it is not modified.  In what order GLib iterates after an
    insertion or a removal is up to GLib; [table_replace] and
    [table_remove] fix one such order. *)
Definition WatchTable : Type := list (Z * EpollWatch).

Fixpoint table_lookup (d : Z) (t : WatchTable) : option EpollWatch :=
  match t with
  | [] => None
  | (k, w) :: t' => if k =? d then Some w else table_lookup d t'
  end.

(** [g_hash_table_replace]: a present key keeps its place, a new one is
    put at the end (one of the orders GLib may iterate in afterwards). *)
Fixpoint table_replace (d : Z) (w : EpollWatch) (t : WatchTable) : WatchTable :=
  match t with
  | [] => [(d, w)]
  | (k, w0) :: t' => if k =? d then (d, w) :: t' else (k, w0) :: table_replace d w t'
  end.

(** [g_hash_table_remove]. *)
Fixpoint table_remove (d : Z) (t : WatchTable) : WatchTable :=
  match t with
  | [] => []
  | (k, w) :: t' => if k =? d then t' else (k, w) :: table_remove d t'
  end.

(** [struct _Epoll]: the descriptor it extends (handle and status), its
    flags, the table and the kernel epoll it wraps.  The owner process is
    fixed; its answers are part of [World]. *)
Record Epoll : Type := mkEpoll {
  superHandle : Z;
  superStatus : Z;
  flags : Z;
  watching : WatchTable;
  osEpollDescriptor : Z
}.

(** The functions of the process, of the scheduler and of the kernel that
    the file calls are not among the sources; what they answer is taken as
    given: the kernel on the probe of [_epoll_isReadyOS] and on the
    [epoll_wait] of [epoll_getEvents] ([osEvents] are the events pending on
    the kernel epoll now, [osLater] those that will be pending at the waits
    to come, one list for each), [process_wantsNotify], [process_isRunning]
    and [worker_scheduleTask].  [stackEvents] is the room left on the stack
    when [epoll_getEvents] is entered, counted in [struct epoll_event]. *)
Record World : Type := mkWorld {
  probeCtl : Z;
  probeWait : Z;
  osWaitFails : bool;
  osEvents : list epoll_event;
  osLater : list (list epoll_event);
  stackEvents : Z;
  wantsNotify : bool;
  isRunning : bool;
  scheduleOk : bool
}.

(** Calls to the kernel. *)
Inductive OsCall : Type :=
| OsProbeCreate
| OsProbeAdd
| OsProbeWait
| OsProbeDel
| OsProbeClose
| OsWait (maxevents : Z).

(** What is logged, newest first.  The log is there to state properties
    of whole runs; no function reads it. *)
Inductive Event : Type :=
| EvAdd (d : Z)
| EvMod (d : Z)
| EvDel (d : Z)
| EvStatus (d old new : Z)
| EvReport (watch : EpollWatch) (ev : epoll_event)
| EvOs (c : OsCall)
| EvSchedule
| EvCloseCall
| EvFinalize
| EvTaskRun
| EvContinue
| EvReturn.

(** One epoll in its surroundings: the status of every descriptor, the
    answers of the collaborators, the descriptors that have this epoll as a
    listener, the number of notify tasks of this epoll in the scheduler's
    queue, and the log. *)
Record Sim : Type := mkSim {
  epoll : Epoll;
  status : Z -> Z;
  world : World;
  listeners : list Z;
  tasks : nat;
  trace : list Event
}.

Definition set_epoll (s : Sim) (e : Epoll) : Sim :=
  mkSim e (status s) (world s) (listeners s) (tasks s) (trace s).

Definition set_flags (s : Sim) (f : Z) : Sim :=
  let e := epoll s in
  set_epoll s (mkEpoll (superHandle e) (superStatus e) f (watching e) (osEpollDescriptor e)).

Definition set_watching (s : Sim) (t : WatchTable) : Sim :=
  let e := epoll s in
  set_epoll s (mkEpoll (superHandle e) (superStatus e) (flags e) t (osEpollDescriptor e)).

Definition set_superStatus (s : Sim) (st : Z) : Sim :=
  let e := epoll s in
  set_epoll s (mkEpoll (superHandle e) st (flags e) (watching e) (osEpollDescriptor e)).

Definition set_status (s : Sim) (f : Z -> Z) : Sim :=
  mkSim (epoll s) f (world s) (listeners s) (tasks s) (trace s).

Definition set_world (s : Sim) (w : World) : Sim :=
  mkSim (epoll s) (status s) w (listeners s) (tasks s) (trace s).

Definition set_listeners (s : Sim) (l : list Z) : Sim :=
  mkSim (epoll s) (status s) (world s) l (tasks s) (trace s).

Definition set_tasks (s : Sim) (n : nat) : Sim :=
  mkSim (epoll s) (status s) (world s) (listeners s) n (trace s).

Definition log (s : Sim) (ev : Event) : Sim :=
  mkSim (epoll s) (status s) (world s) (listeners s) (tasks s) (ev :: trace s).

Definition log_all (s : Sim) (evs : list Event) : Sim :=
  mkSim (epoll s) (status s) (world s) (listeners s) (tasks s) (rev evs ++ trace s).

(** Modelled from the spec: [descriptor_addEpollListener] and
    [descriptor_removeEpollListener] of the descriptor layer, which is not
    among the sources (subscribe and unsubscribe of section 6; listeners are
    kept by identity). *)
Definition add_listener (d : Z) (l : list Z) : list Z :=
  if existsb (Z.eqb d) l then l else d :: l.

Definition remove_listener (d : Z) (l : list Z) : list Z :=
  filter (fun x => negb (x =? d)) l.

(** Modelled from the spec: [descriptor_adjustStatus], of the descriptor
    layer, on the epoll's own descriptor: it sets or clears a status bit. *)
Definition adjust_super (s : Sim) (st : Z) (doSet : bool) : Sim :=
  set_superStatus s
    (if doSet then set_flag (superStatus (epoll s)) st
     else clear_flag (superStatus (epoll s)) st).

(** [epoll_clearWatchListeners]. *)
Definition epoll_clearWatchListeners (s : Sim) : Sim :=
  set_listeners s
    (fold_left (fun l kw => remove_listener (descriptor (snd kw)) l)
       (watching (epoll s)) (listeners s)).

(** [_epoll_close].  The call of [host_closeDescriptor] (the host stops
    tracking the epoll and drops its reference) is logged as the
    finalization.  What the host's unref leads to is the descriptor
    layer's: once the last reference is gone (the host's, and the one of
    each notify task that is queued or running) the epoll is released
    through [_epoll_free], which is modelled on its own below.  The state
    keeps the epoll as the call found it. *)
Definition _epoll_close (s : Sim) : Sim :=
  let s := epoll_clearWatchListeners s in
  log s EvFinalize.

(** [_epoll_tryToClose]. *)
Definition _epoll_tryToClose (s : Sim) : Sim :=
  let s := log s EvCloseCall in
  (* mark the descriptor as closed *)
  let s := set_flags s (set_flag (flags (epoll s)) EF_CLOSED) in
  (* only close it if there is no pending epoll notify event *)
  let isScheduled := if has (flags (epoll s)) EF_SCHEDULED then true else false in
  if negb isScheduled then _epoll_close s else s.

(** [_epoll_isReadyOS]. *)
Definition _epoll_isReadyOS (s : Sim) : Sim * bool :=
  let isReady := false in
  if osEpollDescriptor (epoll s) >=? 3 then
    let s := log s (EvOs OsProbeCreate) in
    let ret := probeCtl (world s) in
    let s := log s (EvOs OsProbeAdd) in
    let (s, isReady) :=
      if ret =? 0 then
        let ret := probeWait (world s) in
        let s := log s (EvOs OsProbeWait) in
        let isReady := if ret >? 0 then true else isReady in
        (log s (EvOs OsProbeDel), isReady)
      else (s, isReady) in
    (log s (EvOs OsProbeClose), isReady)
  else (s, isReady).

(** The loop of [_epoll_check]: it stops at the first ready watch. *)
Fixpoint check_loop (st : Z -> Z) (t : WatchTable) : WatchTable * bool :=
  match t with
  | [] => ([], false)
  | (k, watch) :: t' =>
      let (watch, r) := _epollwatch_isReady (st (descriptor watch)) watch in
      if r then ((k, watch) :: t', true)
      else let (t'', r') := check_loop st t' in ((k, watch) :: t'', r')
  end.

(** [_epoll_check]. *)
Definition _epoll_check (s : Sim) : Sim :=
  if has (flags (epoll s)) EF_CLOSED || has (flags (epoll s)) EF_NOTIFYING then s
  else
    (* check all of our children *)
    let (t, isReady) := check_loop (status s) (watching (epoll s)) in
    let s := set_watching s t in
    (* check the OS epoll instance, but only if we are otherwise not ready *)
    let (s, isReady) :=
      if negb isReady then _epoll_isReadyOS s else (s, isReady) in
    if isReady then
      let s := adjust_super s DS_READABLE true in
      if negb (has (flags (epoll s)) EF_SCHEDULED) && wantsNotify (world s) then
        if scheduleOk (world s) then
          let s := set_tasks (log s EvSchedule) (S (tasks s)) in
          set_flags s (set_flag (flags (epoll s)) EF_SCHEDULED)
        else s
      else s
    else adjust_super s DS_READABLE false.

(** [epoll_control].  The event is optional because the C argument is a
    pointer; [_epollwatch_new] and the MOD case assert that it is there. *)
Definition epoll_control (s : Sim) (operation : Z) (d : Z)
    (ev : option epoll_event) : option (Sim * Z) :=
  let watch := table_lookup d (watching (epoll s)) in
  if operation =? EPOLL_CTL_ADD then
    match watch with
    | Some _ => Some (s, EEXIST)
    | None =>
        match ev with
        | None => utility_assert false None
        | Some e =>
            (* start watching for status changes *)
            let watch := _epollwatch_new d e in
            let watch := with_wflags watch (set_flag (wflags watch) EWF_WATCHING) in
            let s := set_watching s (table_replace (descriptor watch) watch (watching (epoll s))) in
            (* its added, so we need to listen for changes *)
            let s := set_listeners s (add_listener (descriptor watch) (listeners s)) in
            let s := log s (EvAdd d) in
            Some (_epoll_check s, 0)
        end
    end
  else if operation =? EPOLL_CTL_MOD then
    match watch with
    | None => Some (s, ENOENT)
    | Some watch =>
        match ev with
        | None => utility_assert false None
        | Some e =>
            utility_assert (has (wflags watch) EWF_WATCHING)
              ((* the user set new events *)
               let watch := with_event watch e in
               let watch := with_wflags watch (clear_flag (wflags watch) EWF_EDGETRIGGER_REPORTED) in
               let watch := with_wflags watch (clear_flag (wflags watch) EWF_ONESHOT_REPORTED) in
               let s := set_watching s (table_replace d watch (watching (epoll s))) in
               let s := log s (EvMod d) in
               Some (_epoll_check s, 0))
        end
    end
  else if operation =? EPOLL_CTL_DEL then
    match watch with
    | None => Some (s, ENOENT)
    | Some watch =>
        let watch := with_wflags watch (clear_flag (wflags watch) EWF_WATCHING) in
        (* its deleted, so stop listening for updates *)
        let s := set_listeners s (remove_listener (descriptor watch) (listeners s)) in
        let s := set_watching s (table_remove (descriptor watch) (watching (epoll s))) in
        let s := log s (EvDel d) in
        Some (s, 0)
    end
  else
    (* ignoring unrecognized operation *)
    Some (s, 0).

(** The event [epoll_getEvents] writes for a ready watch. *)
Definition reported_event (watch : EpollWatch) : epoll_event :=
  let e := mkEvent 0 (data (event watch)) in
  let e :=
    if has (wflags watch) EWF_READABLE && has (wflags watch) EWF_WAITINGREAD
    then mkEvent (Z.lor (events e) EPOLLIN) (data e) else e in
  let e :=
    if has (wflags watch) EWF_WRITEABLE && has (wflags watch) EWF_WAITINGWRITE
    then mkEvent (Z.lor (events e) EPOLLOUT) (data e) else e in
  if has (wflags watch) EWF_EDGETRIGGER
  then mkEvent (Z.lor (events e) EPOLLET) (data e) else e.

(** What [epoll_getEvents] does to the flags of a watch it reports. *)
Definition mark_collected (watch : EpollWatch) : EpollWatch :=
  (* event was just collected, unset the change status *)
  let watch := with_wflags watch (clear_flag (wflags watch) EWF_READCHANGED) in
  let watch := with_wflags watch (clear_flag (wflags watch) EWF_WRITECHANGED) in
  let watch :=
    if has (wflags watch) EWF_EDGETRIGGER
    then with_wflags watch (set_flag (wflags watch) EWF_EDGETRIGGER_REPORTED) else watch in
  if has (wflags watch) EWF_ONESHOT
  then with_wflags watch (set_flag (wflags watch) EWF_ONESHOT_REPORTED) else watch.

(** The first loop of [epoll_getEvents]: the table after it, the events
    written (each with the watch it is for, as the loop sees it when it
    writes the event) and the final index.  The
    assertion [eventIndex <= eventArrayLength] after the increment follows
    from the loop condition. *)
Fixpoint collect_loop (st : Z -> Z) (t : WatchTable) (eventIndex eventArrayLength : Z)
    : WatchTable * list (EpollWatch * epoll_event) * Z :=
  match t with
  | [] => ([], [], eventIndex)
  | (k, watch) :: t' =>
      if eventIndex <? eventArrayLength then
        let (watch, r) := _epollwatch_isReady (st (descriptor watch)) watch in
        if r then
          let e := reported_event watch in
          let '(t'', out, n) := collect_loop st t' (eventIndex + 1) eventArrayLength in
          ((k, mark_collected watch) :: t'', (watch, e) :: out, n)
        else
          let '(t'', out, n) := collect_loop st t' eventIndex eventArrayLength in
          ((k, watch) :: t'', out, n)
      else (t, [], eventIndex)
  end.

(** The kernel's [epoll_wait (osEpollDescriptor, osEvents, space, 0)]: the
    return value and the events written; never more than [space]. *)
Definition os_epoll_wait (w : World) (space : Z) : Z * list epoll_event :=
  if osWaitFails w then (-1, [])
  else
    let evs := firstn (Z.to_nat space) (osEvents w) in
    (Z.of_nat (length evs), evs).

(** The kernel once an [epoll_wait] has returned: what is pending on the
    kernel epoll at the next wait is up to the kernel (it may deliver the
    same items again, or others); it is the next list of [osLater]. *)
Definition os_after_wait (w : World) : World :=
  mkWorld (probeCtl w) (probeWait w) (osWaitFails w)
    (hd [] (osLater w)) (tl (osLater w)) (stackEvents w)
    (wantsNotify w) (isRunning w) (scheduleOk w).

(** What [epoll_getEvents] hands back: the slots of [eventArray] it wrote,
    in order, [*nEvents] and the return value. *)
Record Collected : Type := mkCollected {
  eventArray : list epoll_event;
  nEvents : Z;
  retval : Z
}.

(** [epoll_getEvents].  [None]: the array [osEvents[space]], which is
    taken from the stack, cannot be had: either [space] is negative (a
    negative [eventArrayLength]), which C leaves undefined, or the array is
    larger than what the stack still holds, and the call is killed. *)
Definition epoll_getEvents (s : Sim) (eventArrayLength : Z) : option (Sim * Collected) :=
  let eventIndex := 0 in
  let '(t, out, eventIndex) :=
    collect_loop (status s) (watching (epoll s)) eventIndex eventArrayLength in
  let s := set_watching s t in
  let s := log_all s (map (fun de => EvReport (fst de) (snd de)) out) in
  let space := eventArrayLength - eventIndex in
  if space <? 0 then None
  else if negb (space =? 0) && (stackEvents (world s) <? space) then None
  else
    let '(s, osOut, eventIndex) :=
      if negb (space =? 0) then
        (* now we have to get events from the OS descriptors *)
        let (nos, evs) := os_epoll_wait (world s) space in
        let s := log s (EvOs (OsWait space)) in
        let s := set_world s (os_after_wait (world s)) in
        let copied := firstn (Z.to_nat nos) evs in
        (s, copied, eventIndex + Z.of_nat (length copied))
      else (s, [], eventIndex) in
    let s := _epoll_check s in
    Some (s, mkCollected (map snd out ++ osOut) eventIndex 0).

(** [epoll_descriptorStatusChanged]. *)
Definition epoll_descriptorStatusChanged (s : Sim) (d : Z) : option Sim :=
  match table_lookup d (watching (epoll s)) with
  | Some watch => utility_assert (descriptor watch =? d) (Some (_epoll_check s))
  | None => utility_assert false None
  end.

(** [epoll_new]: [g_new0] zeroes the structure, the table is empty, the
    kernel epoll is what [epoll_create] returned, and the epoll's own
    descriptor is marked active. *)
Definition epoll_new (handle osEpollDescriptor : Z) : Epoll :=
  mkEpoll handle (set_flag 0 DS_ACTIVE) EF_NONE [] osEpollDescriptor.

(** ** The process and the scheduler *)

(** What the process, or the simulation around it, can do to this epoll:
    the three calls of the interface, a change of the status of a
    descriptor, or anything that changes the collaborators' answers. *)
Inductive AppOp : Type :=
| AControl (operation d : Z) (ev : option epoll_event)
| AGetEvents (eventArrayLength : Z)
| AClose
| AStatus (d newStatus : Z)
| AWorld (w : World).

(** Modelled from the spec (the descriptor layer is not among the
    sources): when the status of a descriptor changes, the epolls that
    listen to it are called back at once, as [status-changed] of section 6. *)
Definition app_step (s : Sim) (a : AppOp) : option Sim :=
  match a with
  | AControl operation d ev => option_map fst (epoll_control s operation d ev)
  | AGetEvents n => option_map fst (epoll_getEvents s n)
  | AClose => Some (_epoll_tryToClose s)
  | AStatus d newStatus =>
      let old := status s d in
      let s := set_status s (fun x => if x =? d then newStatus else status s x) in
      let s := log s (EvStatus d old newStatus) in
      if existsb (Z.eqb d) (listeners s) then epoll_descriptorStatusChanged s d
      else Some s
  | AWorld w => Some (set_world s w)
  end.

(** [process_continue]: the process runs until it yields. *)
Fixpoint process_continue (s : Sim) (continuation : list AppOp) : option Sim :=
  match continuation with
  | [] => Some s
  | a :: rest =>
      match app_step s a with
      | Some s' => process_continue s' rest
      | None => None
      end
  end.

(** The loop of [_epoll_tryNotify], which visits every watch. *)
Fixpoint notify_loop (st : Z -> Z) (t : WatchTable) : WatchTable * bool :=
  match t with
  | [] => ([], false)
  | (k, watch) :: t' =>
      let (watch, r) := _epollwatch_isReady (st (descriptor watch)) watch in
      let (t'', r') := notify_loop st t' in
      ((k, watch) :: t'', if r then true else r')
  end.

(** [_epoll_getChildrenStatus], as far as this epoll goes: the same visit
    of every watch.  The message it builds is dropped, and so is what its
    recursion does when a watched descriptor is itself an epoll: it visits
    the watches of that other epoll, which this state does not hold. *)
Definition _epoll_getChildrenStatus (s : Sim) : Sim :=
  set_watching s (fst (notify_loop (status s) (watching (epoll s)))).

(** [_epoll_tryNotify]; the continuation is what the process does when it
    is called. *)
Definition _epoll_tryNotify (s : Sim) (continuation : list AppOp) : option Sim :=
  let s := log s EvTaskRun in
  (* event is being executed from the scheduler, so its no longer scheduled *)
  let s := set_flags s (clear_flag (flags (epoll s)) EF_SCHEDULED) in
  (* if it was closed in the meantime, do the actual close now *)
  let isClosed := if has (flags (epoll s)) EF_CLOSED then true else false in
  if isClosed || negb (isRunning (world s)) then Some (_epoll_close s)
  else
    let (t, isReady) := notify_loop (status s) (watching (epoll s)) in
    let s := set_watching s t in
    let (s, isReady) :=
      if negb isReady then _epoll_isReadyOS s else (s, isReady) in
    if isReady then
      (* an event should have only been scheduled for the special epollfd *)
      utility_assert (wantsNotify (world s))
        (let s := if DEBUG then _epoll_getChildrenStatus s else s in
         (* notify application to collect the reportable events *)
         let s := set_flags s (set_flag (flags (epoll s)) EF_NOTIFYING) in
         match process_continue (log s EvContinue) continuation with
         | None => None
         | Some s =>
             let s := log s EvReturn in
             let s := set_flags s (clear_flag (flags (epoll s)) EF_NOTIFYING) in
             let s := if DEBUG then _epoll_getChildrenStatus s else s in
             (* set up another shadow callback event if needed *)
             Some (_epoll_check s)
         end)
    else Some s.

(** Modelled from the spec (the scheduler is not among the sources): a
    task accepted by [worker_scheduleTask] is run later, once, by the
    scheduler.  What happens to the epoll is an operation as above, or the
    scheduler running a queued notify task. *)
Inductive SimOp : Type :=
| OApp (a : AppOp)
| ONotify (continuation : list AppOp).

Definition sim_step (s : Sim) (o : SimOp) : option Sim :=
  match o with
  | OApp a => app_step s a
  | ONotify continuation =>
      match tasks s with
      | O => Some s
      | S n => _epoll_tryNotify (set_tasks s n) continuation
      end
  end.

Fixpoint run (s : Sim) (ops : list SimOp) : option Sim :=
  match ops with
  | [] => Some s
  | o :: rest =>
      match sim_step s o with
      | Some s' => run s' rest
      | None => None
      end
  end.


(** ** Reading the log *)

Definition is_os_wait (e : Event) : bool :=
  match e with EvOs (OsWait _) => true | _ => false end.

Definition is_os_call (e : Event) : bool :=
  match e with EvOs _ => true | _ => false end.

Definition is_schedule (e : Event) : bool :=
  match e with EvSchedule => true | _ => false end.

Definition is_finalize (e : Event) : bool :=
  match e with EvFinalize => true | _ => false end.

(** What [_epoll_check] can log: the kernel calls of the probe and the
    queueing of a task. *)
Definition is_check_event (e : Event) : bool :=
  match e with
  | EvOs (OsWait _) => false
  | EvOs _ => true
  | EvSchedule => true
  | _ => false
  end.

(** The events reported in a stretch of the log, each with the handle of
    its watch. *)
Definition reports_of (t : list Event) : list (Z * epoll_event) :=
  flat_map (fun e => match e with
                     | EvReport w ev => [(descriptor w, ev)]
                     | _ => []
                     end) t.


(** The tables a sweep can produce: same keys, and every watch is either
    untouched or updated from the status of its descriptor. *)
Definition swept (st : Z -> Z) (t t' : WatchTable) : Prop :=
  Forall2 (fun x y =>
             fst y = fst x /\
             (snd y = snd x \/
              snd y = _epollwatch_updateStatus (st (descriptor (snd x))) (snd x)))
          t t'.

(** Two states of a watch that differ at most in the flags a sweep or a
    report rewrites: same descriptor, same subscription, same [watching]. *)
Definition same_subscription (w w' : EpollWatch) : Prop :=
  descriptor w' = descriptor w /\ event w' = event w /\
  has (wflags w') EWF_WATCHING = has (wflags w) EWF_WATCHING.

Definition same_subscriptions (t t' : WatchTable) : Prop :=
  Forall2 (fun x y => fst y = fst x /\ same_subscription (snd x) (snd y)) t t'.

(** What a caller sees of the events written by the first loop. *)
Definition visible (out : list (EpollWatch * epoll_event)) : list (Z * epoll_event) :=
  map (fun we => (descriptor (fst we), snd we)) out.

(** ** The history of a watch, read off the log *)

(** No key occurs twice, as in the hash table; every key is the handle of
    the watched descriptor, and every watch of the table is marked
    [watching]. *)
Definition table_wf (t : WatchTable) : Prop :=
  NoDup (map fst t) /\
  Forall (fun kw => descriptor (snd kw) = fst kw /\
                    has (wflags (snd kw)) EWF_WATCHING = true) t.

(** Whether an event of the log is about the watch of handle [d]. *)
Definition concerns (d : Z) (e : Event) : bool :=
  match e with
  | EvReport w _ => descriptor w =? d
  | EvMod d' => d' =? d
  | EvAdd d' => d' =? d
  | EvStatus d' _ _ => d' =? d
  | _ => false
  end.

(** The latest of the reports, MODs and ADDs of [d] is a report made while
    the watch was subscribed one-shot. *)
Fixpoint oneshot_pending (d : Z) (tr : list Event) : bool :=
  match tr with
  | [] => false
  | EvReport w _ :: tr' =>
      if descriptor w =? d then has (events (event w)) EPOLLONESHOT
      else oneshot_pending d tr'
  | EvMod d' :: tr' => if d' =? d then false else oneshot_pending d tr'
  | EvAdd d' :: tr' => if d' =? d then false else oneshot_pending d tr'
  | _ :: tr' => oneshot_pending d tr'
  end.

Definition status_differs (mask old new : Z) : bool := xorb (has old mask) (has new mask).

(** [Some (r, w)]: the latest of the reports, MODs and ADDs of [d] is a
    report made while the watch was subscribed edge-triggered; [r] (resp.
    [w]) tells
    whether the descriptor's readable (resp. writable) status bit changed
    since. *)
Fixpoint edge_pending (d : Z) (tr : list Event) : option (bool * bool) :=
  match tr with
  | [] => None
  | EvReport w _ :: tr' =>
      if descriptor w =? d
      then (if has (events (event w)) EPOLLET then Some (false, false) else None)
      else edge_pending d tr'
  | EvMod d' :: tr' => if d' =? d then None else edge_pending d tr'
  | EvAdd d' :: tr' => if d' =? d then None else edge_pending d tr'
  | EvStatus d' old new :: tr' =>
      if d' =? d
      then option_map (fun rw => (fst rw || status_differs DS_READABLE old new,
                                  snd rw || status_differs DS_WRITABLE old new))
             (edge_pending d tr')
      else edge_pending d tr'
  | _ :: tr' => edge_pending d tr'
  end.

(** What the log says about a watch holds of its flags. *)
Definition watch_hist (d sd : Z) (tr : list Event) (w : EpollWatch) : Prop :=
  (oneshot_pending d tr = true ->
   has (events (event w)) EPOLLONESHOT = true /\
   has (wflags w) EWF_ONESHOT_REPORTED = true) /\
  (forall rc wc, edge_pending d tr = Some (rc, wc) ->
   has (events (event w)) EPOLLET = true /\
   has (wflags w) EWF_EDGETRIGGER_REPORTED = true /\
   (rc = false ->
    has (wflags w) EWF_READCHANGED = false /\
    has (wflags w) EWF_READABLE = has sd DS_READABLE) /\
   (wc = false ->
    has (wflags w) EWF_WRITECHANGED = false /\
    has (wflags w) EWF_WRITEABLE = has sd DS_WRITABLE)).

(** Every report of the log was allowed by what came before it. *)
Fixpoint reports_ok (tr : list Event) : Prop :=
  match tr with
  | [] => True
  | EvReport w e :: tr' =>
      oneshot_pending (descriptor w) tr' = false /\
      (forall rc wc, edge_pending (descriptor w) tr' = Some (rc, wc) ->
       (has (events e) EPOLLIN = true /\ rc = true) \/
       (has (events e) EPOLLOUT = true /\ wc = true)) /\
      reports_ok tr'
  | _ :: tr' => reports_ok tr'
  end.

Definition hist (t : WatchTable) (st : Z -> Z) (tr : list Event) : Prop :=
  table_wf t /\ reports_ok tr /\
  Forall (fun kw => watch_hist (fst kw) (st (fst kw)) tr (snd kw)) t.

Definition hist_sim (s : Sim) : Prop :=
  hist (watching (epoll s)) (status s) (trace s).

Definition is_report (e : Event) : bool :=
  match e with EvReport _ _ => true | _ => false end.

(** Events that neither report a watch nor reset or advance the history of
    one. *)
Definition is_neutral (e : Event) : bool :=
  match e with
  | EvReport _ _ | EvMod _ | EvAdd _ | EvStatus _ _ _ => false
  | _ => true
  end.

Definition is_mod (d : Z) (e : Event) : bool :=
  match e with EvMod d' => d' =? d | _ => false end.

Definition is_add (d : Z) (e : Event) : bool :=
  match e with EvAdd d' => d' =? d | _ => false end.

Definition is_report_of (d : Z) (e : Event) : bool :=
  match e with EvReport w _ => descriptor w =? d | _ => false end.

(** The status bit [mask] of descriptor [d] changed in a stretch of the
    log. *)
Definition status_changed (mask d : Z) (t : list Event) : Prop :=
  exists old new, In (EvStatus d old new) t /\ has old mask <> has new mask.

(** ** Scheduling and closing, read off the log *)

Definition is_close_call (e : Event) : bool :=
  match e with EvCloseCall => true | _ => false end.

Definition is_task_event (e : Event) : bool :=
  match e with EvTaskRun | EvContinue | EvReturn => true | _ => false end.

Definition count (p : Event -> bool) (t : list Event) : nat := length (filter p t).

(** The finalizations logged since the latest call of [_epoll_tryToClose]. *)
Fixpoint finalized_since_close (tr : list Event) : nat :=
  match tr with
  | [] => O
  | EvCloseCall :: _ => O
  | EvFinalize :: tr' => S (finalized_since_close tr')
  | _ :: tr' => finalized_since_close tr'
  end.

(** [EF_SCHEDULED] says whether a notify task is queued, and at most one
    is. *)
Definition sched_wf (s : Sim) : Prop :=
  (has (flags (epoll s)) EF_SCHEDULED = true /\ tasks s = 1%nat) \/
  (has (flags (epoll s)) EF_SCHEDULED = false /\ tasks s = 0%nat).

(** Before the first close the epoll is not marked closed; after one close
    it is, and the finalizations since plus the queued tasks make one. *)
Definition close_inv (s : Sim) : Prop :=
  sched_wf s /\
  (count is_close_call (trace s) = 0%nat -> has (flags (epoll s)) EF_CLOSED = false) /\
  (count is_close_call (trace s) = 1%nat ->
   has (flags (epoll s)) EF_CLOSED = true /\
   (finalized_since_close (trace s) + tasks s = 1)%nat).

(** Events that neither schedule, close nor delimit a notify task. *)
Definition is_plain (e : Event) : bool :=
  match e with
  | EvAdd _ | EvMod _ | EvDel _ | EvStatus _ _ _ | EvReport _ _ | EvOs _ => true
  | _ => false
  end.

(** A step that leaves the flags of the epoll and the queue alone and logs
    plain events only. *)
Definition plain_step (s s' : Sim) : Prop :=
  flags (epoll s') = flags (epoll s) /\ tasks s' = tasks s /\
  exists t, trace s' = t ++ trace s /\ forallb is_plain t = true.

(** The start of [_epoll_tryNotify], once the scheduler has taken the task
    off its queue. *)
Definition task_entry (s : Sim) (n : nat) : Sim :=
  let s := log (set_tasks s n) EvTaskRun in
  set_flags s (clear_flag (flags (epoll s)) EF_SCHEDULED).

(** Around [process_continue]. *)
Definition enter_continuation (s : Sim) : Sim :=
  log (set_flags s (set_flag (flags (epoll s)) EF_NOTIFYING)) EvContinue.

Definition leave_continuation (s : Sim) : Sim :=
  let s := log s EvReturn in
  set_flags s (clear_flag (flags (epoll s)) EF_NOTIFYING).

(** The process is running its continuation: the latest of the calls of
    the process and of its returns is a call. *)
Fixpoint in_continuation (tr : list Event) : bool :=
  match tr with
  | [] => false
  | EvContinue :: _ => true
  | EvReturn :: _ => false
  | _ :: tr' => in_continuation tr'
  end.

(** No task was queued while the process was running its continuation. *)
Fixpoint schedule_ok (tr : list Event) : Prop :=
  match tr with
  | [] => True
  | EvSchedule :: tr' => in_continuation tr' = false /\ schedule_ok tr'
  | _ :: tr' => schedule_ok tr'
  end.

(** A call of [_epoll_tryToClose] made while the process was running its
    continuation is followed at once by the finalization. *)
Fixpoint close_ok (tr : list Event) : Prop :=
  match tr with
  | [] => True
  | EvFinalize :: EvCloseCall :: tr' => close_ok tr'
  | EvCloseCall :: tr' => in_continuation tr' = false /\ close_ok tr'
  | _ :: tr' => close_ok tr'
  end.

Definition notify_inv (s : Sim) : Prop :=
  (in_continuation (trace s) = true ->
   has (flags (epoll s)) EF_NOTIFYING = true /\
   has (flags (epoll s)) EF_SCHEDULED = false) /\
  schedule_ok (trace s) /\ close_ok (trace s).

Definition is_return (e : Event) : bool :=
  match e with EvReturn => true | _ => false end.

(** [_epoll_tryToClose] was called while the process was not running a
    continuation of a notify task. *)
Fixpoint closed_outside (tr : list Event) : bool :=
  match tr with
  | [] => false
  | EvCloseCall :: tr' => negb (in_continuation tr') || closed_outside tr'
  | _ :: tr' => closed_outside tr'
  end.

(** A finalization was logged after such a call. *)
Fixpoint settled (tr : list Event) : bool :=
  match tr with
  | [] => false
  | EvFinalize :: tr' => closed_outside tr' || settled tr'
  | _ :: tr' => settled tr'
  end.

(** No event of a notify task is newer than such a finalization. *)
Fixpoint tasks_ok (tr : list Event) : Prop :=
  match tr with
  | [] => True
  | e :: tr' => (is_task_event e = true -> settled tr' = false) /\ tasks_ok tr'
  end.

Definition settle_inv (s : Sim) : Prop :=
  sched_wf s /\
  (closed_outside (trace s) = true ->
   has (flags (epoll s)) EF_CLOSED = true /\ in_continuation (trace s) = false) /\
  (settled (trace s) = true -> tasks s = 0%nat) /\
  tasks_ok (trace s).

(** ** A small scene

    One epoll without watches whose kernel epoll is descriptor 4, a
    descriptor 5 that is active and readable (status bits 1 and 2 of a
    status word numbered 1, 2, 4, 8), a process that is running and wants
    to be notified, and a scheduler that accepts tasks. *)
Definition scene_world : World := mkWorld 0 0 false [] [] 1000 true true true.

Definition scene_epoll : Epoll := mkEpoll 3 1 EF_NONE [] 4.

Definition scene : Sim :=
  mkSim scene_epoll (fun d => if d =? 5 then 3 else 0) scene_world [] 0 [].

(** The scene with a level-triggered watch on descriptor 5. *)
Definition scene_watching : Sim :=
  mkSim (mkEpoll 3 1 EF_NONE [(5, mkWatch 5 (mkEvent EPOLLIN 77) EWF_WATCHING 1)] 4)
    (fun d => if d =? 5 then 3 else 0) scene_world [5] 0 [].

(** ** Readiness, as the sweeps and the probe compute it *)

(** Some watch of the table is ready under the statuses [st]. *)
Definition any_ready (st : Z -> Z) (t : WatchTable) : bool :=
  existsb (fun kw => snd (_epollwatch_isReady (st (descriptor (snd kw))) (snd kw))) t.

(** The kernel epoll has events, as far as the probe of [_epoll_isReadyOS]
    can tell. *)
Definition os_ready (e : Epoll) (w : World) : bool :=
  (osEpollDescriptor e >=? 3) && (probeCtl w =? 0) && (probeWait w >? 0).

Definition is_probe_create (e : Event) : bool :=
  match e with EvOs OsProbeCreate => true | _ => false end.

Definition is_probe_close (e : Event) : bool :=
  match e with EvOs OsProbeClose => true | _ => false end.

Definition is_continue (e : Event) : bool :=
  match e with EvContinue => true | _ => false end.

(** When [_epoll_check] queues a notify task. *)
Definition check_schedules (s : Sim) : bool :=
  negb (has (flags (epoll s)) EF_CLOSED) && negb (has (flags (epoll s)) EF_NOTIFYING)
  && (any_ready (status s) (watching (epoll s)) || os_ready (epoll s) (world s))
  && negb (has (flags (epoll s)) EF_SCHEDULED)
  && wantsNotify (world s) && scheduleOk (world s).


(** When a notify task calls the process: the epoll is not closed, the
    process still runs and something is ready. *)
Definition notify_calls (s : Sim) : bool :=
  negb (has (flags (epoll s)) EF_CLOSED) && isRunning (world s)
  && (any_ready (status s) (watching (epoll s)) || os_ready (epoll s) (world s)).


(** What holds of an event [e] reported for a watch [w], given the table
    [t] and the statuses [st] at the time of the call: the watch is an
    entry of the table, marked [EWF_WATCHING]; the event carries the cookie
    of the subscription; the descriptor is active and not closed; the
    direction bits are those that are both subscribed and true of the
    descriptor, and at least one is set; [EPOLLET] is repeated from the
    subscription. *)
Definition report_sound (st : Z -> Z) (t : WatchTable) (w : EpollWatch)
    (e : epoll_event) : Prop :=
  exists k w0,
    In (k, w0) t /\ descriptor w = descriptor w0 /\ event w = event w0 /\
    has (wflags w0) EWF_WATCHING = true /\
    data e = data (event w0) /\
    has (st (descriptor w0)) DS_ACTIVE = true /\
    has (st (descriptor w0)) DS_CLOSED = false /\
    has (events e) EPOLLIN
    = has (st (descriptor w0)) DS_READABLE && has (events (event w0)) EPOLLIN /\
    has (events e) EPOLLOUT
    = has (st (descriptor w0)) DS_WRITABLE && has (events (event w0)) EPOLLOUT /\
    has (events e) EPOLLET = has (events (event w0)) EPOLLET /\
    (has (events e) EPOLLIN = true \/ has (events e) EPOLLOUT = true).


(** ** References to watches, and the end of the epoll *)

(** The bounds of [gint], a 32-bit signed integer; C leaves its overflow
    undefined. *)
Definition G_MAXINT : Z := 2147483647.
Definition G_MININT : Z := -2147483648.

Definition with_referenceCount (w : EpollWatch) (n : Z) : EpollWatch :=
  mkWatch (descriptor w) (event w) (wflags w) n.

(** [_epollwatch_free]: the watch is released; what remains to be seen
    of it is the [descriptor_unref] of its descriptor. *)
Definition _epollwatch_free (watch : EpollWatch) : list Z := [descriptor watch].

(** [_epollwatch_ref].  [None]: the increment overflows. *)
Definition _epollwatch_ref (watch : EpollWatch) : option EpollWatch :=
  if referenceCount watch <? G_MAXINT
  then Some (with_referenceCount watch (referenceCount watch + 1))
  else None.

(** [_epollwatch_unref]: the watch, if it is still there afterwards, and
    the descriptors that were unreferenced.  [None]: the decrement
    overflows. *)
Definition _epollwatch_unref (watch : EpollWatch) : option (option EpollWatch * list Z) :=
  if G_MININT <? referenceCount watch then
    let watch := with_referenceCount watch (referenceCount watch - 1) in
    if referenceCount watch <=? 0 then Some (None, _epollwatch_free watch)
    else Some (Some watch, [])
  else None.

(** [g_hash_table_destroy] on a table whose values are released with
    [_epollwatch_unref]: the descriptors unreferenced and the watches that
    are still referenced from elsewhere. *)
Fixpoint destroy_table (t : WatchTable) : option (list Z * list EpollWatch) :=
  match t with
  | [] => Some ([], [])
  | (_, watch) :: t' =>
      match _epollwatch_unref watch with
      | None => None
      | Some (rest, ds) =>
          match destroy_table t' with
          | None => None
          | Some (ds', ws) =>
              Some (ds ++ ds', match rest with Some w => w :: ws | None => ws end)
          end
      end
  end.

(** What [_epoll_free] leaves behind. *)
Record Freed : Type := mkFreed {
  unreferenced : list Z;
  surviving : list EpollWatch;
  closedDescriptor : Z
}.

(** [_epoll_free]: the table is destroyed and the kernel epoll closed.
    (The owner process, asserted and unreferenced here, is fixed in this
    development.) *)
Definition _epoll_free (e : Epoll) : option Freed :=
  match destroy_table (watching e) with
  | None => None
  | Some (ds, ws) => Some (mkFreed ds ws (osEpollDescriptor e))
  end.

(** ** Registrations, read off the log *)

Definition is_del (d : Z) (e : Event) : bool :=
  match e with EvDel d' => d' =? d | _ => false end.

(** The latest of the ADDs and DELs of [d] is an ADD. *)
Fixpoint registered (d : Z) (tr : list Event) : bool :=
  match tr with
  | [] => false
  | EvAdd d' :: tr' => if d' =? d then true else registered d tr'
  | EvDel d' :: tr' => if d' =? d then false else registered d tr'
  | _ :: tr' => registered d tr'
  end.

(** ADD was logged for descriptors that were not registered; DEL, MOD and
    reports for descriptors that were. *)
Fixpoint log_ok (tr : list Event) : Prop :=
  match tr with
  | [] => True
  | EvAdd d :: tr' => registered d tr' = false /\ log_ok tr'
  | EvDel d :: tr' => registered d tr' = true /\ log_ok tr'
  | EvMod d :: tr' => registered d tr' = true /\ log_ok tr'
  | EvReport w _ :: tr' => registered (descriptor w) tr' = true /\ log_ok tr'
  | _ :: tr' => log_ok tr'
  end.

Definition is_ledger_neutral (e : Event) : bool :=
  match e with
  | EvAdd _ | EvDel _ | EvMod _ | EvReport _ _ => false
  | _ => true
  end.

(** Two tables with the same keys whose watches agree on the descriptor
    and on the reference count. *)
Definition same_identity (t t' : WatchTable) : Prop :=
  Forall2 (fun x y => fst y = fst x /\ descriptor (snd y) = descriptor (snd x) /\
                      referenceCount (snd y) = referenceCount (snd x)) t t'.

(** The table, the listeners and the log agree: the keys are distinct and
    are the descriptors of the watches, every watch holds one reference,
    the registered descriptors are the keys, the epoll listens to watched
    descriptors only, and to all of them as long as it was not finalized. *)
Definition ledger (t : WatchTable) (l : list Z) (tr : list Event) : Prop :=
  NoDup (map fst t) /\
  Forall (fun kw => descriptor (snd kw) = fst kw /\ referenceCount (snd kw) = 1) t /\
  (forall d, registered d tr = true <-> In d (map fst t)) /\
  log_ok tr /\
  (forall d, In d l -> In d (map fst t)) /\
  (existsb is_finalize tr = false -> forall d, In d (map fst t) -> In d l).

Definition ledger_sim (s : Sim) : Prop :=
  ledger (watching (epoll s)) (listeners s) (trace s).

(** The watches that [_epollwatch_isReady] finds ready, in the order the
    table is iterated, each as the call leaves it. *)
Definition ready_watches (st : Z -> Z) (t : WatchTable) : list EpollWatch :=
  map (fun kw => fst (_epollwatch_isReady (st (descriptor (snd kw))) (snd kw)))
      (filter (fun kw => snd (_epollwatch_isReady (st (descriptor (snd kw))) (snd kw)))
              t).

(** * Properties *)

(** ** Single bits *)

Lemma testbit_one_bit (k i : Z) : 0 <= k -> Z.testbit (Z.shiftl 1 k) i = (i =? k).
Proof.
  intros Hk. rewrite Z.shiftl_1_l, Z.pow2_bits_eqb by assumption. apply Z.eqb_sym.
Qed.

Lemma bit_nonzero (k : Z) : 0 <= k -> Z.shiftl 1 k <> 0.
Proof.
  intros Hk. rewrite Z.shiftl_1_l. apply Z.pow_nonzero; lia.
Qed.

Lemma land_bit (f k : Z) :
  0 <= k -> Z.land f (Z.shiftl 1 k) = if Z.testbit f k then Z.shiftl 1 k else 0.
Proof.
  intros Hk. apply Z.bits_inj'. intros n Hn.
  rewrite Z.land_spec, testbit_one_bit by assumption.
  destruct (Z.eqb_spec n k) as [->|Hne].
  - destruct (Z.testbit f k); simpl.
    + rewrite testbit_one_bit by assumption. symmetry. apply Z.eqb_refl.
    + now rewrite Z.bits_0.
  - rewrite andb_false_r.
    destruct (Z.testbit f k).
    + rewrite testbit_one_bit by assumption. symmetry. now apply Z.eqb_neq.
    + now rewrite Z.bits_0.
Qed.

Lemma has_bit (f k : Z) : 0 <= k -> has f (Z.shiftl 1 k) = Z.testbit f k.
Proof.
  intros Hk. unfold has. rewrite land_bit by assumption.
  destruct (Z.testbit f k); simpl.
  - apply negb_true_iff, Z.eqb_neq, bit_nonzero; assumption.
  - reflexivity.
Qed.

Lemma land_bit_eqb (a b k : Z) :
  0 <= k ->
  (Z.land a (Z.shiftl 1 k) =? Z.land b (Z.shiftl 1 k)) = Bool.eqb (Z.testbit a k) (Z.testbit b k).
Proof.
  intros Hk. rewrite !land_bit by assumption.
  pose proof (bit_nonzero k Hk) as Hnz.
  destruct (Z.testbit a k), (Z.testbit b k); cbv [Bool.eqb].
  - apply Z.eqb_refl.
  - apply Z.eqb_neq; assumption.
  - apply Z.eqb_neq; congruence.
  - reflexivity.
Qed.

Lemma testbit_choice (b : bool) (k i : Z) :
  0 <= k -> Z.testbit (if b then Z.shiftl 1 k else 0) i = b && (i =? k).
Proof.
  intros Hk. destruct b; simpl.
  - now apply testbit_one_bit.
  - apply Z.bits_0.
Qed.

Lemma testbit_if (c : bool) (a b i : Z) :
  Z.testbit (if c then a else b) i = if c then Z.testbit a i else Z.testbit b i.
Proof. destruct c; reflexivity. Qed.

Lemma testbit_set (f k i : Z) :
  0 <= k -> Z.testbit (set_flag f (Z.shiftl 1 k)) i = Z.testbit f i || (i =? k).
Proof.
  intros Hk. unfold set_flag. now rewrite Z.lor_spec, testbit_one_bit.
Qed.

Lemma testbit_clear (f k i : Z) :
  0 <= k -> 0 <= i ->
  Z.testbit (clear_flag f (Z.shiftl 1 k)) i = Z.testbit f i && negb (i =? k).
Proof.
  intros Hk Hi. unfold clear_flag.
  now rewrite Z.land_spec, Z.lnot_spec, testbit_one_bit.
Qed.

Lemma has_set_flag (f i j : Z) :
  0 <= i -> 0 <= j ->
  has (set_flag f (Z.shiftl 1 i)) (Z.shiftl 1 j) = has f (Z.shiftl 1 j) || (j =? i).
Proof. intros Hi Hj. rewrite !has_bit by assumption. now apply testbit_set. Qed.

Lemma has_clear_flag (f i j : Z) :
  0 <= i -> 0 <= j ->
  has (clear_flag f (Z.shiftl 1 i)) (Z.shiftl 1 j) = has f (Z.shiftl 1 j) && negb (j =? i).
Proof. intros Hi Hj. rewrite !has_bit by assumption. now apply testbit_clear. Qed.

(** ** [_epollwatch_updateStatus], flag by flag *)

Ltac flag_consts :=
  unfold EWF_NONE, EWF_ACTIVE, EWF_READABLE, EWF_WAITINGREAD, EWF_READCHANGED,
    EWF_WRITEABLE, EWF_WAITINGWRITE, EWF_WRITECHANGED, EWF_CLOSED, EWF_WATCHING,
    EWF_EDGETRIGGER, EWF_EDGETRIGGER_REPORTED, EWF_ONESHOT, EWF_ONESHOT_REPORTED in *.

Ltac bool_cases :=
  repeat match goal with
         | |- context [Z.testbit ?f ?k] => destruct (Z.testbit f k)
         | |- context [has ?f ?m] => destruct (has f m)
         end; try reflexivity.

(** Bits of a flag word built by [_epollwatch_updateStatus]: the word
    before the change detection is named, the conditionals are pushed
    through [Z.testbit], and what remains is a boolean identity. *)
Ltac update_bits :=
  unfold _epollwatch_updateStatus, with_wflags; cbn [wflags];
  match goal with
  | |- context [Z.land (wflags ?w) EWF_READABLE =? Z.land ?F _] =>
      let b := fresh "base" in
      set (b := F);
      flag_consts;
      rewrite ?has_bit by lia;
      rewrite ?testbit_if, ?Z.lor_spec, ?testbit_one_bit, ?land_bit_eqb by lia;
      rewrite ?testbit_if, ?Z.lor_spec, ?testbit_one_bit by lia;
      subst b
  end;
  rewrite ?Z.lor_spec, ?testbit_choice, ?Z.bits_0 by lia;
  rewrite ?has_bit by lia;
  cbn [Z.eqb Pos.eqb andb orb negb];
  rewrite ?andb_false_r, ?orb_false_r, ?andb_true_r;
  bool_cases.

Lemma updateStatus_descriptor st w :
  descriptor (_epollwatch_updateStatus st w) = descriptor w.
Proof. reflexivity. Qed.

Lemma updateStatus_event st w : event (_epollwatch_updateStatus st w) = event w.
Proof. reflexivity. Qed.

Lemma updateStatus_active st w :
  has (wflags (_epollwatch_updateStatus st w)) EWF_ACTIVE = has st DS_ACTIVE.
Proof. update_bits. Qed.

Lemma updateStatus_readable st w :
  has (wflags (_epollwatch_updateStatus st w)) EWF_READABLE = has st DS_READABLE.
Proof. update_bits. Qed.

Lemma updateStatus_writeable st w :
  has (wflags (_epollwatch_updateStatus st w)) EWF_WRITEABLE = has st DS_WRITABLE.
Proof. update_bits. Qed.

Lemma updateStatus_closed st w :
  has (wflags (_epollwatch_updateStatus st w)) EWF_CLOSED = has st DS_CLOSED.
Proof. update_bits. Qed.

Lemma updateStatus_waitingread st w :
  has (wflags (_epollwatch_updateStatus st w)) EWF_WAITINGREAD
  = has (events (event w)) EPOLLIN.
Proof. update_bits. Qed.

Lemma updateStatus_waitingwrite st w :
  has (wflags (_epollwatch_updateStatus st w)) EWF_WAITINGWRITE
  = has (events (event w)) EPOLLOUT.
Proof. update_bits. Qed.

Lemma updateStatus_edgetrigger st w :
  has (wflags (_epollwatch_updateStatus st w)) EWF_EDGETRIGGER
  = has (events (event w)) EPOLLET.
Proof. update_bits. Qed.

Lemma updateStatus_oneshot st w :
  has (wflags (_epollwatch_updateStatus st w)) EWF_ONESHOT
  = has (events (event w)) EPOLLONESHOT.
Proof. update_bits. Qed.

Lemma updateStatus_watching st w :
  has (wflags (_epollwatch_updateStatus st w)) EWF_WATCHING = has (wflags w) EWF_WATCHING.
Proof. update_bits. Qed.

Lemma updateStatus_edge_reported st w :
  has (wflags (_epollwatch_updateStatus st w)) EWF_EDGETRIGGER_REPORTED
  = has (wflags w) EWF_EDGETRIGGER_REPORTED.
Proof. update_bits. Qed.

Lemma updateStatus_oneshot_reported st w :
  has (wflags (_epollwatch_updateStatus st w)) EWF_ONESHOT_REPORTED
  = has (wflags w) EWF_ONESHOT_REPORTED.
Proof. update_bits. Qed.

Lemma updateStatus_readchanged st w :
  has (wflags (_epollwatch_updateStatus st w)) EWF_READCHANGED
  = has (wflags w) EWF_READCHANGED
    || xorb (has (wflags w) EWF_READABLE) (has st DS_READABLE).
Proof. update_bits. Qed.

Lemma updateStatus_writechanged st w :
  has (wflags (_epollwatch_updateStatus st w)) EWF_WRITECHANGED
  = has (wflags w) EWF_WRITECHANGED
    || xorb (has (wflags w) EWF_WRITEABLE) (has st DS_WRITABLE).
Proof. update_bits. Qed.

(** C4.  [_epollwatch_updateStatus] recomputes [active], [readable],
    [writable] and [closed] from the descriptor status and [waiting-read],
    [waiting-write], [edge-triggered] and [one-shot] from the subscription
    mask; it keeps [watching], [edge-reported] and [one-shot-reported];
    [read-changed] (resp. [write-changed]) keeps its value, except that it
    is set when the new [readable] (resp. [writable]) bit differs from the
    one stored before.  The descriptor and the subscription are untouched. *)
Theorem updateStatus_refreshes_and_keeps_sticky (st : Z) (w : EpollWatch) :
  let w' := _epollwatch_updateStatus st w in
  let f := wflags w in
  let f' := wflags w' in
  descriptor w' = descriptor w /\ event w' = event w /\
  has f' EWF_ACTIVE = has st DS_ACTIVE /\
  has f' EWF_READABLE = has st DS_READABLE /\
  has f' EWF_WRITEABLE = has st DS_WRITABLE /\
  has f' EWF_CLOSED = has st DS_CLOSED /\
  has f' EWF_WAITINGREAD = has (events (event w)) EPOLLIN /\
  has f' EWF_WAITINGWRITE = has (events (event w)) EPOLLOUT /\
  has f' EWF_EDGETRIGGER = has (events (event w)) EPOLLET /\
  has f' EWF_ONESHOT = has (events (event w)) EPOLLONESHOT /\
  has f' EWF_WATCHING = has f EWF_WATCHING /\
  has f' EWF_EDGETRIGGER_REPORTED = has f EWF_EDGETRIGGER_REPORTED /\
  has f' EWF_ONESHOT_REPORTED = has f EWF_ONESHOT_REPORTED /\
  has f' EWF_READCHANGED
    = (if Bool.eqb (has f' EWF_READABLE) (has f EWF_READABLE)
       then has f EWF_READCHANGED else true) /\
  has f' EWF_WRITECHANGED
    = (if Bool.eqb (has f' EWF_WRITEABLE) (has f EWF_WRITEABLE)
       then has f EWF_WRITECHANGED else true).
Proof.
  cbv zeta.
  rewrite updateStatus_readchanged, updateStatus_writechanged.
  rewrite updateStatus_readable, updateStatus_writeable.
  repeat split;
    auto using updateStatus_active, updateStatus_readable, updateStatus_writeable,
      updateStatus_closed, updateStatus_waitingread, updateStatus_waitingwrite,
      updateStatus_edgetrigger, updateStatus_oneshot, updateStatus_watching,
      updateStatus_edge_reported, updateStatus_oneshot_reported.
  - destruct (has st DS_READABLE), (has (wflags w) EWF_READABLE),
      (has (wflags w) EWF_READCHANGED); reflexivity.
  - destruct (has st DS_WRITABLE), (has (wflags w) EWF_WRITEABLE),
      (has (wflags w) EWF_WRITECHANGED); reflexivity.
Qed.

(** ** [_epollwatch_isReady] *)

(** The nested conditionals of the decision as one boolean formula. *)
Lemma ready_flags_eq (f : Z) :
  ready_flags f =
  has f EWF_ACTIVE && negb (has f EWF_CLOSED) && has f EWF_WATCHING &&
  ((has f EWF_READABLE && has f EWF_WAITINGREAD &&
    (negb (has f EWF_EDGETRIGGER) || has f EWF_READCHANGED
     || negb (has f EWF_EDGETRIGGER_REPORTED)))
   || (has f EWF_WRITEABLE && has f EWF_WAITINGWRITE &&
       (negb (has f EWF_EDGETRIGGER) || has f EWF_WRITECHANGED
        || negb (has f EWF_EDGETRIGGER_REPORTED)))) &&
  negb (has f EWF_ONESHOT && has f EWF_ONESHOT_REPORTED).
Proof.
  unfold ready_flags.
  destruct (has f EWF_ACTIVE), (has f EWF_CLOSED), (has f EWF_WATCHING);
    try reflexivity;
    destruct (has f EWF_READABLE), (has f EWF_WAITINGREAD), (has f EWF_WRITEABLE),
      (has f EWF_WAITINGWRITE), (has f EWF_EDGETRIGGER), (has f EWF_READCHANGED),
      (has f EWF_WRITECHANGED), (has f EWF_EDGETRIGGER_REPORTED),
      (has f EWF_ONESHOT), (has f EWF_ONESHOT_REPORTED); reflexivity.
Qed.

(** C1.  [_epollwatch_isReady] first updates the flags of the watch from the
    descriptor status and the subscription mask; on the updated flags it
    answers true exactly when (1) [active] is set, [closed] is not and
    [watching] is, (2,3) some candidate qualifies: level-triggered, readable
    and waited for, or writable and waited for; edge-triggered, the same
    with, for that direction, its change bit set or [edge-reported] not
    set, and (4) [one-shot] and [one-shot-reported] are not both set. *)
Theorem isReady_iff (st : Z) (w : EpollWatch) :
  let (w', r) := _epollwatch_isReady st w in
  let f := wflags w' in
  w' = _epollwatch_updateStatus st w /\
  (r = true <->
   (has f EWF_ACTIVE = true /\ has f EWF_CLOSED = false /\ has f EWF_WATCHING = true) /\
   ((has f EWF_READABLE = true /\ has f EWF_WAITINGREAD = true /\
     (has f EWF_EDGETRIGGER = true ->
      has f EWF_READCHANGED = true \/ has f EWF_EDGETRIGGER_REPORTED = false)) \/
    (has f EWF_WRITEABLE = true /\ has f EWF_WAITINGWRITE = true /\
     (has f EWF_EDGETRIGGER = true ->
      has f EWF_WRITECHANGED = true \/ has f EWF_EDGETRIGGER_REPORTED = false))) /\
   ~ (has f EWF_ONESHOT = true /\ has f EWF_ONESHOT_REPORTED = true)).
Proof.
  unfold _epollwatch_isReady. cbv zeta. split; [reflexivity|].
  generalize (wflags (_epollwatch_updateStatus st w)) as f. intros f.
  rewrite ready_flags_eq.
  rewrite !andb_true_iff, !orb_true_iff, !andb_true_iff, !orb_true_iff,
    !negb_true_iff, andb_false_iff.
  destruct (has f EWF_EDGETRIGGER), (has f EWF_ONESHOT), (has f EWF_ONESHOT_REPORTED);
    intuition congruence.
Qed.

(** ** The table *)

Lemma table_lookup_none d t : table_lookup d t = None -> ~ In d (map fst t).
Proof.
  induction t as [|[k w] t IH]; cbn; [tauto|].
  destruct (Z.eqb_spec k d); [discriminate|]. intros H [Hk|Hin]; [auto|]. now apply IH.
Qed.

Lemma table_lookup_in d w t : table_lookup d t = Some w -> In (d, w) t.
Proof.
  induction t as [|[k w0] t IH]; cbn; [discriminate|].
  destruct (Z.eqb_spec k d) as [->|Hne]; intros H.
  - inversion H; subst. now left.
  - right. now apply IH.
Qed.

Lemma table_replace_Forall (P : Z * EpollWatch -> Prop) d w t :
  Forall P t -> P (d, w) -> Forall P (table_replace d w t).
Proof.
  intros Ht Hw. induction Ht as [|[k w0] t Hk Ht IH]; cbn.
  - constructor; [exact Hw|constructor].
  - destruct (k =? d); constructor; auto.
Qed.

Lemma table_replace_keys d w t :
  map fst (table_replace d w t)
  = if existsb (fun kw => fst kw =? d) t then map fst t else map fst t ++ [d].
Proof.
  induction t as [|[k w0] t IH]; cbn; [reflexivity|].
  destruct (Z.eqb_spec k d) as [->|Hne]; cbn; [reflexivity|].
  rewrite IH. destruct (existsb _ t); reflexivity.
Qed.

Lemma table_lookup_existsb d t :
  existsb (fun kw => fst kw =? d) t
  = match table_lookup d t with Some _ => true | None => false end.
Proof.
  induction t as [|[k w0] t IH]; cbn; [reflexivity|].
  destruct (k =? d); cbn; auto.
Qed.

Lemma table_remove_Forall (P : Z * EpollWatch -> Prop) d t :
  Forall P t -> Forall P (table_remove d t).
Proof.
  intros Ht. induction Ht as [|[k w0] t Hk Ht IH]; cbn; [constructor|].
  destruct (k =? d); [exact Ht|constructor; auto].
Qed.

Lemma table_remove_keys_incl d t k : In k (map fst (table_remove d t)) -> In k (map fst t).
Proof.
  induction t as [|[k0 w0] t IH]; cbn; [tauto|].
  destruct (k0 =? d); cbn; [tauto|]. intros [H|H]; auto.
Qed.

Lemma table_remove_NoDup d t : NoDup (map fst t) -> NoDup (map fst (table_remove d t)).
Proof.
  induction t as [|[k0 w0] t IH]; cbn; [auto|].
  intros Hnd. apply NoDup_cons_iff in Hnd. destruct Hnd as [Hnotin Hnd].
  destruct (k0 =? d); [exact Hnd|]. cbn. constructor; [|auto].
  intros Hin. apply Hnotin. eapply table_remove_keys_incl, Hin.
Qed.

Lemma table_replace_wf d w t :
  table_wf t -> descriptor w = d -> has (wflags w) EWF_WATCHING = true ->
  table_wf (table_replace d w t).
Proof.
  intros [Hnd Hdesc] Hd Hw. split.
  - rewrite table_replace_keys, table_lookup_existsb.
    destruct (table_lookup d t) eqn:Hl; [exact Hnd|].
    apply NoDup_app; [exact Hnd| repeat constructor; intros [] |].
    intros x Hin [<-|[]]. revert Hin. apply table_lookup_none, Hl.
  - apply table_replace_Forall; [exact Hdesc|split; [exact Hd|exact Hw]].
Qed.

Lemma table_remove_wf d t : table_wf t -> table_wf (table_remove d t).
Proof.
  intros [Hnd Hdesc]. split; [now apply table_remove_NoDup|].
  now apply table_remove_Forall.
Qed.

(** ** [epoll_control]: result codes *)

Ltac control_cases s operation d ev :=
  unfold epoll_control, utility_assert;
  destruct (Z.eqb_spec operation EPOLL_CTL_ADD) as [Hadd|Hadd];
    [|destruct (Z.eqb_spec operation EPOLL_CTL_MOD) as [Hmod|Hmod];
       [|destruct (Z.eqb_spec operation EPOLL_CTL_DEL) as [Hdel|Hdel]]];
  destruct (table_lookup d (watching (epoll s))) as [w0|] eqn:Hlook;
  try destruct ev as [e|];
  try destruct (has (wflags w0) EWF_WATCHING) eqn:Hwatching.

(** C5.  When a subscription comes with ADD and MOD and the table is
    well formed (what the two assertions of the function ask for),
    [epoll_control] returns, and its result is [EEXIST] exactly for an ADD
    of a registered handle, [ENOENT] exactly for a MOD or DEL of a handle
    that is not registered, and 0 in every other case, an unknown operation
    included. *)
Theorem epoll_control_result (s : Sim) (operation d : Z) (ev : option epoll_event) :
  (operation = EPOLL_CTL_ADD \/ operation = EPOLL_CTL_MOD -> ev <> None) ->
  table_wf (watching (epoll s)) ->
  exists s' r,
    epoll_control s operation d ev = Some (s', r) /\
    (r = EEXIST <->
     operation = EPOLL_CTL_ADD /\ table_lookup d (watching (epoll s)) <> None) /\
    (r = ENOENT <->
     (operation = EPOLL_CTL_MOD \/ operation = EPOLL_CTL_DEL) /\
     table_lookup d (watching (epoll s)) = None) /\
    (r <> EEXIST -> r <> ENOENT -> r = 0).
Proof.
  intros Hev [_ Hwf].
  assert (Hw : forall w, table_lookup d (watching (epoll s)) = Some w ->
                         has (wflags w) EWF_WATCHING = true).
  { intros w Hl. rewrite Forall_forall in Hwf.
    apply (Hwf _ (table_lookup_in _ _ _ Hl)). }
  control_cases s operation d ev;
    try (exfalso; apply Hev; [auto|reflexivity]; fail);
    try (specialize (Hw _ eq_refl); congruence);
    eexists; eexists; (split; [reflexivity|]);
    unfold EEXIST, ENOENT, EPOLL_CTL_ADD, EPOLL_CTL_MOD, EPOLL_CTL_DEL in *;
    repeat split; intros; try congruence; try lia; intuition (try congruence; try lia).
Qed.

(** C10.  A call of [epoll_control] that returns [EEXIST] or [ENOENT]
    leaves everything as it was: the table, every watch, the flags of the
    epoll, the listeners, the queue of the scheduler and the log (so no
    check, no readiness evaluation and no scheduling took place). *)
Theorem epoll_control_error_atomic (s s' : Sim) (operation d r : Z)
    (ev : option epoll_event) :
  epoll_control s operation d ev = Some (s', r) ->
  r = EEXIST \/ r = ENOENT ->
  s' = s.
Proof.
  intros Hc Hr. revert Hc.
  control_cases s operation d ev; intros Hc; inversion Hc; subst;
    try reflexivity;
    unfold EEXIST, ENOENT in Hr; destruct Hr; discriminate.
Qed.

(** ** Frames: what each function leaves alone *)

Lemma isReadyOS_frame (s : Sim) :
  let s' := fst (_epoll_isReadyOS s) in
  epoll s' = epoll s /\ status s' = status s /\ world s' = world s /\
  listeners s' = listeners s /\ tasks s' = tasks s /\
  exists t, trace s' = t ++ trace s /\ forallb is_check_event t = true
            /\ forallb is_os_call t = true.
Proof.
  unfold _epoll_isReadyOS.
  destruct (osEpollDescriptor (epoll s) >=? 3); cbn [fst].
  - destruct (probeCtl (world (log s (EvOs OsProbeCreate))) =? 0); cbn;
      repeat split.
    + exists [EvOs OsProbeClose; EvOs OsProbeDel; EvOs OsProbeWait; EvOs OsProbeAdd;
              EvOs OsProbeCreate]. repeat split.
    + exists [EvOs OsProbeClose; EvOs OsProbeAdd; EvOs OsProbeCreate]. repeat split.
  - repeat split. exists []. repeat split.
Qed.

Lemma swept_refl st t : swept st t t.
Proof. induction t; constructor; auto. Qed.

Lemma check_loop_swept st t : swept st t (fst (check_loop st t)).
Proof.
  induction t as [|[k w] t IH]; cbn.
  - constructor.
  - destruct (ready_flags _).
    + cbn. constructor; [cbn; auto | apply swept_refl].
    + destruct (check_loop st t) as [t'' r']. cbn. constructor; [cbn; auto | exact IH].
Qed.

Lemma notify_loop_swept st t : swept st t (fst (notify_loop st t)).
Proof.
  induction t as [|[k w] t IH]; cbn.
  - constructor.
  - destruct (notify_loop st t) as [t'' r']. cbn. constructor; [cbn; auto | exact IH].
Qed.

(** [_epoll_check] sweeps the table, may set the readable bit of the epoll
    and [EF_SCHEDULED], may queue one task, and logs nothing but probes and
    that queueing. *)
Lemma check_frame (s : Sim) :
  let s' := _epoll_check s in
  status s' = status s /\ world s' = world s /\ listeners s' = listeners s /\
  osEpollDescriptor (epoll s') = osEpollDescriptor (epoll s) /\
  swept (status s) (watching (epoll s)) (watching (epoll s')) /\
  exists t, trace s' = t ++ trace s /\ forallb is_check_event t = true.
Proof.
  unfold _epoll_check.
  destruct (has (flags (epoll s)) EF_CLOSED || has (flags (epoll s)) EF_NOTIFYING).
  { cbn. repeat split. - apply swept_refl. - exists []. split; reflexivity. }
  pose proof (check_loop_swept (status s) (watching (epoll s))) as Hsw.
  destruct (check_loop (status s) (watching (epoll s))) as [t r]. cbn [fst] in Hsw.
  destruct r; cbn [negb].
  - destruct (negb _ && _); [destruct (scheduleOk _)|]; cbn; repeat split; auto;
      first [ exists [EvSchedule]; split; reflexivity | exists []; split; reflexivity ].
  - pose proof (isReadyOS_frame (set_watching s t)) as Hos.
    destruct (_epoll_isReadyOS (set_watching s t)) as [s1 r1]. cbn [fst] in Hos.
    destruct Hos as (He & Hst & Hw & Hl & Ht & tr & Htr & Hck & _).
    destruct r1; [destruct (negb _ && _); [destruct (scheduleOk _)|]|]; cbn;
      rewrite ?He, ?Hst, ?Hw, ?Hl, ?Htr; cbn; repeat split; auto;
      first [ exists (EvSchedule :: tr); split; [reflexivity | cbn; exact Hck]
            | exists tr; split; [reflexivity | exact Hck] ].
Qed.

(** ** [epoll_getEvents]: the capacity *)

Lemma collect_loop_index st t i n :
  let '(_, out, i') := collect_loop st t i n in
  i' = i + Z.of_nat (length out) /\ (i <= n -> i' <= n).
Proof.
  revert i. induction t as [|[k w] t IH]; intros i; cbn.
  - split; lia.
  - destruct (Z.ltb_spec i n) as [Hlt|Hge]; [|cbn; split; lia].
    destruct (ready_flags _).
    + specialize (IH (i + 1)).
      destruct (collect_loop st t (i + 1) n) as [[t'' out] i']. cbn [length].
      split; lia.
    + specialize (IH i).
      destruct (collect_loop st t i n) as [[t'' out] i']. exact IH.
Qed.

Lemma os_epoll_wait_bound (w : World) (space : Z) :
  0 <= space ->
  let (nos, evs) := os_epoll_wait w space in
  Z.of_nat (length (firstn (Z.to_nat nos) evs)) <= space.
Proof.
  intros Hs. unfold os_epoll_wait. destruct (osWaitFails w); cbn.
  - lia.
  - rewrite !length_firstn. lia.
Qed.

(** C6, as the code has it.  A call of [epoll_getEvents] with a capacity
    that is not negative and that the stack has room for returns.
    Whenever a call with a capacity that is not negative returns, the
    number of slots it wrote is the count it reports, and it is at most the
    capacity.  When the sweep of the watches has filled the buffer (always
    so for capacity 0), [epoll_wait] is not called on the kernel epoll and
    nothing from the kernel is appended; for capacity 0 no event is
    returned.  The final [_epoll_check] may still probe the kernel epoll,
    and these are the only kernel calls then. *)
Theorem getEvents_within_capacity (s : Sim) (capacity : Z) :
  0 <= capacity ->
  (capacity <= stackEvents (world s) -> epoll_getEvents s capacity <> None) /\
  forall s' c,
    epoll_getEvents s capacity = Some (s', c) ->
    exists t,
      trace s' = t ++ trace s /\
      Z.of_nat (length (eventArray c)) = nEvents c /\
      nEvents c <= capacity /\
      (let '(_, out, n) := collect_loop (status s) (watching (epoll s)) 0 capacity in
       n = capacity ->
       eventArray c = map snd out /\ existsb is_os_wait t = false) /\
      (capacity = 0 ->
       eventArray c = [] /\ nEvents c = 0 /\
       forall e, In e t -> is_os_call e = true -> is_check_event e = true).
Proof.
  intros Hcap. unfold epoll_getEvents.
  pose proof (collect_loop_index (status s) (watching (epoll s)) 0 capacity) as Hidx.
  destruct (collect_loop (status s) (watching (epoll s)) 0 capacity) as [[t out] n].
  destruct Hidx as [Hn Hle]. specialize (Hle Hcap).
  destruct (Z.ltb_spec (capacity - n) 0) as [Hneg|Hpos]; [lia|].
  set (s1 := log_all (set_watching s t) (map (fun de => EvReport (fst de) (snd de)) out)).
  change (world s1) with (world s).
  assert (Hrep : forall l : list (EpollWatch * epoll_event),
             existsb is_os_wait (rev (map (fun de => EvReport (fst de) (snd de)) l)) = false
             /\ forall e, In e (rev (map (fun de => EvReport (fst de) (snd de)) l)) ->
                          is_os_call e = false).
  { intros l. split.
    - apply not_true_iff_false. intros H. apply existsb_exists in H.
      destruct H as (e & Hin & He). apply in_rev, in_map_iff in Hin.
      destruct Hin as (x & <- & _). discriminate.
    - intros e Hin. apply in_rev, in_map_iff in Hin.
      destruct Hin as (x & <- & _). reflexivity. }
  destruct (Z.eqb_spec (capacity - n) 0) as [Hfull|Hspace]; cbn [negb andb].
  - split; [intros _; discriminate|].
    intros s' c Heq. inversion Heq; subst s' c. clear Heq.
    pose proof (check_frame s1) as (_ & _ & _ & _ & _ & tc & Htc & Hck).
    exists (tc ++ rev (map (fun de => EvReport (fst de) (snd de)) out)).
    cbn [eventArray nEvents]. rewrite app_nil_r, length_map.
    repeat split; try lia.
    + rewrite Htc, <- app_assoc. reflexivity.
    + rewrite existsb_app. destruct (Hrep out) as [-> _]. rewrite orb_false_r.
      apply not_true_iff_false. intros Hex. apply existsb_exists in Hex.
      destruct Hex as (e & Hin & He).
      rewrite forallb_forall in Hck. specialize (Hck _ Hin).
      destruct e as [| | | | |[]| | | | | |]; discriminate.
    + destruct out; [reflexivity|cbn [length] in Hn; lia].
    + intros e Hin Hos. apply in_app_or in Hin. destruct Hin as [Hin|Hin].
      * rewrite forallb_forall in Hck. auto.
      * destruct (Hrep out) as [_ Hno]. rewrite (Hno _ Hin) in Hos. discriminate.
  - destruct (Z.ltb_spec (stackEvents (world s)) (capacity - n)) as [Hbig|Hroom].
    { split; [intros Hb; lia|discriminate]. }
    pose proof (os_epoll_wait_bound (world s) (capacity - n) Hpos) as Hos.
    destruct (os_epoll_wait (world s) (capacity - n)) as [nos evs].
    split; [intros _; discriminate|].
    intros s' c Heq. inversion Heq; subst s' c. clear Heq.
    set (s2 := set_world (log s1 (EvOs (OsWait (capacity - n)))) (os_after_wait (world s))).
    pose proof (check_frame s2) as (_ & _ & _ & _ & _ & tc & Htc & Hck).
    exists (tc ++ EvOs (OsWait (capacity - n))
               :: rev (map (fun de => EvReport (fst de) (snd de)) out)).
    cbn [eventArray nEvents]. rewrite length_app, length_map.
    repeat split; try lia.
    rewrite Htc, <- app_assoc. reflexivity.
Qed.


(** ** What a report does to a watch *)

Lemma mark_collected_flags (w : EpollWatch) :
  wflags (mark_collected w) =
  let f1 := clear_flag (clear_flag (wflags w) EWF_READCHANGED) EWF_WRITECHANGED in
  let f2 := if has f1 EWF_EDGETRIGGER then set_flag f1 EWF_EDGETRIGGER_REPORTED else f1 in
  if has f2 EWF_ONESHOT then set_flag f2 EWF_ONESHOT_REPORTED else f2.
Proof.
  unfold mark_collected, with_wflags. cbn [wflags].
  destruct (has _ EWF_EDGETRIGGER); cbn [wflags];
    destruct (has _ EWF_ONESHOT); reflexivity.
Qed.

Lemma mark_collected_descriptor w : descriptor (mark_collected w) = descriptor w.
Proof.
  unfold mark_collected, with_wflags. cbn [wflags].
  destruct (has _ EWF_EDGETRIGGER); cbn [wflags];
    destruct (has _ EWF_ONESHOT); reflexivity.
Qed.

Lemma mark_collected_event w : event (mark_collected w) = event w.
Proof.
  unfold mark_collected, with_wflags. cbn [wflags].
  destruct (has _ EWF_EDGETRIGGER); cbn [wflags];
    destruct (has _ EWF_ONESHOT); reflexivity.
Qed.

Ltac mark_bits :=
  rewrite mark_collected_flags; cbv zeta; flag_consts;
  rewrite ?has_bit by lia;
  repeat first [ rewrite testbit_if | rewrite testbit_set by lia
               | rewrite testbit_clear by lia | rewrite has_bit by lia ];
  cbn [Z.eqb Pos.eqb andb orb negb];
  rewrite ?andb_false_r, ?orb_false_r, ?andb_true_r;
  bool_cases.

Lemma mark_collected_watching w :
  has (wflags (mark_collected w)) EWF_WATCHING = has (wflags w) EWF_WATCHING.
Proof. mark_bits. Qed.

Lemma mark_collected_readable w :
  has (wflags (mark_collected w)) EWF_READABLE = has (wflags w) EWF_READABLE.
Proof. mark_bits. Qed.

Lemma mark_collected_writeable w :
  has (wflags (mark_collected w)) EWF_WRITEABLE = has (wflags w) EWF_WRITEABLE.
Proof. mark_bits. Qed.

Lemma mark_collected_readchanged w :
  has (wflags (mark_collected w)) EWF_READCHANGED = false.
Proof. mark_bits. Qed.

Lemma mark_collected_writechanged w :
  has (wflags (mark_collected w)) EWF_WRITECHANGED = false.
Proof. mark_bits. Qed.

Lemma mark_collected_edge_reported w :
  has (wflags (mark_collected w)) EWF_EDGETRIGGER_REPORTED
  = has (wflags w) EWF_EDGETRIGGER_REPORTED || has (wflags w) EWF_EDGETRIGGER.
Proof. mark_bits. Qed.

Lemma mark_collected_oneshot_reported w :
  has (wflags (mark_collected w)) EWF_ONESHOT_REPORTED
  = has (wflags w) EWF_ONESHOT_REPORTED || has (wflags w) EWF_ONESHOT.
Proof. mark_bits. Qed.

(** The direction bits of a reported event. *)
Lemma reported_event_in w :
  has (events (reported_event w)) EPOLLIN
  = has (wflags w) EWF_READABLE && has (wflags w) EWF_WAITINGREAD.
Proof.
  unfold reported_event. cbn [events data].
  change EPOLLIN with (Z.shiftl 1 0). change EPOLLOUT with (Z.shiftl 1 2).
  unfold EPOLLET.
  destruct (has (wflags w) EWF_READABLE && has (wflags w) EWF_WAITINGREAD),
    (has (wflags w) EWF_WRITEABLE && has (wflags w) EWF_WAITINGWRITE),
    (has (wflags w) EWF_EDGETRIGGER); reflexivity.
Qed.

Lemma reported_event_out w :
  has (events (reported_event w)) EPOLLOUT
  = has (wflags w) EWF_WRITEABLE && has (wflags w) EWF_WAITINGWRITE.
Proof.
  unfold reported_event. cbn [events data].
  destruct (has (wflags w) EWF_READABLE && has (wflags w) EWF_WAITINGREAD),
    (has (wflags w) EWF_WRITEABLE && has (wflags w) EWF_WAITINGWRITE),
    (has (wflags w) EWF_EDGETRIGGER); reflexivity.
Qed.

Lemma reported_event_et w :
  has (events (reported_event w)) EPOLLET = has (wflags w) EWF_EDGETRIGGER.
Proof.
  unfold reported_event. cbn [events data].
  destruct (has (wflags w) EWF_READABLE && has (wflags w) EWF_WAITINGREAD),
    (has (wflags w) EWF_WRITEABLE && has (wflags w) EWF_WAITINGWRITE),
    (has (wflags w) EWF_EDGETRIGGER); reflexivity.
Qed.

(** ** Level-triggered watches *)

Lemma same_subscription_refl w : same_subscription w w.
Proof. repeat split. Qed.

Lemma same_subscription_trans w1 w2 w3 :
  same_subscription w1 w2 -> same_subscription w2 w3 -> same_subscription w1 w3.
Proof. unfold same_subscription. intuition congruence. Qed.

Lemma same_subscription_update st w :
  same_subscription w (_epollwatch_updateStatus st w).
Proof. repeat split. apply updateStatus_watching. Qed.

Lemma same_subscription_mark w : same_subscription w (mark_collected w).
Proof.
  repeat split.
  - apply mark_collected_descriptor.
  - apply mark_collected_event.
  - apply mark_collected_watching.
Qed.

Lemma same_subscriptions_refl t : same_subscriptions t t.
Proof. induction t; constructor; auto using same_subscription_refl. Qed.

Lemma same_subscriptions_trans t1 t2 t3 :
  same_subscriptions t1 t2 -> same_subscriptions t2 t3 -> same_subscriptions t1 t3.
Proof.
  intros H12. revert t3. induction H12 as [|x y t1 t2 [Hk Hs] _ IH]; intros t3 H23.
  - inversion H23. constructor.
  - inversion H23 as [|y' z t2' t3' [Hk' Hs'] Hrest]; subst. constructor.
    + split; [congruence | eauto using same_subscription_trans].
    + apply IH; assumption.
Qed.

Lemma swept_same_subscriptions st t t' : swept st t t' -> same_subscriptions t t'.
Proof.
  induction 1 as [|x y t t' [Hk Hw] _ IH]; constructor; [|exact IH].
  split; [exact Hk|]. destruct Hw as [->| ->].
  - apply same_subscription_refl.
  - apply same_subscription_update.
Qed.

Lemma collect_loop_same_subscriptions st t i n :
  same_subscriptions t (fst (fst (collect_loop st t i n))).
Proof.
  revert i. induction t as [|[k w] t IH]; intros i; cbn.
  - constructor.
  - destruct (i <? n); [|apply same_subscriptions_refl].
    destruct (ready_flags _).
    + specialize (IH (i + 1)).
      destruct (collect_loop st t (i + 1) n) as [[t'' out] i']. cbn in *.
      constructor; [|exact IH]. split; [reflexivity|]. cbn.
      eapply same_subscription_trans;
        [apply same_subscription_update | apply same_subscription_mark].
    + specialize (IH i).
      destruct (collect_loop st t i n) as [[t'' out] i']. cbn in *.
      constructor; [|exact IH]. split; [reflexivity|]. cbn.
      apply same_subscription_update.
Qed.




Lemma reports_of_app t1 t2 : reports_of (t1 ++ t2) = reports_of t1 ++ reports_of t2.
Proof. unfold reports_of. apply flat_map_app. Qed.

Lemma reports_of_check t : forallb is_check_event t = true -> reports_of t = [].
Proof.
  induction t as [|e t IH]; [reflexivity|]. cbn [forallb]. rewrite andb_true_iff.
  intros [He Ht]. destruct e; try discriminate; cbn; auto.
Qed.

Lemma reports_of_logged out :
  reports_of (rev (map (fun de => EvReport (fst de) (snd de)) out)) = rev (visible out).
Proof.
  induction out as [|[w e] out IH]; [reflexivity|].
  cbn [map rev visible fst snd]. rewrite reports_of_app, IH. reflexivity.
Qed.


Lemma getEvents_negative s n : n < 0 -> epoll_getEvents s n = None.
Proof.
  intros Hn. unfold epoll_getEvents.
  pose proof (collect_loop_index (status s) (watching (epoll s)) 0 n) as Hidx.
  destruct (collect_loop (status s) (watching (epoll s)) 0 n) as [[t out] i].
  destruct Hidx as [Hi _].
  destruct (Z.ltb_spec (n - i) 0); [reflexivity|lia].
Qed.

(** [epoll_getEvents] in three steps, when it returns: the loop over the
    watches, the kernel's events when space is left, the final check. *)
Lemma getEvents_steps (s : Sim) (capacity : Z) :
  0 <= capacity ->
  epoll_getEvents s capacity <> None ->
  let '(t, out, n) := collect_loop (status s) (watching (epoll s)) 0 capacity in
  exists s2 c tos,
    epoll_getEvents s capacity = Some (_epoll_check s2, c) /\
    eventArray c
    = map snd out
      ++ (if capacity - n =? 0 then []
          else firstn (Z.to_nat (fst (os_epoll_wait (world s) (capacity - n))))
                 (snd (os_epoll_wait (world s) (capacity - n)))) /\
    nEvents c = Z.of_nat (length (eventArray c)) /\
    epoll s2 = epoll (set_watching s t) /\
    status s2 = status s /\
    world s2 = (if capacity - n =? 0 then world s else os_after_wait (world s)) /\
    listeners s2 = listeners s /\
    tasks s2 = tasks s /\
    trace s2 = tos ++ rev (map (fun de => EvReport (fst de) (snd de)) out) ++ trace s /\
    forallb is_os_call tos = true.
Proof.
  intros Hcap. unfold epoll_getEvents.
  pose proof (collect_loop_index (status s) (watching (epoll s)) 0 capacity) as Hidx.
  destruct (collect_loop (status s) (watching (epoll s)) 0 capacity) as [[t out] n].
  destruct Hidx as [Hn Hle]. specialize (Hle Hcap).
  destruct (Z.ltb_spec (capacity - n) 0) as [Hneg|Hpos]; [lia|].
  destruct (Z.eqb_spec (capacity - n) 0) as [Hfull|Hspace]; cbn [negb andb].
  - intros _. eexists; eexists; exists []. split; [reflexivity|]. cbn.
    rewrite app_nil_r, length_map. repeat split. lia.
  - cbn [world log_all set_watching set_epoll].
    destruct (stackEvents (world s) <? capacity - n); [intros H; now destruct H|].
    intros _.
    destruct (os_epoll_wait (world s) (capacity - n)) as [nos evs].
    eexists; eexists; exists [EvOs (OsWait (capacity - n))].
    split; [reflexivity|]. cbn.
    rewrite length_app, length_map. repeat split. lia.
Qed.

Lemma getEvents_returned (s s' : Sim) (n : Z) (c : Collected) :
  epoll_getEvents s n = Some (s', c) -> epoll_getEvents s n <> None.
Proof. intros H. rewrite H. discriminate. Qed.


(** ** The log and the flags agree *)

Lemma oneshot_pending_skip d t0 tr :
  forallb (fun e => negb (concerns d e)) t0 = true ->
  oneshot_pending d (t0 ++ tr) = oneshot_pending d tr.
Proof.
  induction t0 as [|e t0 IH]; [reflexivity|]. cbn [forallb app].
  rewrite andb_true_iff, negb_true_iff. intros [He Ht].
  destruct e; cbn in *; rewrite ?He; auto.
Qed.

Lemma edge_pending_skip d t0 tr :
  forallb (fun e => negb (concerns d e)) t0 = true ->
  edge_pending d (t0 ++ tr) = edge_pending d tr.
Proof.
  induction t0 as [|e t0 IH]; [reflexivity|]. cbn [forallb app].
  rewrite andb_true_iff, negb_true_iff. intros [He Ht].
  destruct e; cbn in *; rewrite ?He; auto.
Qed.

Lemma watch_hist_skip d sd t0 tr w :
  forallb (fun e => negb (concerns d e)) t0 = true ->
  watch_hist d sd tr w -> watch_hist d sd (t0 ++ tr) w.
Proof.
  intros Hskip. unfold watch_hist.
  rewrite (oneshot_pending_skip _ _ _ Hskip), (edge_pending_skip _ _ _ Hskip). auto.
Qed.

Lemma reports_ok_skip t0 tr :
  forallb (fun e => negb (is_report e)) t0 = true ->
  reports_ok tr -> reports_ok (t0 ++ tr).
Proof.
  induction t0 as [|e t0 IH]; [auto|]. cbn [forallb app].
  rewrite andb_true_iff, negb_true_iff. intros [He Ht] Hok.
  destruct e; try discriminate; cbn; auto.
Qed.

(** Updating a watch keeps it in line with the log. *)
Lemma watch_hist_update d sd tr w :
  watch_hist d sd tr w -> watch_hist d sd tr (_epollwatch_updateStatus sd w).
Proof.
  intros [Hos Het]. split.
  - intros Hp. rewrite updateStatus_event, updateStatus_oneshot_reported. auto.
  - intros rc wc Hp. destruct (Het rc wc Hp) as (Hm & Hr & Hrc & Hwc).
    rewrite updateStatus_event, updateStatus_edge_reported, updateStatus_readchanged,
      updateStatus_writechanged, updateStatus_readable, updateStatus_writeable.
    repeat split; auto.
    + destruct (Hrc H) as [-> ->]. apply xorb_nilpotent.
    + destruct (Hwc H) as [-> ->]. apply xorb_nilpotent.
Qed.

Lemma table_wf_tail kw t : table_wf (kw :: t) -> table_wf t.
Proof.
  intros [Hnd Hd]. inversion Hnd; inversion Hd; subst. split; assumption.
Qed.

Lemma swept_keys st t t' : swept st t t' -> map fst t' = map fst t.
Proof.
  induction 1 as [|x y t t' [Hk _] _ IH]; [reflexivity|]. cbn. congruence.
Qed.

Lemma swept_table_wf st t t' : swept st t t' -> table_wf t -> table_wf t'.
Proof.
  intros Hsw [Hnd Hd]. split.
  - rewrite (swept_keys _ _ _ Hsw). exact Hnd.
  - clear Hnd. induction Hsw as [|x y t t' [Hk Hw] _ IH]; [constructor|].
    inversion Hd as [|? ? [Hdx Hwx] Hd']; subst. constructor; [|auto].
    rewrite Hk. destruct Hw as [->| ->]; [split; assumption|].
    split; [exact Hdx|]. rewrite updateStatus_watching. exact Hwx.
Qed.

Lemma hist_swept st t t' tr : swept st t t' -> hist t st tr -> hist t' st tr.
Proof.
  intros Hsw (Hwf & Hok & Hall). split; [|split]; [eauto using swept_table_wf|exact Hok|].
  destruct Hwf as [_ Hd]. clear Hok.
  induction Hsw as [|x y t t' [Hk Hw] _ IH]; [constructor|].
  inversion Hd as [|? ? [Hdx _] Hd']; inversion Hall; subst. constructor; [|auto].
  rewrite Hk. destruct Hw as [->| ->]; [assumption|].
  rewrite Hdx. apply watch_hist_update. assumption.
Qed.

Lemma hist_skip t st t0 tr :
  forallb (fun e => negb (is_report e)) t0 = true ->
  (forall d, forallb (fun e => negb (concerns d e)) t0 = true) ->
  hist t st tr -> hist t st (t0 ++ tr).
Proof.
  intros Hnr Hnc (Hwf & Hok & Hall). split; [exact Hwf|split].
  - apply reports_ok_skip; assumption.
  - eapply Forall_impl; [|exact Hall]. intros kw. apply watch_hist_skip, Hnc.
Qed.

Lemma check_events_skip t0 :
  forallb is_check_event t0 = true ->
  forallb (fun e => negb (is_report e)) t0 = true /\
  forall d, forallb (fun e => negb (concerns d e)) t0 = true.
Proof.
  intros H. split; [|intros d]; apply forallb_forall; intros e Hin;
    rewrite forallb_forall in H; specialize (H e Hin); destruct e; try discriminate;
    reflexivity.
Qed.

Lemma check_hist (s : Sim) : hist_sim s -> hist_sim (_epoll_check s).
Proof.
  intros H. pose proof (check_frame s) as (Hst & _ & _ & _ & Hsw & t & Ht & Hck).
  unfold hist_sim. rewrite Hst, Ht.
  destruct (check_events_skip _ Hck) as [Hnr Hnc].
  apply hist_skip; [assumption..|]. eapply hist_swept; eassumption.
Qed.

Lemma ready_not_oneshot_reported f :
  ready_flags f = true ->
  has f EWF_ONESHOT = true -> has f EWF_ONESHOT_REPORTED = true -> False.
Proof.
  rewrite ready_flags_eq. intros H Ho Hr. rewrite Ho, Hr in H.
  cbn in H. rewrite andb_false_r in H. discriminate.
Qed.

Lemma ready_edge_reported f :
  ready_flags f = true ->
  has f EWF_EDGETRIGGER = true -> has f EWF_EDGETRIGGER_REPORTED = true ->
  (has f EWF_READABLE && has f EWF_WAITINGREAD = true /\ has f EWF_READCHANGED = true) \/
  (has f EWF_WRITEABLE && has f EWF_WAITINGWRITE = true /\ has f EWF_WRITECHANGED = true).
Proof.
  rewrite ready_flags_eq. intros H He Hr. rewrite He, Hr in H. cbn [negb orb] in H.
  rewrite !orb_false_r in H.
  apply andb_true_iff in H. destruct H as [H _].
  apply andb_true_iff in H. destruct H as [_ H].
  apply orb_true_iff in H. destruct H as [H|H]; apply andb_true_iff in H; tauto.
Qed.

(** A report is allowed by the log, and the watch it marks is in line with
    the log extended by the report. *)
Lemma report_allowed d sd tr w :
  watch_hist d sd tr w ->
  descriptor w = d ->
  let w1 := _epollwatch_updateStatus sd w in
  ready_flags (wflags w1) = true ->
  reports_ok tr ->
  reports_ok (EvReport w1 (reported_event w1) :: tr) /\
  watch_hist d sd (EvReport w1 (reported_event w1) :: tr) (mark_collected w1).
Proof.
  intros Hh Hd w1 Hready Hok.
  pose proof (watch_hist_update _ _ _ _ Hh) as [Hos Het]. fold w1 in Hos, Het.
  assert (Hd1 : descriptor w1 = d) by exact Hd.
  split.
  - cbn [reports_ok]. rewrite Hd1. split; [|split; [|exact Hok]].
    + destruct (oneshot_pending d tr) eqn:Hp; [|reflexivity].
      destruct (Hos eq_refl) as [Hm Hr]. exfalso.
      apply (ready_not_oneshot_reported _ Hready); [|exact Hr].
      unfold w1. rewrite updateStatus_oneshot. exact Hm.
    + intros rc wc Hp. destruct (Het rc wc Hp) as (Hm & Hr & Hrc & Hwc).
      rewrite reported_event_in, reported_event_out.
      assert (Hedge : has (wflags w1) EWF_EDGETRIGGER = true)
        by (unfold w1; rewrite updateStatus_edgetrigger; exact Hm).
      destruct (ready_edge_reported _ Hready Hedge Hr) as [[Hev Hch]|[Hev Hch]].
      * left. split; [exact Hev|]. destruct rc; [reflexivity|].
        destruct (Hrc eq_refl) as [Hno _]. congruence.
      * right. split; [exact Hev|]. destruct wc; [reflexivity|].
        destruct (Hwc eq_refl) as [Hno _]. congruence.
  - split.
    + cbn [oneshot_pending]. rewrite Hd1, Z.eqb_refl. intros Hp.
      rewrite mark_collected_event, mark_collected_oneshot_reported.
      split; [exact Hp|]. unfold w1 in *.
      rewrite updateStatus_oneshot, <- (updateStatus_event sd w), Hp. apply orb_true_r.
    + intros rc wc. cbn [edge_pending]. rewrite Hd1, Z.eqb_refl.
      destruct (has (events (event w1)) EPOLLET) eqn:Hedge; [|discriminate].
      intros Hp. inversion Hp; subst rc wc.
      rewrite mark_collected_event, mark_collected_edge_reported,
        mark_collected_readchanged, mark_collected_writechanged,
        mark_collected_readable, mark_collected_writeable.
      unfold w1 in *.
      rewrite updateStatus_edgetrigger, updateStatus_readable, updateStatus_writeable.
      rewrite updateStatus_event in Hedge |- *. rewrite Hedge, orb_true_r.
      repeat split; assumption.
Qed.

Lemma report_elsewhere k sd tr w e w' :
  descriptor w <> k ->
  watch_hist k sd tr w' -> watch_hist k sd (EvReport w e :: tr) w'.
Proof.
  intros Hne. apply (watch_hist_skip k sd [EvReport w e]). cbn.
  apply Z.eqb_neq in Hne. rewrite Hne. reflexivity.
Qed.

(** The loop of [epoll_getEvents] keeps the table and the log in line. *)
Lemma collect_loop_hist st n t :
  forall tr i,
    hist t st tr ->
    let '(t', out, _) := collect_loop st t i n in
    hist t' st (rev (map (fun de => EvReport (fst de) (snd de)) out) ++ tr) /\
    map fst t' = map fst t /\
    forall w e, In (w, e) out -> In (descriptor w) (map fst t).
Proof.
  induction t as [|[k w] t IH]; intros tr i Hh.
  - cbn. repeat split; try apply Hh. intros w e [].
  - cbn [collect_loop].
    destruct (i <? n); [|cbn; repeat split; try apply Hh; intros w0 e []].
    destruct Hh as (Hwf & Hok & Hall).
    pose proof (table_wf_tail _ _ Hwf) as Hwft.
    destruct Hwf as [Hnd Hdesc].
    pose proof (proj1 (proj1 (NoDup_cons_iff _ _) Hnd)) as Hnotin.
    pose proof (Forall_inv Hdesc) as [Hdk Hwk]. cbn [fst snd] in Hdk, Hwk.
    pose proof (Forall_inv Hall) as Hhead. cbn [fst snd] in Hhead.
    pose proof (Forall_inv_tail Hall) as Hrest.
    unfold _epollwatch_isReady. rewrite Hdk.
    set (w1 := _epollwatch_updateStatus (st k) w).
    destruct (ready_flags (wflags w1)) eqn:Hready.
    + destruct (report_allowed k (st k) tr w Hhead Hdk Hready Hok) as [Hok1 Hmark].
      fold w1 in Hok1, Hmark.
      assert (Hrest1 : Forall (fun kw => watch_hist (fst kw) (st (fst kw))
                                 (EvReport w1 (reported_event w1) :: tr) (snd kw)) t).
      { rewrite Forall_forall in Hrest |- *. intros [k' w'] Hin.
        apply report_elsewhere; [|apply (Hrest _ Hin)].
        cbn [fst]. intros Heq. apply Hnotin. change (descriptor w1) with (descriptor w) in Heq.
        rewrite Hdk in Heq. subst k'. apply (in_map fst _ _ Hin). }
      specialize (IH (EvReport w1 (reported_event w1) :: tr) (i + 1)
                    (conj Hwft (conj Hok1 Hrest1))).
      destruct (collect_loop st t (i + 1) n) as [[t'' out] i'].
      destruct IH as ((Hwf'' & Hok'' & Hall'') & Hkeys & Hout).
      cbn [map rev fst snd]. rewrite <- app_assoc. cbn [app].
      repeat split.
      * cbn [map fst]. rewrite Hkeys. exact Hnd.
      * constructor; [|apply Hwf'']. cbn [fst snd].
        rewrite mark_collected_descriptor, mark_collected_watching.
        unfold w1. rewrite updateStatus_watching. split; assumption.
      * exact Hok''.
      * constructor; [|exact Hall'']. cbn [fst snd].
        apply watch_hist_skip; [|exact Hmark].
        apply forallb_forall. intros ev Hin. apply in_rev, in_map_iff in Hin.
        destruct Hin as ([w' e'] & <- & Hin). cbn. apply negb_true_iff, Z.eqb_neq.
        intros Heq. apply Hnotin. rewrite <- Heq. eapply Hout, Hin.
      * cbn [map fst]. rewrite Hkeys. reflexivity.
      * intros w' e' [Heq|Hin].
        -- left. inversion Heq as [[Hw' He']]. symmetry. exact Hdk.
        -- right. eapply Hout, Hin.
    + specialize (IH tr i (conj Hwft (conj Hok Hrest))).
      destruct (collect_loop st t i n) as [[t'' out] i'].
      destruct IH as ((Hwf'' & Hok'' & Hall'') & Hkeys & Hout).
      repeat split.
      * cbn [map fst]. rewrite Hkeys. exact Hnd.
      * constructor; [|apply Hwf'']. cbn [fst snd].
        unfold w1. rewrite updateStatus_watching. split; assumption.
      * exact Hok''.
      * constructor; [|exact Hall'']. cbn [fst snd].
        apply watch_hist_skip; [|apply watch_hist_update; exact Hhead].
        apply forallb_forall. intros ev Hin. apply in_rev, in_map_iff in Hin.
        destruct Hin as ([w' e'] & <- & Hin). cbn. apply negb_true_iff, Z.eqb_neq.
        intros Heq. apply Hnotin. rewrite <- Heq. eapply Hout, Hin.
      * cbn [map fst]. rewrite Hkeys. reflexivity.
      * intros w' e' Hin. right. eapply Hout, Hin.
Qed.

(** ** Operations keep the table and the log in line *)

Lemma watch_hist_reset k sd d tr w e :
  e = EvMod d \/ e = EvAdd d ->
  watch_hist k sd tr w -> watch_hist k sd (e :: tr) w.
Proof.
  intros He Hh. destruct (Z.eqb_spec d k) as [->|Hne].
  - split; [intros Hp|intros rc wc Hp]; destruct He as [->| ->];
      cbn in Hp; rewrite Z.eqb_refl in Hp; discriminate.
  - apply (watch_hist_skip k sd [e]); [|exact Hh].
    apply Z.eqb_neq in Hne. destruct He as [->| ->]; cbn; rewrite Hne; reflexivity.
Qed.

Lemma watch_hist_fresh d sd tr w e :
  e = EvMod d \/ e = EvAdd d -> watch_hist d sd (e :: tr) w.
Proof.
  intros He.
  split; [intros Hp|intros rc wc Hp]; destruct He as [->| ->];
    cbn in Hp; rewrite Z.eqb_refl in Hp; discriminate.
Qed.

Lemma watch_hist_status k d old new st tr w :
  old = st d ->
  watch_hist k (st k) tr w ->
  watch_hist k (if k =? d then new else st k) (EvStatus d old new :: tr) w.
Proof.
  intros Hold Hh. destruct (Z.eqb_spec k d) as [->|Hne].
  - destruct Hh as [Hos Het]. split; [exact Hos|].
    intros rc wc. cbn [edge_pending]. rewrite Z.eqb_refl.
    destruct (edge_pending d tr) as [[rc0 wc0]|] eqn:Hp; [|discriminate].
    cbn [option_map fst snd]. intros Heq. inversion Heq; subst rc wc. clear Heq.
    destruct (Het _ _ eq_refl) as (Hm & Hr & Hrc & Hwc).
    unfold status_differs. subst old.
    repeat split; try assumption;
      match goal with H : _ || _ = false |- _ => apply orb_false_iff in H; destruct H as [H0 Hx] end;
      try (apply Hrc; exact H0); try (apply Hwc; exact H0).
    + rewrite (proj2 (Hrc H0)). apply xorb_eq. exact Hx.
    + rewrite (proj2 (Hwc H0)). apply xorb_eq. exact Hx.
  - apply (watch_hist_skip k (st k) [EvStatus d old new]); [|exact Hh].
    cbn. apply Z.eqb_neq in Hne. rewrite Z.eqb_sym, Hne. reflexivity.
Qed.

Lemma hist_neutral t st e tr : is_neutral e = true -> hist t st tr -> hist t st (e :: tr).
Proof.
  intros He. apply (hist_skip t st [e]).
  - destruct e; try discriminate; reflexivity.
  - intros d. destruct e; try discriminate; reflexivity.
Qed.

Lemma control_hist (s s' : Sim) operation d ev r :
  hist_sim s -> epoll_control s operation d ev = Some (s', r) -> hist_sim s'.
Proof.
  intros Hh. pose proof Hh as (Hwf & Hok & Hall).
  control_cases s operation d ev; intros Hc; inversion Hc; subst; clear Hc;
    try exact Hh;
    try match goal with
        | |- hist_sim (log _ (EvDel _)) =>
            unfold hist_sim; cbn; apply hist_neutral; [reflexivity|];
            split; [|split; [exact Hok|]];
            [now apply table_remove_wf | now apply table_remove_Forall]
        end.
  - (* ADD *)
    apply check_hist. unfold hist_sim. cbn.
    split; [|split; [exact Hok|]].
    + apply table_replace_wf; [exact Hwf|reflexivity|reflexivity].
    + apply table_replace_Forall.
      * eapply Forall_impl; [|exact Hall]. intros kw.
        apply watch_hist_reset with (d := d). auto.
      * apply watch_hist_fresh. auto.
  - (* MOD *)
    apply check_hist. unfold hist_sim. cbn.
    split; [|split; [exact Hok|]].
    + destruct Hwf as [Hnd Hdesc]. rewrite Forall_forall in Hdesc.
      destruct (Hdesc _ (table_lookup_in _ _ _ Hlook)) as [Hd0 Hw0].
      apply table_replace_wf; [split; [exact Hnd|now apply Forall_forall]|exact Hd0|].
      cbn [wflags with_wflags with_event].
      change 1024 with (Z.shiftl 1 10). change 4096 with (Z.shiftl 1 12).
      unfold EWF_WATCHING in *.
      rewrite !has_clear_flag by lia. cbn [Z.eqb Pos.eqb negb].
      rewrite !andb_true_r. exact Hw0.
    + apply table_replace_Forall.
      * eapply Forall_impl; [|exact Hall]. intros kw.
        apply watch_hist_reset with (d := d). auto.
      * apply watch_hist_fresh. auto.
Qed.

Lemma getEvents_hist (s s' : Sim) n c :
  hist_sim s -> epoll_getEvents s n = Some (s', c) -> hist_sim s'.
Proof.
  intros Hh Hget.
  destruct (Z.ltb_spec n 0) as [Hneg|Hpos].
  { rewrite getEvents_negative in Hget by assumption. discriminate. }
  pose proof (getEvents_steps s n Hpos (getEvents_returned _ _ _ _ Hget)) as Hsteps.
  pose proof (collect_loop_hist (status s) n (watching (epoll s)) (trace s) 0 Hh) as Hloop.
  destruct (collect_loop (status s) (watching (epoll s)) 0 n) as [[t out] i].
  destruct Hsteps as (s2 & c2 & tos & Hget2 & _ & _ & Hep & Hst & _ & _ & _ & Htr & Hos).
  destruct Hloop as (Hloop & _ & _).
  rewrite Hget2 in Hget. inversion Hget; subst s' c. clear Hget.
  apply check_hist. unfold hist_sim. rewrite Hep, Hst, Htr. cbn [epoll set_watching set_epoll watching].
  apply hist_skip; [| |exact Hloop].
  - apply forallb_forall. intros e Hin. rewrite forallb_forall in Hos.
    specialize (Hos e Hin). destruct e; try discriminate; reflexivity.
  - intros d. apply forallb_forall. intros e Hin. rewrite forallb_forall in Hos.
    specialize (Hos e Hin). destruct e; try discriminate; reflexivity.
Qed.

Lemma close_hist (s : Sim) : hist_sim s -> hist_sim (_epoll_close s).
Proof. intros Hh. unfold hist_sim. cbn. now apply hist_neutral. Qed.

Lemma tryToClose_hist (s : Sim) : hist_sim s -> hist_sim (_epoll_tryToClose s).
Proof.
  intros Hh. unfold _epoll_tryToClose.
  assert (H1 : hist_sim (set_flags (log s EvCloseCall)
                           (set_flag (flags (epoll (log s EvCloseCall))) EF_CLOSED))).
  { unfold hist_sim. cbn. now apply hist_neutral. }
  destruct (negb _); [apply close_hist|]; exact H1.
Qed.

Lemma app_step_hist (s s' : Sim) (a : AppOp) :
  hist_sim s -> app_step s a = Some s' -> hist_sim s'.
Proof.
  intros Hh. destruct a as [operation d ev|n| |d new|w]; cbn [app_step].
  - destruct (epoll_control s operation d ev) as [[s1 r]|] eqn:Hc; [|discriminate].
    cbn. intros Heq. inversion Heq; subst. eapply control_hist; eassumption.
  - destruct (epoll_getEvents s n) as [[s1 c]|] eqn:Hg; [|discriminate].
    cbn. intros Heq. inversion Heq; subst. eapply getEvents_hist; eassumption.
  - intros Heq. inversion Heq; subst. now apply tryToClose_hist.
  - set (s1 := log (set_status s (fun x => if x =? d then new else status s x))
                 (EvStatus d (status s d) new)).
    assert (H1 : hist_sim s1).
    { destruct Hh as (Hwf & Hok & Hall). unfold hist_sim, s1. cbn.
      split; [exact Hwf|split; [exact Hok|]].
      eapply Forall_impl; [|exact Hall]. intros kw. cbn beta.
      apply watch_hist_status. reflexivity. }
    destruct (existsb (Z.eqb d) (listeners s1)).
    + unfold epoll_descriptorStatusChanged.
      destruct (table_lookup d (watching (epoll s1))) as [w|]; [|discriminate].
      destruct (descriptor w =? d); [|discriminate].
      intros Heq. inversion Heq; subst. now apply check_hist.
    + intros Heq. inversion Heq; subst. exact H1.
  - intros Heq. inversion Heq; subst. exact Hh.
Qed.

Lemma process_continue_hist (continuation : list AppOp) :
  forall s s', hist_sim s -> process_continue s continuation = Some s' -> hist_sim s'.
Proof.
  induction continuation as [|a rest IH]; intros s s' Hh; cbn.
  - intros Heq. inversion Heq; subst. exact Hh.
  - destruct (app_step s a) as [s1|] eqn:Hstep; [|discriminate].
    apply IH. eapply app_step_hist; eassumption.
Qed.

Lemma getChildrenStatus_hist (s : Sim) : hist_sim s -> hist_sim (_epoll_getChildrenStatus s).
Proof.
  intros Hh. unfold hist_sim, _epoll_getChildrenStatus. cbn.
  eapply hist_swept; [apply notify_loop_swept|exact Hh].
Qed.

Lemma isReadyOS_hist (s : Sim) : hist_sim s -> hist_sim (fst (_epoll_isReadyOS s)).
Proof.
  intros Hh. pose proof (isReadyOS_frame s) as (He & Hst & _ & _ & _ & t & Ht & Hck & _).
  unfold hist_sim. rewrite He, Hst, Ht.
  destruct (check_events_skip _ Hck). now apply hist_skip.
Qed.

Lemma tryNotify_hist (s s' : Sim) (continuation : list AppOp) :
  hist_sim s -> _epoll_tryNotify s continuation = Some s' -> hist_sim s'.
Proof.
  intros Hh. unfold _epoll_tryNotify.
  set (s0 := set_flags (log s EvTaskRun) _).
  assert (H0 : hist_sim s0) by (unfold hist_sim; cbn; now apply hist_neutral).
  destruct (_ || _).
  { intros Heq. inversion Heq; subst. now apply close_hist. }
  pose proof (notify_loop_swept (status s0) (watching (epoll s0))) as Hsw.
  destruct (notify_loop (status s0) (watching (epoll s0))) as [t r]. cbn [fst] in Hsw.
  assert (H1 : hist_sim (set_watching s0 t)).
  { unfold hist_sim. cbn. eapply hist_swept; [exact Hsw|exact H0]. }
  assert (H2 : forall s2 r2,
             (if negb r then _epoll_isReadyOS (set_watching s0 t)
              else (set_watching s0 t, r)) = (s2, r2) -> hist_sim s2).
  { intros s2 r2. destruct (negb r).
    - intros Heq. pose proof (isReadyOS_hist _ H1) as H. rewrite Heq in H. exact H.
    - intros Heq. inversion Heq; subst. exact H1. }
  destruct (if negb r then _ else _) as [s2 r2]. specialize (H2 _ _ eq_refl).
  destruct r2; [|intros Heq; inversion Heq; subst; exact H2].
  destruct (wantsNotify (world s2)); [|discriminate].
  set (s3 := if DEBUG then _epoll_getChildrenStatus s2 else s2).
  assert (H3 : hist_sim s3) by (unfold s3; destruct DEBUG; [apply getChildrenStatus_hist|]; exact H2).
  destruct (process_continue _ continuation) as [s4|] eqn:Hcont; [|discriminate].
  assert (H4 : hist_sim s4).
  { eapply process_continue_hist; [|exact Hcont]. unfold hist_sim. cbn.
    now apply hist_neutral. }
  intros Heq. inversion Heq; subst. apply check_hist.
  set (s5 := set_flags (log s4 EvReturn) _).
  assert (H5 : hist_sim s5) by (unfold hist_sim; cbn; now apply hist_neutral).
  destruct DEBUG; [apply getChildrenStatus_hist|]; exact H5.
Qed.

Lemma run_hist (ops : list SimOp) :
  forall s s', hist_sim s -> run s ops = Some s' -> hist_sim s'.
Proof.
  induction ops as [|o rest IH]; intros s s' Hh; cbn.
  - intros Heq. inversion Heq; subst. exact Hh.
  - destruct (sim_step s o) as [s1|] eqn:Hstep; [|discriminate].
    apply IH. destruct o as [a|continuation]; cbn in Hstep.
    + eapply app_step_hist; eassumption.
    + destruct (tasks s) as [|n] eqn:Ht.
      * inversion Hstep; subst. exact Hh.
      * eapply tryNotify_hist; [|exact Hstep]. exact Hh.
Qed.

(** ** Reading the claims off the log *)

Lemma hist_initial (s : Sim) :
  table_wf (watching (epoll s)) -> trace s = [] -> hist_sim s.
Proof.
  intros Hwf Htr. unfold hist_sim. rewrite Htr. split; [exact Hwf|split; [exact I|]].
  apply Forall_forall. intros kw _. split; [|intros rc wc]; cbn; discriminate.
Qed.

Lemma reports_ok_suffix t tr : reports_ok (t ++ tr) -> reports_ok tr.
Proof.
  induction t as [|e t IH]; [auto|]. cbn [app]. intros H. apply IH.
  destruct e; cbn in H; tauto.
Qed.

Lemma is_mod_In d t : existsb (is_mod d) t = true -> In (EvMod d) t.
Proof.
  intros H. apply existsb_exists in H. destruct H as (e & Hin & He).
  destruct e; try discriminate. cbn in He. apply Z.eqb_eq in He. now subst.
Qed.

Lemma is_add_not_In d t : ~ In (EvAdd d) t -> existsb (is_add d) t = false.
Proof.
  intros H. apply not_true_iff_false. intros Hex. apply H.
  apply existsb_exists in Hex. destruct Hex as (e & Hin & He).
  destruct e; try discriminate. cbn in He. apply Z.eqb_eq in He. now subst.
Qed.

Lemma is_mod_not_In d t : ~ In (EvMod d) t -> existsb (is_mod d) t = false.
Proof.
  intros H. apply not_true_iff_false. intros Hex. apply H. now apply is_mod_In.
Qed.

Lemma oneshot_pending_between d w1 e1 t0 t1 :
  reports_ok (t1 ++ EvReport w1 e1 :: t0) ->
  descriptor w1 = d -> has (events (event w1)) EPOLLONESHOT = true ->
  existsb (is_mod d) t1 = false -> existsb (is_add d) t1 = false ->
  oneshot_pending d (t1 ++ EvReport w1 e1 :: t0) = true.
Proof.
  intros Hok Hd Hos. induction t1 as [|e t1 IH]; intros Hmod Hadd.
  - cbn. rewrite Hd, Z.eqb_refl. exact Hos.
  - cbn [existsb] in Hmod, Hadd. apply orb_false_iff in Hmod, Hadd.
    destruct Hmod as [Hm Hmod], Hadd as [Ha Hadd].
    assert (Hok' : reports_ok (t1 ++ EvReport w1 e1 :: t0))
      by (apply (reports_ok_suffix [e]); exact Hok).
    specialize (IH Hok' Hmod Hadd).
    destruct e; cbn in *; rewrite ?Hm, ?Ha; try exact IH.
    destruct (Z.eqb_spec (descriptor watch) d) as [Heq|Hne]; [|exact IH].
    destruct Hok as [Hno _]. rewrite Heq in Hno. congruence.
Qed.

(** C3.  Take any run of operations from a state with a well-formed table
    and an empty log.  If the log shows a report of the watch of [d] made
    while it was subscribed one-shot, and later another report of [d], and
    [d] was not registered anew in between (so it is the same watch), then
    a MOD of [d] succeeded between the two reports. *)
Theorem oneshot_not_reported_again_without_mod
    (s s' : Sim) (ops : list SimOp) (d : Z) (w1 w2 : EpollWatch)
    (e1 e2 : epoll_event) (t0 t1 t2 : list Event) :
  table_wf (watching (epoll s)) -> trace s = [] ->
  run s ops = Some s' ->
  trace s' = t2 ++ EvReport w2 e2 :: t1 ++ EvReport w1 e1 :: t0 ->
  descriptor w1 = d -> descriptor w2 = d ->
  has (events (event w1)) EPOLLONESHOT = true ->
  ~ In (EvAdd d) t1 ->
  In (EvMod d) t1.
Proof.
  intros Hwf Htr Hrun Hlog Hd1 Hd2 Hos Hadd.
  pose proof (run_hist ops s s' (hist_initial s Hwf Htr) Hrun) as (_ & Hok & _).
  rewrite Hlog in Hok. apply reports_ok_suffix in Hok.
  destruct (existsb (is_mod d) t1) eqn:Hmod; [now apply is_mod_In|].
  exfalso. pose proof Hok as [Hno _]. rewrite Hd2 in Hno.
  apply (reports_ok_suffix [EvReport w2 e2]) in Hok.
  rewrite (oneshot_pending_between d w1 e1 t0 t1 Hok Hd1 Hos Hmod
             (is_add_not_In _ _ Hadd)) in Hno.
  discriminate.
Qed.

Lemma edge_pending_between d w1 e1 t0 t1 :
  descriptor w1 = d -> has (events (event w1)) EPOLLET = true ->
  existsb (is_mod d) t1 = false -> existsb (is_add d) t1 = false ->
  existsb (is_report_of d) t1 = false ->
  exists rc wc,
    edge_pending d (t1 ++ EvReport w1 e1 :: t0) = Some (rc, wc) /\
    (rc = true -> status_changed DS_READABLE d t1) /\
    (wc = true -> status_changed DS_WRITABLE d t1).
Proof.
  intros Hd Het. induction t1 as [|e t1 IH]; intros Hmod Hadd Hrep.
  - exists false, false. cbn [app edge_pending]. rewrite Hd, Z.eqb_refl, Het.
    repeat split; discriminate.
  - cbn [existsb] in Hmod, Hadd, Hrep. apply orb_false_iff in Hmod, Hadd, Hrep.
    destruct Hmod as [Hm Hmod], Hadd as [Ha Hadd], Hrep as [Hr Hrep].
    destruct (IH Hmod Hadd Hrep) as (rc & wc & Hp & Hrc & Hwc).
    assert (Hmono : forall mask, status_changed mask d t1 -> status_changed mask d (e :: t1)).
    { intros mask (old & new & Hin & Hne). exists old, new. split; [now right|exact Hne]. }
    destruct e; cbn in *; rewrite ?Hm, ?Ha, ?Hr;
      try (exists rc, wc; repeat split; auto; fail).
    destruct (Z.eqb_spec d0 d) as [->|Hne]; [|exists rc, wc; repeat split; auto].
    rewrite Hp. cbn [option_map fst snd].
    eexists; eexists; split; [reflexivity|]. unfold status_differs.
    split; intros Hc; apply orb_true_iff in Hc; destruct Hc as [Hc|Hc]; auto;
      exists old, new; (split; [now left|]); intros Heq; rewrite Heq, xorb_nilpotent in Hc;
      discriminate.
Qed.

(** C2.  Take any run of operations from a state with a well-formed table
    and an empty log.  If the log shows two successive reports of the watch
    of [d], the first made while it was subscribed edge-triggered, with
    neither a MOD of [d] nor a new registration of [d] in between (so it is
    the same watch with the same subscription), then the second event
    carries a direction whose status bit changed between the two reports:
    [EPOLLIN] with a change of the readable bit of [d], or [EPOLLOUT] with
    a change of its writable bit. *)
Theorem edge_reported_again_only_on_change
    (s s' : Sim) (ops : list SimOp) (d : Z) (w1 w2 : EpollWatch)
    (e1 e2 : epoll_event) (t0 t1 t2 : list Event) :
  table_wf (watching (epoll s)) -> trace s = [] ->
  run s ops = Some s' ->
  trace s' = t2 ++ EvReport w2 e2 :: t1 ++ EvReport w1 e1 :: t0 ->
  descriptor w1 = d -> descriptor w2 = d ->
  has (events (event w1)) EPOLLET = true ->
  existsb (is_report_of d) t1 = false ->
  ~ In (EvMod d) t1 -> ~ In (EvAdd d) t1 ->
  (has (events e2) EPOLLIN = true /\ status_changed DS_READABLE d t1) \/
  (has (events e2) EPOLLOUT = true /\ status_changed DS_WRITABLE d t1).
Proof.
  intros Hwf Htr Hrun Hlog Hd1 Hd2 Het Hrep Hmod Hadd.
  pose proof (run_hist ops s s' (hist_initial s Hwf Htr) Hrun) as (_ & Hok & _).
  rewrite Hlog in Hok. apply reports_ok_suffix in Hok.
  destruct Hok as (_ & Hedge & _). rewrite Hd2 in Hedge.
  destruct (edge_pending_between d w1 e1 t0 t1 Hd1 Het (is_mod_not_In _ _ Hmod)
              (is_add_not_In _ _ Hadd) Hrep) as (rc & wc & Hp & Hrc & Hwc).
  destruct (Hedge rc wc Hp) as [[Hin Hc]|[Hout Hc]]; [left|right]; auto.
Qed.

(** ** The flags of the epoll *)

Ltac epoll_flags :=
  unfold sched_wf in *;
  unfold EF_SCHEDULED, EF_NOTIFYING, EF_CLOSED in *;
  repeat first [ rewrite has_set_flag by lia | rewrite has_clear_flag by lia ];
  cbn [Z.eqb Pos.eqb negb];
  rewrite ?orb_false_r, ?orb_true_r, ?andb_true_r, ?andb_false_r.

Lemma check_skips (s : Sim) :
  has (flags (epoll s)) EF_NOTIFYING = true \/ has (flags (epoll s)) EF_CLOSED = true ->
  _epoll_check s = s.
Proof.
  intros H. unfold _epoll_check.
  destruct H as [-> | ->]; rewrite ?orb_true_r; reflexivity.
Qed.

(** What [_epoll_check] does to the flags and to the queue: nothing, or it
    queues a task and sets [EF_SCHEDULED], which it does only when neither
    [EF_SCHEDULED] nor [EF_CLOSED] nor [EF_NOTIFYING] is set. *)
Lemma check_sched (s : Sim) :
  let s' := _epoll_check s in
  (flags (epoll s') = flags (epoll s) /\ tasks s' = tasks s /\
   exists t, trace s' = t ++ trace s /\ forallb is_os_call t = true) \/
  (has (flags (epoll s)) EF_SCHEDULED = false /\
   has (flags (epoll s)) EF_CLOSED = false /\
   has (flags (epoll s)) EF_NOTIFYING = false /\
   flags (epoll s') = set_flag (flags (epoll s)) EF_SCHEDULED /\
   tasks s' = S (tasks s) /\
   exists t, trace s' = EvSchedule :: t ++ trace s /\ forallb is_os_call t = true).
Proof.
  unfold _epoll_check.
  destruct (has (flags (epoll s)) EF_CLOSED) eqn:Hc; cbn [orb].
  { left. repeat split. exists []. split; reflexivity. }
  destruct (has (flags (epoll s)) EF_NOTIFYING) eqn:Hn; cbn [orb].
  { left. repeat split. exists []. split; reflexivity. }
  destruct (check_loop (status s) (watching (epoll s))) as [t r].
  assert (Hfin : forall s1 tr,
             flags (epoll s1) = flags (epoll s) -> tasks s1 = tasks s ->
             trace s1 = tr ++ trace s -> forallb is_os_call tr = true ->
             let s' := (let s2 := adjust_super s1 DS_READABLE true in
                        if negb (has (flags (epoll s2)) EF_SCHEDULED) && wantsNotify (world s2)
                        then if scheduleOk (world s2)
                             then let s3 := set_tasks (log s2 EvSchedule) (S (tasks s2)) in
                                  set_flags s3 (set_flag (flags (epoll s3)) EF_SCHEDULED)
                             else s2
                        else s2) in
             (flags (epoll s') = flags (epoll s) /\ tasks s' = tasks s /\
              exists t, trace s' = t ++ trace s /\ forallb is_os_call t = true) \/
             (has (flags (epoll s)) EF_SCHEDULED = false /\
              false = false /\ false = false /\
              flags (epoll s') = set_flag (flags (epoll s)) EF_SCHEDULED /\
              tasks s' = S (tasks s) /\
              exists t, trace s' = EvSchedule :: t ++ trace s /\ forallb is_os_call t = true)).
  { intros s1 tr Hf Ht Htr Hos. cbv zeta. cbn [adjust_super set_superStatus set_epoll epoll flags world].
    rewrite Hf.
    destruct (has (flags (epoll s)) EF_SCHEDULED) eqn:Hs; cbn [negb andb].
    - left. cbn. rewrite Hf, Ht, Htr. repeat split. exists tr. split; auto.
    - destruct (wantsNotify (world s1)); [destruct (scheduleOk (world s1))|].
      + right. cbn. rewrite Hf, Ht, Htr. repeat split. exists tr. split; auto.
      + left. cbn. rewrite Hf, Ht, Htr. repeat split. exists tr. split; auto.
      + left. cbn. rewrite Hf, Ht, Htr. repeat split. exists tr. split; auto. }
  destruct r; cbn [negb].
  - apply (Hfin (set_watching s t) []); reflexivity.
  - pose proof (isReadyOS_frame (set_watching s t)) as Hos.
    destruct (_epoll_isReadyOS (set_watching s t)) as [s1 r1]. cbn [fst] in Hos.
    destruct Hos as (He & _ & _ & _ & Ht & tr & Htr & _ & Hos).
    destruct r1.
    + apply (Hfin s1 tr); [rewrite He; reflexivity|exact Ht|exact Htr|exact Hos].
    + left. cbn. rewrite He, Ht, Htr. repeat split. exists tr. split; auto.
Qed.

(** ** The shape of the operations *)

Lemma plain_step_refl s : plain_step s s.
Proof. repeat split. exists []. split; reflexivity. Qed.

Lemma os_calls_plain t : forallb is_os_call t = true -> forallb is_plain t = true.
Proof.
  intros H. apply forallb_forall. intros e Hin. rewrite forallb_forall in H.
  specialize (H e Hin). destruct e; try discriminate; reflexivity.
Qed.

Lemma isReadyOS_plain s : plain_step s (fst (_epoll_isReadyOS s)).
Proof.
  pose proof (isReadyOS_frame s) as (He & _ & _ & _ & Ht & t & Htr & _ & Hos).
  repeat split; [now rewrite He|exact Ht|]. exists t. split; [exact Htr|].
  now apply os_calls_plain.
Qed.

(** Every operation of the process is a call of [_epoll_tryToClose], or a
    plain step, possibly followed by [_epoll_check]. *)
Lemma app_step_shape (s s' : Sim) (a : AppOp) :
  app_step s a = Some s' ->
  s' = _epoll_tryToClose s \/
  exists s1, plain_step s s1 /\ (s' = s1 \/ s' = _epoll_check s1).
Proof.
  destruct a as [operation d ev|n| |d new|w]; cbn [app_step].
  - destruct (epoll_control s operation d ev) as [[s1 r]|] eqn:Hc; [|discriminate].
    cbn. intros Heq. inversion Heq; subst s1. clear Heq. right. revert Hc.
    control_cases s operation d ev; intros Hc; inversion Hc; subst; clear Hc;
      match goal with
      | |- exists s1, _ /\ (_epoll_check ?x = s1 \/ _) =>
          exists x; split; [|right; reflexivity]
      | |- exists s1, _ /\ (?x = s1 \/ _) =>
          exists x; split; [|left; reflexivity]
      end;
      first [ apply plain_step_refl
            | repeat split; eexists [_]; split; reflexivity ].
  - destruct (Z.ltb_spec n 0) as [Hneg|Hpos].
    { rewrite getEvents_negative by assumption. discriminate. }
    destruct (epoll_getEvents s n) as [[s0 c0]|] eqn:Hget0; [|discriminate].
    pose proof (getEvents_steps s n Hpos (getEvents_returned _ _ _ _ Hget0)) as Hsteps.
    destruct (collect_loop (status s) (watching (epoll s)) 0 n) as [[t out] i].
    destruct Hsteps as (s2 & c2 & tos & Hget & _ & _ & Hep & _ & _ & _ & Hta & Htr & Hos).
    rewrite Hget0 in Hget. inversion Hget; subst s0 c0. clear Hget. cbn. intros Heq. inversion Heq; subst s'. clear Heq.
    right. exists s2. split; [|now right].
    repeat split; [rewrite Hep; reflexivity|exact Hta|].
    eexists. split; [rewrite Htr, app_assoc; reflexivity|].
    rewrite forallb_app, (os_calls_plain _ Hos). cbn.
    apply forallb_forall. intros e Hin. apply in_rev, in_map_iff in Hin.
    destruct Hin as (x & <- & _). reflexivity.
  - intros Heq. inversion Heq. now left.
  - set (s1 := log (set_status s (fun x => if x =? d then new else status s x))
                 (EvStatus d (status s d) new)).
    assert (H1 : plain_step s s1)
      by (repeat split; exists [EvStatus d (status s d) new]; split; reflexivity).
    right. exists s1. split; [exact H1|].
    destruct (existsb (Z.eqb d) (listeners s1)).
    + unfold epoll_descriptorStatusChanged in H.
      destruct (table_lookup d (watching (epoll s1))) as [w|]; [|discriminate].
      destruct (descriptor w =? d); [|discriminate].
      inversion H. now right.
    + inversion H. now left.
  - intros Heq. inversion Heq. right. exists (set_world s w).
    split; [|now left]. repeat split. exists []. split; reflexivity.
Qed.

Lemma in_continuation_skip t tr :
  forallb (fun e => negb (is_task_event e)) t = true ->
  in_continuation (t ++ tr) = in_continuation tr.
Proof.
  induction t as [|e t IH]; [reflexivity|]. cbn [forallb app].
  rewrite andb_true_iff. intros [He Ht]. destruct e; try discriminate; cbn; auto.
Qed.

(** What the process does logs no event of a notify task. *)
Lemma app_step_trace (s s' : Sim) (a : AppOp) :
  app_step s a = Some s' ->
  exists t, trace s' = t ++ trace s /\
            forallb (fun e => negb (is_task_event e)) t = true.
Proof.
  intros Hstep.
  assert (Hplain : forall t, forallb is_plain t = true ->
                             forallb (fun e => negb (is_task_event e)) t = true).
  { intros t H. apply forallb_forall. intros e Hin. rewrite forallb_forall in H.
    specialize (H e Hin). destruct e; try discriminate; reflexivity. }
  assert (Hcheck : forall t, forallb is_check_event t = true ->
                             forallb (fun e => negb (is_task_event e)) t = true).
  { intros t H. apply forallb_forall. intros e Hin. rewrite forallb_forall in H.
    specialize (H e Hin). destruct e; try discriminate; reflexivity. }
  destruct (app_step_shape _ _ _ Hstep) as [->|(s1 & (_ & _ & t & Htr & Hp) & [->| ->])].
  - unfold _epoll_tryToClose. destruct (negb _).
    + exists [EvFinalize; EvCloseCall]. split; reflexivity.
    + exists [EvCloseCall]. split; reflexivity.
  - exists t. split; [exact Htr|now apply Hplain].
  - pose proof (check_frame s1) as (_ & _ & _ & _ & _ & tc & Htc & Hck).
    exists (tc ++ t). split; [rewrite Htc, Htr, app_assoc; reflexivity|].
    rewrite forallb_app, (Hcheck _ Hck), (Hplain _ Hp). reflexivity.
Qed.

Lemma process_continue_in_continuation (continuation : list AppOp) :
  forall s s',
    in_continuation (trace s) = true ->
    process_continue s continuation = Some s' ->
    in_continuation (trace s') = true.
Proof.
  induction continuation as [|a rest IH]; intros s s' Hin; cbn.
  - intros Heq. inversion Heq; subst. exact Hin.
  - destruct (app_step s a) as [s1|] eqn:Hstep; [|discriminate].
    apply IH. destruct (app_step_trace _ _ _ Hstep) as (t & -> & Ht).
    rewrite in_continuation_skip by assumption. exact Hin.
Qed.

(** A property of the state that the building blocks keep is kept by
    every run. *)
Section Invariant.

Variable P : Sim -> Prop.

Hypothesis P_plain : forall s s', plain_step s s' -> P s -> P s'.
Hypothesis P_check : forall s, P s -> P (_epoll_check s).
Hypothesis P_tryToClose : forall s, P s -> P (_epoll_tryToClose s).
Hypothesis P_entry_close :
  forall s n, tasks s = S n -> P s ->
              has (flags (epoll (task_entry s n))) EF_CLOSED = true
              \/ isRunning (world s) = false ->
              P (_epoll_close (task_entry s n)).
Hypothesis P_entry :
  forall s n, tasks s = S n -> P s ->
              has (flags (epoll (task_entry s n))) EF_CLOSED = false ->
              P (task_entry s n).
Hypothesis P_enter :
  forall s, P s ->
            has (flags (epoll s)) EF_SCHEDULED = false ->
            has (flags (epoll s)) EF_CLOSED = false ->
            P (enter_continuation s).
Hypothesis P_leave :
  forall s, P s -> in_continuation (trace s) = true -> P (leave_continuation s).

Lemma app_step_invariant s s' a : P s -> app_step s a = Some s' -> P s'.
Proof.
  intros HP Hstep. destruct (app_step_shape _ _ _ Hstep) as [->|(s1 & Hpl & [->| ->])];
    eauto.
Qed.

Lemma process_continue_invariant continuation :
  forall s s', P s -> process_continue s continuation = Some s' -> P s'.
Proof.
  induction continuation as [|a rest IH]; intros s s' HP; cbn.
  - intros Heq. inversion Heq; subst. exact HP.
  - destruct (app_step s a) as [s1|] eqn:Hstep; [|discriminate].
    apply IH. eapply app_step_invariant; eassumption.
Qed.

Lemma getChildrenStatus_plain s : plain_step s (_epoll_getChildrenStatus s).
Proof. repeat split. exists []. split; reflexivity. Qed.

Lemma tryNotify_invariant s n s' continuation :
  tasks s = S n -> P s ->
  _epoll_tryNotify (set_tasks s n) continuation = Some s' -> P s'.
Proof.
  intros Ht HP. unfold _epoll_tryNotify.
  change (set_flags (log (set_tasks s n) EvTaskRun)
            (clear_flag (flags (epoll (log (set_tasks s n) EvTaskRun))) EF_SCHEDULED))
    with (task_entry s n).
  set (s0 := task_entry s n).
  destruct (has (flags (epoll s0)) EF_CLOSED) eqn:Hclosed; cbn [orb].
  { intros Heq. inversion Heq. apply P_entry_close; auto. }
  destruct (isRunning (world s0)) eqn:Hrun; cbn [negb].
  2: { intros Heq. inversion Heq. apply P_entry_close; auto. }
  assert (Hs0 : has (flags (epoll s0)) EF_SCHEDULED = false).
  { unfold s0, task_entry. cbn [epoll flags log set_flags set_epoll set_tasks].
    unfold EF_SCHEDULED. rewrite has_clear_flag by lia. apply andb_false_r. }
  (* up to the call of the process: plain steps, the flags stay *)
  set (PF := fun x => P x /\ flags (epoll x) = flags (epoll s0)).
  assert (HPF : forall x y, plain_step x y -> PF x -> PF y).
  { intros x y Hpl [Hx Hfx]. split; [eapply P_plain; eassumption|].
    destruct Hpl as (Hf & _). congruence. }
  assert (H0 : PF s0) by (split; [apply P_entry; assumption|reflexivity]).
  destruct (notify_loop (status s0) (watching (epoll s0))) as [t r].
  assert (H1 : PF (set_watching s0 t)).
  { apply (HPF s0); [|exact H0]. repeat split. exists []. split; reflexivity. }
  assert (H2 : forall s2 r2,
             (if negb r then _epoll_isReadyOS (set_watching s0 t)
              else (set_watching s0 t, r)) = (s2, r2) -> PF s2).
  { intros s2 r2. destruct (negb r).
    - intros Heq. apply (HPF (set_watching s0 t)); [|exact H1].
      pose proof (isReadyOS_plain (set_watching s0 t)) as Hpl. rewrite Heq in Hpl. exact Hpl.
    - intros Heq. inversion Heq; subst. exact H1. }
  destruct (if negb r then _ else _) as [s2 r2]. specialize (H2 _ _ eq_refl).
  destruct r2; [|intros Heq; inversion Heq; subst; apply H2].
  destruct (wantsNotify (world s2)); [|discriminate].
  set (s3 := if DEBUG then _epoll_getChildrenStatus s2 else s2).
  assert (H3 : PF s3).
  { unfold s3. destruct DEBUG; [|exact H2].
    apply (HPF s2); [apply getChildrenStatus_plain|exact H2]. }
  change (log (set_flags s3 (set_flag (flags (epoll s3)) EF_NOTIFYING)) EvContinue)
    with (enter_continuation s3).
  destruct (process_continue (enter_continuation s3) continuation) as [s4|] eqn:Hcont;
    [|discriminate].
  assert (H4 : P s4).
  { eapply process_continue_invariant; [|exact Hcont].
    destruct H3 as [H3 Hf3]. apply P_enter; [exact H3| |]; rewrite Hf3; assumption. }
  assert (Hin4 : in_continuation (trace s4) = true)
    by (apply (process_continue_in_continuation continuation (enter_continuation s3));
        [reflexivity|exact Hcont]).
  intros Heq. inversion Heq; subst. apply P_check.
  change (set_flags (log s4 EvReturn) (clear_flag (flags (epoll (log s4 EvReturn))) EF_NOTIFYING))
    with (leave_continuation s4).
  destruct DEBUG; [apply (P_plain (leave_continuation s4));
                   [apply getChildrenStatus_plain|]|]; apply P_leave; assumption.
Qed.

Lemma run_invariant ops : forall s s', P s -> run s ops = Some s' -> P s'.
Proof.
  induction ops as [|o rest IH]; intros s s' HP; cbn.
  - intros Heq. inversion Heq; subst. exact HP.
  - destruct (sim_step s o) as [s1|] eqn:Hstep; [|discriminate].
    apply IH. destruct o as [a|continuation]; cbn in Hstep.
    + eapply app_step_invariant; eassumption.
    + destruct (tasks s) as [|n] eqn:Ht.
      * inversion Hstep; subst. exact HP.
      * eapply tryNotify_invariant; eassumption.
Qed.

End Invariant.

(** ** No scheduling while the process runs *)

Lemma in_continuation_plain t tr :
  forallb is_plain t = true -> in_continuation (t ++ tr) = in_continuation tr.
Proof.
  induction t as [|e t IH]; [reflexivity|]. cbn [forallb app].
  rewrite andb_true_iff. intros [He Ht]. destruct e; try discriminate; cbn; auto.
Qed.

Lemma schedule_ok_plain t tr :
  forallb is_plain t = true -> schedule_ok tr -> schedule_ok (t ++ tr).
Proof.
  induction t as [|e t IH]; [auto|]. cbn [forallb app].
  rewrite andb_true_iff. intros [He Ht] Hok. destruct e; try discriminate; cbn; auto.
Qed.

Lemma close_ok_plain t tr :
  forallb is_plain t = true -> close_ok tr -> close_ok (t ++ tr).
Proof.
  induction t as [|e t IH]; [auto|]. cbn [forallb app].
  rewrite andb_true_iff. intros [He Ht] Hok. destruct e; try discriminate; cbn; auto.
Qed.

Lemma notify_inv_plain s s' : plain_step s s' -> notify_inv s -> notify_inv s'.
Proof.
  intros (Hf & _ & t & Htr & Hp) (Hn & Hok & Hcl). unfold notify_inv.
  rewrite Hf, Htr, in_continuation_plain by assumption.
  split; [exact Hn|split; [now apply schedule_ok_plain|now apply close_ok_plain]].
Qed.

Lemma notify_inv_check s : notify_inv s -> notify_inv (_epoll_check s).
Proof.
  intros Hinv.
  destruct (check_sched s) as [(Hf & Ht & t & Htr & Hos)
                              |(_ & _ & Hn & Hf & _ & t & Htr & Hos)].
  - apply (notify_inv_plain s); [|exact Hinv].
    repeat split; try assumption. exists t. split; [exact Htr|now apply os_calls_plain].
  - destruct Hinv as (Hin & Hok & Hcl). unfold notify_inv. rewrite Htr.
    assert (Hout : in_continuation (t ++ trace s) = false).
    { rewrite in_continuation_plain by now apply os_calls_plain.
      destruct (in_continuation (trace s)); [|reflexivity].
      destruct (Hin eq_refl) as [Hn' _]. rewrite Hn' in Hn. discriminate. }
    cbn [in_continuation schedule_ok close_ok]. rewrite Hout. split; [discriminate|].
    split; [split; [reflexivity|]|].
    + apply schedule_ok_plain; [now apply os_calls_plain|exact Hok].
    + apply close_ok_plain; [now apply os_calls_plain|exact Hcl].
Qed.

Ltac sim_simpl :=
  unfold _epoll_close, epoll_clearWatchListeners, task_entry, enter_continuation,
    leave_continuation;
  cbn [trace epoll flags tasks world status listeners watching superStatus
       log set_flags set_epoll set_tasks set_listeners set_watching set_world
       in_continuation schedule_ok close_ok finalized_since_close].

Lemma notify_inv_tryToClose s : notify_inv s -> notify_inv (_epoll_tryToClose s).
Proof.
  intros (Hin & Hok & Hcl). unfold _epoll_tryToClose, notify_inv.
  cbn [epoll flags log set_flags set_epoll]. epoll_flags.
  destruct (has (flags (epoll s)) (Z.shiftl 1 0)) eqn:Hs; cbn [negb]; sim_simpl;
    epoll_flags; rewrite ?Hs.
  - split; [intros H; destruct (Hin H); discriminate|]. split; [exact Hok|].
    split; [|exact Hcl].
    destruct (in_continuation (trace s)); [destruct (Hin eq_refl); discriminate|reflexivity].
  - split; [exact Hin|split; assumption].
Qed.

Lemma notify_inv_entry_close s n : notify_inv s -> notify_inv (_epoll_close (task_entry s n)).
Proof.
  intros (Hin & Hok & Hcl). unfold notify_inv. sim_simpl. epoll_flags.
  split; [|split; assumption].
  intros H. destruct (Hin H) as [Hn _]. split; [exact Hn|reflexivity].
Qed.

Lemma notify_inv_entry s n : notify_inv s -> notify_inv (task_entry s n).
Proof.
  intros (Hin & Hok & Hcl). unfold notify_inv. sim_simpl. epoll_flags.
  split; [|split; assumption].
  intros H. destruct (Hin H) as [Hn _]. split; [exact Hn|reflexivity].
Qed.

Lemma notify_inv_enter s :
  notify_inv s -> has (flags (epoll s)) EF_SCHEDULED = false ->
  notify_inv (enter_continuation s).
Proof.
  intros (Hin & Hok & Hcl) Hs. unfold notify_inv. sim_simpl. epoll_flags.
  split; [intros _; split; [reflexivity|exact Hs]|split; assumption].
Qed.

Lemma notify_inv_leave s : notify_inv s -> notify_inv (leave_continuation s).
Proof.
  intros (Hin & Hok & Hcl). unfold notify_inv. sim_simpl.
  split; [discriminate|split; assumption].
Qed.

Lemma run_notify_inv ops s s' : notify_inv s -> run s ops = Some s' -> notify_inv s'.
Proof.
  apply (run_invariant notify_inv).
  - exact notify_inv_plain.
  - exact notify_inv_check.
  - exact notify_inv_tryToClose.
  - intros s0 n _ H _. now apply notify_inv_entry_close.
  - intros s0 n _ H _. now apply notify_inv_entry.
  - intros s0 H Hs _. now apply notify_inv_enter.
  - intros s0 H _. now apply notify_inv_leave.
Qed.

Lemma schedule_ok_suffix t tr : schedule_ok (t ++ tr) -> schedule_ok tr.
Proof.
  induction t as [|e t IH]; [auto|]. cbn [app]. intros H. apply IH.
  destruct e; cbn in H; tauto.
Qed.

Lemma in_continuation_open tb tc :
  existsb is_return tb = false -> in_continuation (tb ++ EvContinue :: tc) = true.
Proof.
  induction tb as [|e tb IH]; [reflexivity|]. cbn [existsb app].
  intros H. apply orb_false_iff in H. destruct H as [He Hb].
  destruct e; try discriminate; cbn; auto.
Qed.

Lemma schedule_ok_between tb tc :
  schedule_ok (tb ++ EvContinue :: tc) ->
  existsb is_return tb = false -> existsb is_schedule tb = false.
Proof.
  induction tb as [|e tb IH]; [reflexivity|]. cbn [existsb app].
  intros Hok H. apply orb_false_iff in H. destruct H as [He Hb].
  assert (Hok' : schedule_ok (tb ++ EvContinue :: tc))
    by (apply (schedule_ok_suffix [e]); exact Hok).
  rewrite (IH Hok' Hb), orb_false_r.
  destruct e; try reflexivity.
  destruct Hok as [Hout _]. rewrite (in_continuation_open _ _ Hb) in Hout. discriminate.
Qed.

Lemma close_ok_followed tb :
  in_continuation tb = true ->
  forall ta, close_ok (ta ++ EvCloseCall :: tb) -> exists ta', ta = ta' ++ [EvFinalize].
Proof.
  intros Hin.
  assert (Hgen : forall n ta, (length ta <= n)%nat -> close_ok (ta ++ EvCloseCall :: tb) ->
                              exists ta', ta = ta' ++ [EvFinalize]).
  { induction n as [|n IH]; intros ta Hlen Hok.
    - destruct ta; [|cbn in Hlen; lia]. cbn in Hok. destruct Hok as [Hout _]. congruence.
    - destruct ta as [|e ta].
      { cbn in Hok. destruct Hok as [Hout _]. congruence. }
      cbn [length] in Hlen.
      assert (Hrest : close_ok (ta ++ EvCloseCall :: tb) ->
                      exists ta', e :: ta = ta' ++ [EvFinalize]).
      { intros Hok'. destruct (IH ta) as (ta' & ->); [lia|exact Hok'|].
        exists (e :: ta'). reflexivity. }
      destruct e; cbn [app close_ok] in Hok; try (apply Hrest; tauto).
      destruct ta as [|e' ta]; [exists []; reflexivity|].
      cbn [length] in Hlen.
      destruct e'; cbn [app] in Hok; try (apply Hrest; exact Hok).
      destruct (IH ta) as (ta' & ->); [lia|exact Hok|].
      exists (EvFinalize :: EvCloseCall :: ta'). reflexivity. }
  intros ta. apply (Hgen (length ta)). lia.
Qed.

(** C8, as the code has it.  When [EF_NOTIFYING] or [EF_CLOSED] is set,
    [_epoll_check] returns at once: the state is what it was, so no watch
    was looked at, the readable bit of the epoll is as before and nothing
    was scheduled.  In the log of any run, no task is queued between a call
    of the process by a notify task and its return; a close that the
    process calls in that stretch is not deferred: its finalization is the
    very next event. *)
Theorem check_skipped_while_notifying_or_closed :
  (forall s : Sim,
      has (flags (epoll s)) EF_NOTIFYING = true \/ has (flags (epoll s)) EF_CLOSED = true ->
      _epoll_check s = s) /\
  (forall (s s' : Sim) (ops : list SimOp) (ta tb tc : list Event),
      trace s = [] ->
      run s ops = Some s' ->
      trace s' = ta ++ EvReturn :: tb ++ EvContinue :: tc ->
      existsb is_return tb = false ->
      existsb is_schedule tb = false) /\
  (forall (s s' : Sim) (ops : list SimOp) (ta tb : list Event),
      trace s = [] ->
      run s ops = Some s' ->
      trace s' = ta ++ EvCloseCall :: tb ->
      in_continuation tb = true ->
      exists ta', ta = ta' ++ [EvFinalize]).
Proof.
  assert (Hinit : forall s, trace s = [] -> notify_inv s).
  { intros s Htr. unfold notify_inv. rewrite Htr.
    split; [discriminate|split; exact I]. }
  split; [exact check_skips|split].
  - intros s s' ops ta tb tc Htr Hrun Hlog Hret.
    destruct (run_notify_inv ops s s' (Hinit s Htr) Hrun) as (_ & Hok & _).
    rewrite Hlog in Hok. apply schedule_ok_suffix in Hok.
    apply (schedule_ok_suffix [EvReturn]) in Hok.
    now apply (schedule_ok_between tb tc).
  - intros s s' ops ta tb Htr Hrun Hlog Hin.
    destruct (run_notify_inv ops s s' (Hinit s Htr) Hrun) as (_ & _ & Hcl).
    rewrite Hlog in Hcl. now apply (close_ok_followed tb).
Qed.

(** ** Closing *)

Lemma count_plain t tr :
  forallb is_plain t = true -> count is_close_call (t ++ tr) = count is_close_call tr.
Proof.
  unfold count. induction t as [|e t IH]; [reflexivity|]. cbn [forallb app].
  rewrite andb_true_iff. intros [He Ht]. destruct e; try discriminate; cbn; auto.
Qed.

Lemma finalized_plain t tr :
  forallb is_plain t = true ->
  finalized_since_close (t ++ tr) = finalized_since_close tr.
Proof.
  induction t as [|e t IH]; [reflexivity|]. cbn [forallb app].
  rewrite andb_true_iff. intros [He Ht]. destruct e; try discriminate; cbn; auto.
Qed.

Lemma close_inv_plain s s' : plain_step s s' -> close_inv s -> close_inv s'.
Proof.
  intros (Hf & Ht & t & Htr & Hp) (Hs & H0 & H1). unfold close_inv, sched_wf.
  rewrite Hf, Ht, Htr, count_plain, finalized_plain by assumption.
  split; [exact Hs|split; assumption].
Qed.

Lemma close_inv_check s : close_inv s -> close_inv (_epoll_check s).
Proof.
  intros Hinv.
  destruct (check_sched s) as [(Hf & Ht & t & Htr & Hos)
                              |(Hs & Hc & _ & Hf & Ht & t & Htr & Hos)].
  - apply (close_inv_plain s); [|exact Hinv].
    repeat split; try assumption. exists t. split; [exact Htr|now apply os_calls_plain].
  - destruct Hinv as (Hwf & H0 & H1). unfold close_inv, sched_wf.
    rewrite Hf, Ht, Htr.
    change (count is_close_call (EvSchedule :: t ++ trace s))
      with (count is_close_call (t ++ trace s)).
    rewrite count_plain by now apply os_calls_plain.
    epoll_flags. rewrite Hc.
    destruct Hwf as [[Hs' _]|[_ Hz]]; [congruence|]. rewrite Hz.
    split; [left; split; reflexivity|]. split; [reflexivity|].
    intros H. destruct (H1 H) as [Hc' _]. epoll_flags. congruence.
Qed.

Lemma close_inv_tryToClose s : close_inv s -> close_inv (_epoll_tryToClose s).
Proof.
  intros (Hwf & H0 & H1). unfold _epoll_tryToClose.
  cbn [epoll flags log set_flags set_epoll]. epoll_flags.
  unfold close_inv, sched_wf.
  destruct Hwf as [[Hs Ht]|[Hs Ht]]; rewrite Hs; cbn [negb]; sim_simpl; epoll_flags;
    rewrite Hs, Ht; unfold count; cbn [filter is_close_call length].
  - split; [left; split; reflexivity|]. split; [discriminate|]. intros _. split; reflexivity.
  - split; [right; split; reflexivity|]. split; [discriminate|]. intros _. split; reflexivity.
Qed.

Lemma close_inv_entry_close s n :
  tasks s = S n -> close_inv s -> close_inv (_epoll_close (task_entry s n)).
Proof.
  intros Hn (Hwf & H0 & H1). unfold close_inv, sched_wf. sim_simpl. epoll_flags.
  destruct Hwf as [[Hs Ht]|[Hs Ht]]; [|congruence].
  assert (n = O) by congruence. subst n.
  change (count is_close_call (EvFinalize :: EvTaskRun :: trace s))
    with (count is_close_call (trace s)).
  split; [right; split; reflexivity|]. split; [exact H0|].
  intros H. destruct (H1 H) as [Hc Hfin]. split; [exact Hc|]. lia.
Qed.

Lemma close_inv_entry s n :
  tasks s = S n -> close_inv s ->
  has (flags (epoll (task_entry s n))) EF_CLOSED = false ->
  close_inv (task_entry s n).
Proof.
  intros Hn (Hwf & H0 & H1). unfold close_inv, sched_wf. sim_simpl. epoll_flags.
  intros Hc.
  destruct Hwf as [[Hs Ht]|[Hs Ht]]; [|congruence].
  assert (n = O) by congruence. subst n.
  change (count is_close_call (EvTaskRun :: trace s))
    with (count is_close_call (trace s)).
  split; [right; split; reflexivity|]. split; [exact H0|].
  intros H. destruct (H1 H) as [Hc' _]. congruence.
Qed.

Lemma close_inv_enter s : close_inv s -> close_inv (enter_continuation s).
Proof.
  intros (Hwf & H0 & H1). unfold close_inv, sched_wf. sim_simpl. epoll_flags.
  change (count is_close_call (EvContinue :: trace s))
    with (count is_close_call (trace s)).
  split; [exact Hwf|split; assumption].
Qed.

Lemma close_inv_leave s : close_inv s -> close_inv (leave_continuation s).
Proof.
  intros (Hwf & H0 & H1). unfold close_inv, sched_wf. sim_simpl. epoll_flags.
  change (count is_close_call (EvReturn :: trace s))
    with (count is_close_call (trace s)).
  split; [exact Hwf|split; assumption].
Qed.

Lemma run_close_inv ops s s' : close_inv s -> run s ops = Some s' -> close_inv s'.
Proof.
  apply (run_invariant close_inv).
  - exact close_inv_plain.
  - exact close_inv_check.
  - exact close_inv_tryToClose.
  - intros s0 n Hn H _. now apply close_inv_entry_close.
  - exact close_inv_entry.
  - intros s0 H _ _. now apply close_inv_enter.
  - intros s0 H _. now apply close_inv_leave.
Qed.

(** ** After the finalization of a close made outside a notify task *)

Lemma closed_outside_plain t tr :
  forallb is_plain t = true -> closed_outside (t ++ tr) = closed_outside tr.
Proof.
  induction t as [|e t IH]; [reflexivity|]. cbn [forallb app].
  rewrite andb_true_iff. intros [He Ht]. destruct e; try discriminate; cbn; auto.
Qed.

Lemma settled_plain t tr :
  forallb is_plain t = true -> settled (t ++ tr) = settled tr.
Proof.
  induction t as [|e t IH]; [reflexivity|]. cbn [forallb app].
  rewrite andb_true_iff. intros [He Ht]. destruct e; try discriminate; cbn; auto.
Qed.

Lemma tasks_ok_plain t tr :
  forallb is_plain t = true -> tasks_ok tr -> tasks_ok (t ++ tr).
Proof.
  induction t as [|e t IH]; [intros _ H; exact H|]. cbn [forallb app].
  rewrite andb_true_iff. intros [He Ht] H. cbn [tasks_ok].
  split; [|now apply IH]. destruct e; discriminate.
Qed.

Lemma closed_outside_app t tr :
  closed_outside tr = true -> closed_outside (t ++ tr) = true.
Proof.
  intros H. induction t as [|e t IH]; [exact H|].
  destruct e; cbn [app closed_outside]; try exact IH.
  rewrite IH. apply orb_true_r.
Qed.

Lemma settled_closed tr : settled tr = true -> closed_outside tr = true.
Proof.
  induction tr as [|e tr IH]; [discriminate|].
  destruct e; cbn [settled closed_outside]; try exact IH.
  - intros H. rewrite (IH H). apply orb_true_r.
  - intros H. apply orb_true_iff in H. destruct H as [H|H]; [exact H|now apply IH].
Qed.

Lemma settled_app t tr : settled tr = true -> settled (t ++ tr) = true.
Proof.
  intros H. induction t as [|e t IH]; [exact H|].
  destruct e; cbn [app settled]; try exact IH.
  rewrite IH. apply orb_true_r.
Qed.

Lemma tasks_ok_settled (ta tr : list Event) :
  settled tr = true -> tasks_ok (ta ++ tr) -> existsb is_task_event ta = false.
Proof.
  intros Hs. induction ta as [|e ta IH]; [reflexivity|].
  cbn [app tasks_ok existsb]. intros [He Hok].
  rewrite (IH Hok), orb_false_r.
  destruct (is_task_event e); [|reflexivity].
  rewrite (settled_app ta tr Hs) in He. discriminate (He eq_refl).
Qed.

Lemma settle_inv_plain s s' : plain_step s s' -> settle_inv s -> settle_inv s'.
Proof.
  intros (Hf & Ht & t & Htr & Hp) (Hs & Hc & Hz & Hok). unfold settle_inv, sched_wf.
  rewrite Hf, Ht, Htr, closed_outside_plain, settled_plain, in_continuation_plain
    by assumption.
  split; [exact Hs|]. split; [exact Hc|]. split; [exact Hz|now apply tasks_ok_plain].
Qed.

Lemma settle_inv_check s : settle_inv s -> settle_inv (_epoll_check s).
Proof.
  intros Hinv.
  destruct (check_sched s) as [(Hf & Ht & t & Htr & Hos)
                              |(Hs & Hc & _ & Hf & Ht & t & Htr & Hos)].
  - apply (settle_inv_plain s); [|exact Hinv].
    repeat split; try assumption. exists t. split; [exact Htr|now apply os_calls_plain].
  - destruct Hinv as (Hwf & Hco & Hz & Hok). unfold settle_inv, sched_wf.
    assert (Hno : closed_outside (trace s) = false).
    { destruct (closed_outside (trace s)); [|reflexivity].
      destruct (Hco eq_refl) as [Hc' _]. congruence. }
    assert (Hns : settled (trace s) = false).
    { destruct (settled (trace s)) eqn:E; [|reflexivity].
      apply settled_closed in E. congruence. }
    rewrite Hf, Ht, Htr.
    change (closed_outside (EvSchedule :: t ++ trace s))
      with (closed_outside (t ++ trace s)).
    change (settled (EvSchedule :: t ++ trace s)) with (settled (t ++ trace s)).
    rewrite closed_outside_plain, settled_plain by now apply os_calls_plain.
    rewrite Hno, Hns.
    destruct Hwf as [[Hs' _]|[_ Hz0]]; [congruence|]. rewrite Hz0.
    split; [left; split; [epoll_flags; reflexivity|reflexivity]|].
    split; [discriminate|]. split; [discriminate|].
    cbn [tasks_ok]. split; [discriminate|].
    apply tasks_ok_plain; [now apply os_calls_plain|exact Hok].
Qed.

Lemma settle_inv_tryToClose s : settle_inv s -> settle_inv (_epoll_tryToClose s).
Proof.
  intros (Hwf & Hco & Hz & Hok). unfold _epoll_tryToClose.
  cbn [epoll flags log set_flags set_epoll]. epoll_flags.
  unfold settle_inv, sched_wf.
  assert (Hin : negb (in_continuation (trace s)) || closed_outside (trace s) = true ->
                in_continuation (trace s) = false).
  { intros H. apply orb_true_iff in H. destruct H as [H|H].
    - now apply negb_true_iff.
    - now apply Hco. }
  destruct Hwf as [[Hs Ht]|[Hs Ht]]; rewrite Hs; cbn [negb]; sim_simpl; epoll_flags;
    rewrite Hs, Ht; cbn [closed_outside settled tasks_ok].
  - split; [left; split; reflexivity|]. split; [|split].
    + intros H. split; [reflexivity|now apply Hin].
    + intros H. rewrite (Hz H) in Ht. discriminate.
    + split; [discriminate|exact Hok].
  - split; [right; split; reflexivity|]. split; [|split].
    + intros H. split; [reflexivity|now apply Hin].
    + reflexivity.
    + split; [discriminate|]. split; [discriminate|exact Hok].
Qed.

Lemma settle_inv_entry_close s n :
  tasks s = S n -> settle_inv s -> settle_inv (_epoll_close (task_entry s n)).
Proof.
  intros Hn (Hwf & Hco & Hz & Hok). unfold settle_inv, sched_wf. sim_simpl. epoll_flags.
  destruct Hwf as [[Hs Ht]|[Hs Ht]]; [|congruence].
  assert (n = O) by congruence. subst n.
  cbn [closed_outside settled tasks_ok].
  split; [right; split; reflexivity|]. split; [exact Hco|]. split; [reflexivity|].
  split; [discriminate|]. split; [|exact Hok].
  intros _. destruct (settled (trace s)); [|reflexivity].
  rewrite (Hz eq_refl) in Ht. discriminate.
Qed.

Lemma settle_inv_entry s n :
  tasks s = S n -> settle_inv s ->
  has (flags (epoll (task_entry s n))) EF_CLOSED = false ->
  settle_inv (task_entry s n).
Proof.
  intros Hn (Hwf & Hco & Hz & Hok). unfold settle_inv, sched_wf. sim_simpl. epoll_flags.
  intros Hc.
  destruct Hwf as [[Hs Ht]|[Hs Ht]]; [|congruence].
  assert (n = O) by congruence. subst n.
  cbn [closed_outside settled tasks_ok].
  split; [right; split; reflexivity|]. split; [exact Hco|]. split; [reflexivity|].
  split; [|exact Hok].
  intros _. destruct (settled (trace s)); [|reflexivity].
  rewrite (Hz eq_refl) in Ht. discriminate.
Qed.

Lemma settle_inv_enter s :
  settle_inv s -> has (flags (epoll s)) EF_CLOSED = false ->
  settle_inv (enter_continuation s).
Proof.
  intros (Hwf & Hco & Hz & Hok) Hc.
  assert (Hno : closed_outside (trace s) = false).
  { destruct (closed_outside (trace s)); [|reflexivity].
    destruct (Hco eq_refl) as [Hc' _]. congruence. }
  assert (Hns : settled (trace s) = false).
  { destruct (settled (trace s)) eqn:E; [|reflexivity].
    apply settled_closed in E. congruence. }
  unfold settle_inv, sched_wf. sim_simpl. epoll_flags.
  cbn [closed_outside settled tasks_ok]. rewrite Hno, Hns.
  split; [exact Hwf|]. split; [discriminate|]. split; [discriminate|].
  split; [reflexivity|exact Hok].
Qed.

Lemma settle_inv_leave s :
  settle_inv s -> in_continuation (trace s) = true ->
  settle_inv (leave_continuation s).
Proof.
  intros (Hwf & Hco & Hz & Hok) Hin.
  assert (Hno : closed_outside (trace s) = false).
  { destruct (closed_outside (trace s)); [|reflexivity].
    destruct (Hco eq_refl) as [_ Hin']. congruence. }
  assert (Hns : settled (trace s) = false).
  { destruct (settled (trace s)) eqn:E; [|reflexivity].
    apply settled_closed in E. congruence. }
  unfold settle_inv, sched_wf. sim_simpl. epoll_flags.
  cbn [closed_outside settled tasks_ok]. rewrite Hno, Hns.
  split; [exact Hwf|]. split; [discriminate|]. split; [discriminate|].
  split; [reflexivity|exact Hok].
Qed.

Lemma run_settle_inv ops s s' : settle_inv s -> run s ops = Some s' -> settle_inv s'.
Proof.
  apply (run_invariant settle_inv).
  - exact settle_inv_plain.
  - exact settle_inv_check.
  - exact settle_inv_tryToClose.
  - intros s0 n Hn H _. now apply settle_inv_entry_close.
  - exact settle_inv_entry.
  - intros s0 H _ Hc. now apply settle_inv_enter.
  - exact settle_inv_leave.
Qed.

Lemma clearWatchListeners_removes (t : WatchTable) :
  forall (l : list Z) (x : Z),
    In x (fold_left (fun l kw => remove_listener (descriptor (snd kw)) l) t l) ->
    In x l /\ ~ In x (map (fun kw => descriptor (snd kw)) t).
Proof.
  induction t as [|kw t IH]; intros l x; cbn [fold_left map].
  - intros H. split; [exact H|intros []].
  - intros H. destruct (IH _ _ H) as [Hin Hnot].
    unfold remove_listener in Hin. apply filter_In in Hin. destruct Hin as [Hin Hne].
    split; [exact Hin|]. intros [Heq|Hin']; [|now apply Hnot].
    apply negb_true_iff, Z.eqb_neq in Hne. congruence.
Qed.

(** C9, as the code has it.  [_epoll_tryToClose] marks the epoll closed.
    When [EF_SCHEDULED] is not set, it finalizes at once (no watched
    descriptor keeps the epoll as a listener, and the host is told to close
    the descriptor), also when the process calls it from inside a notify
    task, before that task is over; when [EF_SCHEDULED] is set, it does not
    finalize and leaves the flag.  A notify task that finds the epoll closed
    finalizes on entry and does nothing else.  In any run from a state
    that is not closed, once close was called a single time, the
    finalizations since that call and the queued notify tasks number one
    together: none while a task is queued, exactly one afterwards.  And when
    close was called outside the continuation of a notify task, no notify
    task does anything after a finalization that follows the call. *)
Theorem close_finalizes_once :
  (forall s : Sim,
      let s' := _epoll_tryToClose s in
      has (flags (epoll s')) EF_CLOSED = true /\
      (has (flags (epoll s)) EF_SCHEDULED = false ->
       trace s' = EvFinalize :: EvCloseCall :: trace s /\
       forall kw, In kw (watching (epoll s)) -> ~ In (descriptor (snd kw)) (listeners s')) /\
      (has (flags (epoll s)) EF_SCHEDULED = true ->
       trace s' = EvCloseCall :: trace s /\
       has (flags (epoll s')) EF_SCHEDULED = true)) /\
  (forall (s : Sim) (continuation : list AppOp),
      has (flags (epoll s)) EF_CLOSED = true ->
      exists s',
        _epoll_tryNotify s continuation = Some s' /\
        trace s' = EvFinalize :: EvTaskRun :: trace s /\
        has (flags (epoll s')) EF_SCHEDULED = false) /\
  (forall (s s' : Sim) (ops : list SimOp),
      sched_wf s -> has (flags (epoll s)) EF_CLOSED = false -> trace s = [] ->
      run s ops = Some s' ->
      count is_close_call (trace s') = 1%nat ->
      (finalized_since_close (trace s') + tasks s' = 1)%nat) /\
  (forall (s s' : Sim) (ops : list SimOp) (ta tm tb : list Event),
      sched_wf s -> trace s = [] ->
      run s ops = Some s' ->
      trace s' = ta ++ EvFinalize :: tm ++ EvCloseCall :: tb ->
      in_continuation tb = false ->
      existsb is_task_event ta = false).
Proof.
  split; [|split; [|split]].
  - intros s. cbv zeta. unfold _epoll_tryToClose.
    cbn [epoll flags log set_flags set_epoll]. epoll_flags.
    destruct (has (flags (epoll s)) (Z.shiftl 1 0)) eqn:Hs; cbn [negb]; sim_simpl;
      epoll_flags; (split; [reflexivity|]); split; intros H; try discriminate.
    + split; [reflexivity|exact Hs].
    + split; [reflexivity|]. intros kw Hin Hl.
      apply clearWatchListeners_removes in Hl. destruct Hl as [_ Hl]. apply Hl.
      apply (in_map (fun kw => descriptor (snd kw)) _ _ Hin).
  - intros s continuation Hc. unfold _epoll_tryNotify.
    cbn [epoll flags log set_flags set_epoll]. epoll_flags. rewrite Hc. cbn [orb].
    eexists. split; [reflexivity|]. sim_simpl. epoll_flags. split; reflexivity.
  - intros s s' ops Hwf Hc Htr Hrun Hone.
    assert (Hinit : close_inv s).
    { split; [exact Hwf|]. rewrite Htr. split; [intros _; exact Hc|discriminate]. }
    destruct (run_close_inv ops s s' Hinit Hrun) as (_ & _ & H1).
    apply (H1 Hone).
  - intros s s' ops ta tm tb Hwf Htr Hrun Hlog Hout.
    assert (Hinit : settle_inv s).
    { split; [exact Hwf|]. rewrite Htr. repeat split; discriminate. }
    destruct (run_settle_inv ops s s' Hinit Hrun) as (_ & _ & _ & Hok).
    rewrite Hlog in Hok. revert Hok. apply tasks_ok_settled.
    cbn [settled]. rewrite closed_outside_app; [reflexivity|].
    cbn [closed_outside]. rewrite Hout. reflexivity.
Qed.

(** ** Reachable tables are well formed *)

Lemma run_table_wf (s s' : Sim) (ops : list SimOp) :
  table_wf (watching (epoll s)) -> trace s = [] ->
  run s ops = Some s' ->
  table_wf (watching (epoll s')).
Proof.
  intros Hwf Htr Hrun.
  apply (run_hist ops s s' (hist_initial s Hwf Htr) Hrun).
Qed.

(** A new epoll, nothing queued and nothing logged, is a state all the
    results about runs start from. *)
Lemma epoll_new_start (handle osfd : Z) (st : Z -> Z) (w : World) :
  let s := mkSim (epoll_new handle osfd) st w [] 0 [] in
  table_wf (watching (epoll s)) /\ sched_wf s /\
  has (flags (epoll s)) EF_CLOSED = false /\ trace s = [].
Proof.
  cbv zeta. repeat split.
  - constructor.
  - constructor.
  - right. split; reflexivity.
Qed.

(** * Further properties of the code *)

(** ** The probe of the kernel epoll *)

Lemma isReadyOS_result (s : Sim) :
  snd (_epoll_isReadyOS s) = os_ready (epoll s) (world s).
Proof.
  unfold _epoll_isReadyOS, os_ready.
  destruct (osEpollDescriptor (epoll s) >=? 3); [|reflexivity].
  cbn [world log andb].
  destruct (probeCtl (world s) =? 0); [|reflexivity].
  cbn [snd andb]. destruct (probeWait (world s) >? 0); reflexivity.
Qed.

(** X1.  [_epoll_isReadyOS] answers true exactly when the kernel descriptor is
    a real one (3 or more), the temporary epoll accepted it and the wait
    on the temporary epoll found an event.  It changes nothing but the log
    of kernel calls.  Below descriptor 3 (also when [epoll_create] had
    failed with -1) it makes no kernel call; otherwise the temporary epoll
    it creates is closed again, and the registration is removed exactly
    when it had been accepted. *)
Theorem isReadyOS_probe (s : Sim) :
  let s' := fst (_epoll_isReadyOS s) in
  (snd (_epoll_isReadyOS s) = true <->
   3 <= osEpollDescriptor (epoll s) /\ probeCtl (world s) = 0 /\ 0 < probeWait (world s)) /\
  epoll s' = epoll s /\ status s' = status s /\ world s' = world s /\
  listeners s' = listeners s /\ tasks s' = tasks s /\
  exists t,
    trace s' = t ++ trace s /\
    forallb is_os_call t = true /\
    (osEpollDescriptor (epoll s) < 3 -> t = []) /\
    (3 <= osEpollDescriptor (epoll s) ->
     count is_probe_create t = 1%nat /\ count is_probe_close t = 1%nat /\
     hd_error t = Some (EvOs OsProbeClose)) /\
    (In (EvOs OsProbeDel) t <->
     3 <= osEpollDescriptor (epoll s) /\ probeCtl (world s) = 0).
Proof.
  cbv zeta. split.
  { rewrite isReadyOS_result. unfold os_ready.
    rewrite !andb_true_iff, Z.geb_le, Z.eqb_eq, Z.gtb_lt. tauto. }
  unfold _epoll_isReadyOS.
  destruct (Z.geb_spec (osEpollDescriptor (epoll s)) 3) as [Hfd|Hfd]; cbn [fst].
  - cbn [world log]. destruct (Z.eqb_spec (probeCtl (world s)) 0) as [Hctl|Hctl];
      cbn [fst]; do 5 (split; [reflexivity|]).
    + exists [EvOs OsProbeClose; EvOs OsProbeDel; EvOs OsProbeWait; EvOs OsProbeAdd;
              EvOs OsProbeCreate].
      split; [reflexivity|]. split; [reflexivity|]. split; [lia|].
      split; [intros _; repeat split|].
      split; [intros _; split; assumption|intros _; cbn; auto].
    + exists [EvOs OsProbeClose; EvOs OsProbeAdd; EvOs OsProbeCreate].
      split; [reflexivity|]. split; [reflexivity|]. split; [lia|].
      split; [intros _; repeat split|].
      split; [cbn; intros [H|[H|[H|[]]]]; discriminate|intros [_ H]; contradiction].
  - do 5 (split; [reflexivity|]). exists [].
    split; [reflexivity|]. split; [reflexivity|]. split; [reflexivity|].
    split; [lia|]. split; [intros []|lia].
Qed.


(** ** What [_epoll_check] decides *)

Lemma check_loop_ready st t : snd (check_loop st t) = any_ready st t.
Proof.
  unfold any_ready. induction t as [|[k w] t IH]; [reflexivity|].
  cbn [check_loop existsb snd _epollwatch_isReady].
  destruct (ready_flags _); [reflexivity|].
  destruct (check_loop st t) as [t'' r']. exact IH.
Qed.

Lemma notify_loop_ready st t : snd (notify_loop st t) = any_ready st t.
Proof.
  unfold any_ready. induction t as [|[k w] t IH]; [reflexivity|].
  cbn [notify_loop existsb snd _epollwatch_isReady].
  destruct (notify_loop st t) as [t'' r']. cbn [snd] in *. subst r'.
  destruct (ready_flags _); reflexivity.
Qed.

Lemma has_set_same (x m : Z) : m <> 0 -> has (set_flag x m) m = true.
Proof.
  intros Hm. unfold has, set_flag.
  replace (Z.land (Z.lor x m) m) with m.
  - apply negb_true_iff, Z.eqb_neq, Hm.
  - apply Z.bits_inj'. intros i _. rewrite Z.land_spec, Z.lor_spec.
    destruct (Z.testbit x i), (Z.testbit m i); reflexivity.
Qed.

Lemma has_clear_same (x m : Z) : has (clear_flag x m) m = false.
Proof.
  unfold has, clear_flag.
  replace (Z.land (Z.land x (Z.lnot m)) m) with 0; [reflexivity|].
  apply Z.bits_inj'. intros i Hi.
  rewrite Z.bits_0, !Z.land_spec, Z.lnot_spec by assumption.
  destruct (Z.testbit x i), (Z.testbit m i); reflexivity.
Qed.

Lemma land_disjoint_bits (m r i : Z) :
  Z.land m r = 0 -> Z.testbit m i && Z.testbit r i = false.
Proof.
  intros H. rewrite <- Z.land_spec, H. apply Z.bits_0.
Qed.

Lemma has_set_other (x m r : Z) : Z.land m r = 0 -> has (set_flag x r) m = has x m.
Proof.
  intros H. unfold has, set_flag. f_equal. f_equal.
  apply Z.bits_inj'. intros i _. rewrite !Z.land_spec, Z.lor_spec.
  pose proof (land_disjoint_bits m r i H).
  destruct (Z.testbit x i), (Z.testbit m i), (Z.testbit r i); try reflexivity; discriminate.
Qed.

Lemma has_clear_other (x m r : Z) : Z.land m r = 0 -> has (clear_flag x r) m = has x m.
Proof.
  intros H. unfold has, clear_flag. f_equal. f_equal.
  apply Z.bits_inj'. intros i Hi. rewrite !Z.land_spec, Z.lnot_spec by assumption.
  pose proof (land_disjoint_bits m r i H).
  destruct (Z.testbit x i), (Z.testbit m i), (Z.testbit r i); try reflexivity; discriminate.
Qed.

(** [_epoll_check], case by case. *)
Lemma check_cases (s : Sim) :
  let s' := _epoll_check s in
  let ready := any_ready (status s) (watching (epoll s)) || os_ready (epoll s) (world s) in
  if has (flags (epoll s)) EF_CLOSED || has (flags (epoll s)) EF_NOTIFYING then s' = s
  else
    superStatus (epoll s')
    = (if ready then set_flag (superStatus (epoll s)) DS_READABLE
       else clear_flag (superStatus (epoll s)) DS_READABLE) /\
    superHandle (epoll s') = superHandle (epoll s) /\
    tasks s' = (if check_schedules s then S (tasks s) else tasks s) /\
    flags (epoll s')
    = (if check_schedules s then set_flag (flags (epoll s)) EF_SCHEDULED
       else flags (epoll s)) /\
    exists t,
      trace s' = (if check_schedules s then [EvSchedule] else []) ++ t ++ trace s /\
      forallb is_os_call t = true /\
      (any_ready (status s) (watching (epoll s)) = true -> t = []).
Proof.
  cbv zeta. unfold _epoll_check, check_schedules.
  destruct (has (flags (epoll s)) EF_CLOSED); cbn [orb negb andb]; [reflexivity|].
  destruct (has (flags (epoll s)) EF_NOTIFYING); cbn [orb negb andb]; [reflexivity|].
  pose proof (check_loop_ready (status s) (watching (epoll s))) as Hr.
  destruct (check_loop (status s) (watching (epoll s))) as [t r]. cbn [snd] in Hr.
  rewrite <- Hr. clear Hr. destruct r; cbn [negb orb andb].
  - cbn [adjust_super set_superStatus set_epoll set_watching epoll flags world superStatus].
    destruct (has (flags (epoll s)) EF_SCHEDULED); cbn [negb andb];
      [|destruct (wantsNotify (world s)); cbn [andb];
        [destruct (scheduleOk (world s))|]];
      cbn; repeat split; exists []; repeat split.
  - pose proof (isReadyOS_frame (set_watching s t)) as Hos.
    pose proof (isReadyOS_result (set_watching s t)) as Hres.
    change (os_ready (epoll (set_watching s t)) (world (set_watching s t)))
      with (os_ready (epoll s) (world s)) in Hres.
    destruct (_epoll_isReadyOS (set_watching s t)) as [s1 r1]. cbn [fst snd] in Hos, Hres.
    destruct Hos as (He & _ & Hw & _ & Ht & tr & Htr & _ & Hcalls).
    rewrite <- Hres. clear Hres.
    destruct r1; cbn [andb].
    + cbn [adjust_super set_superStatus set_epoll epoll flags world superStatus].
      rewrite He, Hw. cbn [set_watching set_epoll epoll flags world superStatus].
      destruct (has (flags (epoll s)) EF_SCHEDULED); cbn [negb andb];
        [|destruct (wantsNotify (world s)); cbn [andb];
          [destruct (scheduleOk (world s))|]];
        cbn; rewrite ?He, ?Ht, ?Htr; cbn; repeat split; exists tr; repeat split;
        try assumption; discriminate.
    + cbn. rewrite ?He, ?Ht, ?Htr. cbn. repeat split. exists tr. repeat split;
        try assumption; discriminate.
Qed.

(** X2.  After a check that is not skipped, the epoll itself is readable
    exactly when one of its watches is ready or the kernel epoll has
    events; the other bits of its status and its handle are as before. *)
Theorem check_readable_iff (s : Sim) :
  DS_READABLE <> 0 ->
  has (flags (epoll s)) EF_CLOSED = false ->
  has (flags (epoll s)) EF_NOTIFYING = false ->
  let s' := _epoll_check s in
  (has (superStatus (epoll s')) DS_READABLE = true <->
   any_ready (status s) (watching (epoll s)) = true \/
   os_ready (epoll s) (world s) = true) /\
  (forall m, Z.land m DS_READABLE = 0 ->
             has (superStatus (epoll s')) m = has (superStatus (epoll s)) m) /\
  superHandle (epoll s') = superHandle (epoll s).
Proof.
  intros Hm Hc Hn. cbv zeta. pose proof (check_cases s) as H. cbv zeta in H.
  rewrite Hc, Hn in H. cbn [orb] in H. destruct H as (Hst & Hh & _).
  rewrite Hst. split; [|split; [|exact Hh]].
  - rewrite <- orb_true_iff.
    destruct (any_ready _ _ || os_ready _ _).
    + rewrite has_set_same by assumption. tauto.
    + rewrite has_clear_same. tauto.
  - intros m Hdis. destruct (_ || _);
      [apply has_set_other|apply has_clear_other]; assumption.
Qed.

(** X3.  [_epoll_check] queues a notify task exactly when the epoll is neither
    closed nor notifying, a watch or the kernel epoll is ready, no task is
    scheduled yet, the process wants to be notified and the scheduler takes
    the task; then, and only then, it sets [EF_SCHEDULED].  It changes no
    other flag, and it never queues more than one task. *)
Theorem check_queues_task (s : Sim) :
  let s' := _epoll_check s in
  tasks s' = (if check_schedules s then S (tasks s) else tasks s) /\
  flags (epoll s')
  = (if check_schedules s then set_flag (flags (epoll s)) EF_SCHEDULED
     else flags (epoll s)) /\
  exists t,
    trace s' = (if check_schedules s then [EvSchedule] else []) ++ t ++ trace s /\
    forallb is_os_call t = true.
Proof.
  cbv zeta. pose proof (check_cases s) as H. cbv zeta in H.
  destruct (has (flags (epoll s)) EF_CLOSED || has (flags (epoll s)) EF_NOTIFYING) eqn:Hskip.
  - assert (Hno : check_schedules s = false).
    { unfold check_schedules. apply orb_true_iff in Hskip.
      destruct Hskip as [-> | ->]; cbn [negb andb]; rewrite ?andb_false_r; reflexivity. }
    rewrite H, Hno. repeat split. exists []. split; reflexivity.
  - destruct H as (_ & _ & Ht & Hf & t & Htr & Hos & _).
    split; [exact Ht|split; [exact Hf|]]. exists t. split; assumption.
Qed.


(** ** One notify task at a time *)

Lemma sched_wf_plain s s' : plain_step s s' -> sched_wf s -> sched_wf s'.
Proof. intros (Hf & Ht & _) H. unfold sched_wf. rewrite Hf, Ht. exact H. Qed.

Lemma sched_wf_check s : sched_wf s -> sched_wf (_epoll_check s).
Proof.
  intros Hwf.
  destruct (check_sched s) as [(Hf & Ht & _)|(Hs & _ & _ & Hf & Ht & _)];
    unfold sched_wf; rewrite Hf, Ht.
  - exact Hwf.
  - destruct Hwf as [[Hs' _]|[_ Hz]]; [congruence|]. rewrite Hz.
    left. split; [epoll_flags|]; reflexivity.
Qed.

Lemma sched_wf_tryToClose s : sched_wf s -> sched_wf (_epoll_tryToClose s).
Proof.
  intros Hwf. unfold _epoll_tryToClose.
  cbn [epoll flags log set_flags set_epoll]. epoll_flags.
  destruct Hwf as [[Hs Ht]|[Hs Ht]]; rewrite Hs; cbn [negb]; sim_simpl; epoll_flags;
    rewrite Hs, Ht; [left|right]; split; reflexivity.
Qed.

Lemma sched_wf_entry s n : tasks s = S n -> sched_wf s -> sched_wf (task_entry s n).
Proof.
  intros Hn Hwf. unfold sched_wf. sim_simpl. epoll_flags.
  destruct Hwf as [[_ Ht]|[_ Ht]]; [|congruence].
  right. split; [reflexivity|congruence].
Qed.

Lemma sched_wf_entry_close s n :
  tasks s = S n -> sched_wf s -> sched_wf (_epoll_close (task_entry s n)).
Proof.
  intros Hn Hwf. unfold sched_wf. sim_simpl. epoll_flags.
  destruct Hwf as [[_ Ht]|[_ Ht]]; [|congruence].
  right. split; [reflexivity|congruence].
Qed.

Lemma sched_wf_enter s : sched_wf s -> sched_wf (enter_continuation s).
Proof. intros Hwf. unfold sched_wf. sim_simpl. epoll_flags. exact Hwf. Qed.

Lemma sched_wf_leave s : sched_wf s -> sched_wf (leave_continuation s).
Proof. intros Hwf. unfold sched_wf. sim_simpl. epoll_flags. exact Hwf. Qed.

(** X4.  Duplicate notifications are avoided: along every run at most one
    notify task of the epoll is queued, and [EF_SCHEDULED] is set exactly
    while one is. *)
Theorem run_at_most_one_task (s s' : Sim) (ops : list SimOp) :
  sched_wf s -> run s ops = Some s' ->
  (tasks s' <= 1)%nat /\
  (has (flags (epoll s')) EF_SCHEDULED = true <-> tasks s' = 1%nat).
Proof.
  intros Hwf Hrun.
  assert (H : sched_wf s').
  { revert Hwf Hrun. apply (run_invariant sched_wf).
    - exact sched_wf_plain.
    - exact sched_wf_check.
    - exact sched_wf_tryToClose.
    - intros s0 n Hn H _. now apply sched_wf_entry_close.
    - intros s0 n Hn H _. now apply sched_wf_entry.
    - intros s0 H _ _. now apply sched_wf_enter.
    - intros s0 H _. now apply sched_wf_leave. }
  destruct H as [[Hs Ht]|[Hs Ht]]; rewrite Hs, Ht; split; try lia;
    split; intros; congruence.
Qed.


(** ** What a notify task does *)

Lemma count_app (p : Event -> bool) (a b : list Event) :
  count p (a ++ b) = (count p a + count p b)%nat.
Proof. unfold count. rewrite filter_app, length_app. reflexivity. Qed.

Lemma count_none (p : Event -> bool) (t : list Event) :
  (forall e, In e t -> p e = false) -> count p t = 0%nat.
Proof.
  unfold count. induction t as [|e t IH]; [reflexivity|]. intros H. cbn [filter].
  rewrite (H e (or_introl eq_refl)). apply IH. intros e' Hin. apply H. now right.
Qed.

Lemma process_continue_trace (continuation : list AppOp) :
  forall s s',
    process_continue s continuation = Some s' ->
    exists t, trace s' = t ++ trace s /\
              forallb (fun e => negb (is_task_event e)) t = true.
Proof.
  induction continuation as [|a rest IH]; intros s s'; cbn.
  - intros Heq. inversion Heq; subst. exists []. split; reflexivity.
  - destruct (app_step s a) as [s1|] eqn:Hstep; [|discriminate].
    intros Hrest. destruct (IH _ _ Hrest) as (t2 & Ht2 & Hok2).
    destruct (app_step_trace _ _ _ Hstep) as (t1 & Ht1 & Hok1).
    exists (t2 ++ t1). split; [rewrite Ht2, Ht1, app_assoc; reflexivity|].
    rewrite forallb_app, Hok1, Hok2. reflexivity.
Qed.

(** X5.  A notify task that finds the epoll closed, the process gone, or
    nothing ready does not call the process: it returns, whatever the
    process would have done, having logged only kernel calls of the probe
    or the finalization (which it does exactly when the epoll is closed or
    the process no longer runs); it leaves [EF_SCHEDULED] clear and queues
    nothing. *)
Theorem tryNotify_idle (s : Sim) (continuation : list AppOp) :
  notify_calls s = false ->
  exists s' t,
    _epoll_tryNotify s continuation = Some s' /\
    trace s' = t ++ EvTaskRun :: trace s /\
    forallb (fun e => is_os_call e || is_finalize e) t = true /\
    (In EvFinalize t <->
     has (flags (epoll s)) EF_CLOSED = true \/ isRunning (world s) = false) /\
    flags (epoll s') = clear_flag (flags (epoll s)) EF_SCHEDULED /\
    tasks s' = tasks s.
Proof.
  unfold notify_calls. intros Hidle. unfold _epoll_tryNotify.
  set (s0 := set_flags (log s EvTaskRun) _).
  assert (Hc0 : has (flags (epoll s0)) EF_CLOSED = has (flags (epoll s)) EF_CLOSED)
    by (unfold s0; cbn [epoll flags log set_flags set_epoll]; epoll_flags; reflexivity).
  rewrite Hc0. change (world s0) with (world s).
  destruct (has (flags (epoll s)) EF_CLOSED) eqn:Hc; cbn [orb negb andb] in *.
  { exists (_epoll_close s0), [EvFinalize]. repeat split; auto. intros _. now left. }
  destruct (isRunning (world s)) eqn:Hrun; cbn [orb negb andb] in *.
  2: { exists (_epoll_close s0), [EvFinalize]. repeat split; auto. intros _. now left. }
  apply orb_false_iff in Hidle. destruct Hidle as [Hany Hos].
  pose proof (notify_loop_ready (status s0) (watching (epoll s0))) as Hr.
  change (any_ready (status s0) (watching (epoll s0)))
    with (any_ready (status s) (watching (epoll s))) in Hr.
  destruct (notify_loop (status s0) (watching (epoll s0))) as [t r]. cbn [snd] in Hr.
  rewrite Hany in Hr. subst r. cbn [negb].
  pose proof (isReadyOS_frame (set_watching s0 t)) as Hfr.
  pose proof (isReadyOS_result (set_watching s0 t)) as Hres.
  change (os_ready (epoll (set_watching s0 t)) (world (set_watching s0 t)))
    with (os_ready (epoll s) (world s)) in Hres.
  destruct (_epoll_isReadyOS (set_watching s0 t)) as [s2 r2]. cbn [fst snd] in Hfr, Hres.
  rewrite Hos in Hres. subst r2.
  destruct Hfr as (He & _ & _ & _ & Ht & tr & Htr & _ & Hcalls).
  exists s2, tr. split; [reflexivity|]. split; [exact Htr|]. split; [|split; [|split]].
  - apply forallb_forall. intros e Hin. rewrite forallb_forall in Hcalls.
    rewrite (Hcalls e Hin). reflexivity.
  - split.
    + intros Hin. rewrite forallb_forall in Hcalls. specialize (Hcalls _ Hin). discriminate.
    + intros [H|H]; discriminate.
  - rewrite He. reflexivity.
  - rewrite Ht. reflexivity.
Qed.

(** X6.  A notify task that finds the epoll open, the process running and
    something ready calls the process exactly once, with [EF_NOTIFYING]
    set and [EF_SCHEDULED] clear; it asserts that the process wants the
    notification; between the call and its return only the process acts,
    after the return only the final check; and [EF_NOTIFYING] is clear when
    the task is over. *)
Theorem tryNotify_calls_process_once (s s' : Sim) (continuation : list AppOp) :
  notify_calls s = true ->
  _epoll_tryNotify s continuation = Some s' ->
  wantsNotify (world s) = true /\
  has (flags (epoll s')) EF_NOTIFYING = false /\
  exists s3 s4 tp tc tk,
    has (flags (epoll s3)) EF_NOTIFYING = true /\
    has (flags (epoll s3)) EF_SCHEDULED = false /\
    trace s3 = EvContinue :: tp ++ EvTaskRun :: trace s /\
    forallb is_os_call tp = true /\
    process_continue s3 continuation = Some s4 /\
    trace s4 = tc ++ trace s3 /\
    forallb (fun e => negb (is_task_event e)) tc = true /\
    trace s' = tk ++ EvReturn :: trace s4 /\
    forallb is_check_event tk = true /\
    count is_continue (tk ++ EvReturn :: tc ++ EvContinue :: tp) = 1%nat.
Proof.
  unfold notify_calls. intros Hcalls. unfold _epoll_tryNotify.
  set (s0 := set_flags (log s EvTaskRun) _).
  assert (Hc0 : has (flags (epoll s0)) EF_CLOSED = has (flags (epoll s)) EF_CLOSED)
    by (unfold s0; cbn [epoll flags log set_flags set_epoll]; epoll_flags; reflexivity).
  assert (Hs0 : has (flags (epoll s0)) EF_SCHEDULED = false)
    by (unfold s0; cbn [epoll flags log set_flags set_epoll]; epoll_flags; reflexivity).
  rewrite Hc0. change (world s0) with (world s).
  apply andb_true_iff in Hcalls. destruct Hcalls as [Hcalls Hready].
  apply andb_true_iff in Hcalls. destruct Hcalls as [Hc Hrun].
  apply negb_true_iff in Hc. rewrite Hc, Hrun. cbn [orb negb].
  pose proof (notify_loop_ready (status s0) (watching (epoll s0))) as Hr.
  change (any_ready (status s0) (watching (epoll s0)))
    with (any_ready (status s) (watching (epoll s))) in Hr.
  destruct (notify_loop (status s0) (watching (epoll s0))) as [t r]. cbn [snd] in Hr.
  assert (H2 : forall s2 r2,
             (if negb r then _epoll_isReadyOS (set_watching s0 t)
              else (set_watching s0 t, r)) = (s2, r2) ->
             r2 = true /\ flags (epoll s2) = flags (epoll s0) /\ world s2 = world s /\
             exists tp, trace s2 = tp ++ EvTaskRun :: trace s /\
                        forallb is_os_call tp = true).
  { intros s2 r2. destruct r; cbn [negb].
    - intros Heq. inversion Heq; subst. repeat split. exists []. split; reflexivity.
    - pose proof (isReadyOS_frame (set_watching s0 t)) as Hfr.
      pose proof (isReadyOS_result (set_watching s0 t)) as Hres.
      change (os_ready (epoll (set_watching s0 t)) (world (set_watching s0 t)))
        with (os_ready (epoll s) (world s)) in Hres.
      intros Heq. rewrite Heq in Hfr, Hres. cbn [fst snd] in Hfr, Hres.
      destruct Hfr as (He & _ & Hw & _ & _ & tr & Htr & _ & Hos).
      rewrite <- Hr in Hready. cbn [orb] in Hready.
      split; [congruence|]. split; [rewrite He; reflexivity|]. split; [exact Hw|].
      exists tr. split; [exact Htr|exact Hos]. }
  destruct (if negb r then _ else _) as [s2 r2].
  destruct (H2 _ _ eq_refl) as (-> & Hf2 & Hw2 & tp & Htp & Hos).
  rewrite Hw2. unfold utility_assert.
  destruct (wantsNotify (world s)); [|discriminate].
  set (s3 := if DEBUG then _epoll_getChildrenStatus s2 else s2).
  assert (Hf3 : flags (epoll s3) = flags (epoll s0) /\ trace s3 = trace s2)
    by (unfold s3; destruct DEBUG; split; auto).
  destruct Hf3 as [Hf3 Htr3].
  change (log (set_flags s3 (set_flag (flags (epoll s3)) EF_NOTIFYING)) EvContinue)
    with (enter_continuation s3).
  destruct (process_continue (enter_continuation s3) continuation) as [s4|] eqn:Hcont;
    [|discriminate].
  change (set_flags (log s4 EvReturn) (clear_flag (flags (epoll (log s4 EvReturn))) EF_NOTIFYING))
    with (leave_continuation s4).
  set (s5 := if DEBUG then _epoll_getChildrenStatus (leave_continuation s4)
             else leave_continuation s4).
  assert (Hf5 : flags (epoll s5) = flags (epoll (leave_continuation s4)) /\
                trace s5 = EvReturn :: trace s4)
    by (unfold s5; destruct DEBUG; split; auto).
  destruct Hf5 as [Hf5 Htr5].
  intros Heq. inversion Heq; subst s'. clear Heq.
  destruct (process_continue_trace _ _ _ Hcont) as (tc & Htc & Hok).
  pose proof (check_frame s5) as (_ & _ & _ & _ & _ & tk & Htk & Hck).
  split; [reflexivity|]. split.
  { destruct (check_sched s5) as [(Hf & _)|(_ & _ & _ & Hf & _)]; rewrite Hf, Hf5;
      sim_simpl; epoll_flags; reflexivity. }
  exists (enter_continuation s3), s4, tp, tc, tk.
  split; [sim_simpl; epoll_flags; reflexivity|].
  split; [sim_simpl; epoll_flags; rewrite Hf3; exact Hs0|].
  split; [sim_simpl; rewrite Htr3, Htp; reflexivity|].
  split; [exact Hos|]. split; [exact Hcont|]. split; [exact Htc|]. split; [exact Hok|].
  split; [rewrite Htk, Htr5; reflexivity|]. split; [exact Hck|].
  rewrite count_app. change (EvReturn :: tc ++ EvContinue :: tp)
    with ([EvReturn] ++ tc ++ [EvContinue] ++ tp).
  rewrite !count_app.
  rewrite (count_none is_continue tk), (count_none is_continue tc),
    (count_none is_continue tp); [reflexivity| | |].
  - intros e Hin. rewrite forallb_forall in Hos. specialize (Hos _ Hin).
    destruct e; try discriminate; reflexivity.
  - intros e Hin. rewrite forallb_forall in Hok. specialize (Hok _ Hin).
    destruct e; try discriminate; reflexivity.
  - intros e Hin. rewrite forallb_forall in Hck. specialize (Hck _ Hin).
    destruct e; try discriminate; reflexivity.
Qed.


(** ** What [epoll_control] does to the table and to the listeners *)

Lemma table_lookup_replace_same d w t : table_lookup d (table_replace d w t) = Some w.
Proof.
  induction t as [|[k w0] t IH]; cbn.
  - rewrite Z.eqb_refl. reflexivity.
  - destruct (Z.eqb_spec k d) as [->|Hne]; cbn.
    + rewrite Z.eqb_refl. reflexivity.
    + destruct (Z.eqb_spec k d); [contradiction|exact IH].
Qed.

Lemma table_lookup_replace_other d d' w t :
  d' <> d -> table_lookup d' (table_replace d w t) = table_lookup d' t.
Proof.
  intros Hne. induction t as [|[k w0] t IH]; cbn.
  - destruct (Z.eqb_spec d d'); [congruence|reflexivity].
  - destruct (Z.eqb_spec k d) as [->|Hkd]; cbn.
    + destruct (Z.eqb_spec d d'); [congruence|reflexivity].
    + destruct (k =? d'); [reflexivity|exact IH].
Qed.

Lemma table_lookup_remove_same d t :
  NoDup (map fst t) -> table_lookup d (table_remove d t) = None.
Proof.
  induction t as [|[k w0] t IH]; cbn; [reflexivity|].
  intros Hnd. apply NoDup_cons_iff in Hnd. destruct Hnd as [Hnotin Hnd].
  destruct (Z.eqb_spec k d) as [->|Hne]; cbn.
  - destruct (table_lookup d t) as [w|] eqn:Hl; [|reflexivity].
    exfalso. apply Hnotin. apply (in_map fst _ _ (table_lookup_in _ _ _ Hl)).
  - destruct (Z.eqb_spec k d); [contradiction|now apply IH].
Qed.

Lemma table_lookup_remove_other d d' t :
  d' <> d -> table_lookup d' (table_remove d t) = table_lookup d' t.
Proof.
  intros Hne. induction t as [|[k w0] t IH]; cbn; [reflexivity|].
  destruct (Z.eqb_spec k d) as [->|Hkd]; cbn.
  - destruct (Z.eqb_spec d d'); [congruence|reflexivity].
  - destruct (k =? d'); [reflexivity|exact IH].
Qed.

(** A sweep keeps every entry in place and at most refreshes its flags. *)
Lemma swept_lookup st t t' d :
  swept st t t' ->
  match table_lookup d t with
  | Some w =>
      exists w', table_lookup d t' = Some w' /\
                 (w' = w \/ w' = _epollwatch_updateStatus (st (descriptor w)) w)
  | None => table_lookup d t' = None
  end.
Proof.
  intros Hsw. induction Hsw as [|[k w] [k' w'] t t' [Hk Hw] Hsw IH]; cbn; [reflexivity|].
  cbn in Hk, Hw. subst k'. destruct (k =? d); [|exact IH].
  exists w'. split; [reflexivity|exact Hw].
Qed.

Lemma updateStatus_refcount st w :
  referenceCount (_epollwatch_updateStatus st w) = referenceCount w.
Proof. reflexivity. Qed.

Lemma in_add_listener d x l : In x (add_listener d l) <-> x = d \/ In x l.
Proof.
  unfold add_listener. destruct (existsb (Z.eqb d) l) eqn:Hex.
  - apply existsb_exists in Hex. destruct Hex as (y & Hin & Hy).
    apply Z.eqb_eq in Hy. subst y. split; [auto|]. intros [->|H]; assumption.
  - cbn. split; intros [H|H]; auto.
Qed.

Lemma in_remove_listener d x l : In x (remove_listener d l) <-> x <> d /\ In x l.
Proof.
  unfold remove_listener. rewrite filter_In, negb_true_iff, Z.eqb_neq. tauto.
Qed.

(** X7.  A successful ADD registers the descriptor: afterwards the table has a
    watch for it with the subscription that was passed, marked
    [EWF_WATCHING] and holding one reference, and the epoll listens to the
    descriptor; the other entries keep their subscriptions and no listener
    is lost. *)
Theorem control_add_registers (s : Sim) (d : Z) (e : epoll_event) :
  table_lookup d (watching (epoll s)) = None ->
  exists s' w,
    epoll_control s EPOLL_CTL_ADD d (Some e) = Some (s', 0) /\
    table_lookup d (watching (epoll s')) = Some w /\
    descriptor w = d /\ event w = e /\
    has (wflags w) EWF_WATCHING = true /\ referenceCount w = 1 /\
    In d (listeners s') /\
    (forall d', d' <> d ->
                option_map event (table_lookup d' (watching (epoll s')))
                = option_map event (table_lookup d' (watching (epoll s)))) /\
    (forall x, In x (listeners s') <-> x = d \/ In x (listeners s)).
Proof.
  intros Hlook. unfold epoll_control. rewrite Z.eqb_refl, Hlook.
  set (w0 := with_wflags (_epollwatch_new d e) _).
  set (s1 := log _ (EvAdd d)).
  pose proof (check_frame s1) as (_ & _ & Hl & _ & Hsw & _).
  change (descriptor w0) with d in *.
  assert (Hw0 : has (wflags w0) EWF_WATCHING = true) by reflexivity.
  pose proof (swept_lookup _ _ _ d Hsw) as Hd.
  change (watching (epoll s1)) with (table_replace d w0 (watching (epoll s))) in Hd.
  rewrite table_lookup_replace_same in Hd. destruct Hd as (w & Hw & Hor).
  exists (_epoll_check s1), w. split; [reflexivity|]. split; [exact Hw|].
  assert (Hsame : descriptor w = d /\ event w = e /\
                  has (wflags w) EWF_WATCHING = true /\ referenceCount w = 1).
  { destruct Hor as [->| ->].
    - repeat split.
    - rewrite updateStatus_descriptor, updateStatus_event, updateStatus_watching.
      repeat split. }
  destruct Hsame as (H1 & H2 & H3 & H4).
  split; [exact H1|]. split; [exact H2|]. split; [exact H3|]. split; [exact H4|].
  rewrite Hl. change (listeners s1) with (add_listener d (listeners s)).
  split; [apply in_add_listener; now left|]. split; [|intros x; apply in_add_listener].
  intros d' Hne. pose proof (swept_lookup _ _ _ d' Hsw) as Hd'.
  change (watching (epoll s1)) with (table_replace d w0 (watching (epoll s))) in Hd'.
  rewrite table_lookup_replace_other in Hd' by assumption.
  destruct (table_lookup d' (watching (epoll s))) as [w1|].
  - destruct Hd' as (w1' & -> & [->| ->]); cbn [option_map]; [reflexivity|].
    rewrite updateStatus_event. reflexivity.
  - rewrite Hd'. reflexivity.
Qed.

(** X8.  A successful DEL unregisters the descriptor: its entry and the
    listener are gone, every other entry and listener is untouched, and
    nothing else happens: no check is made, so the status of the epoll, its
    flags and the queue of the scheduler stay as they were. *)
Theorem control_del_unregisters (s : Sim) (d : Z) (ev : option epoll_event)
    (w : EpollWatch) :
  table_wf (watching (epoll s)) ->
  table_lookup d (watching (epoll s)) = Some w ->
  exists s',
    epoll_control s EPOLL_CTL_DEL d ev = Some (s', 0) /\
    table_lookup d (watching (epoll s')) = None /\
    ~ In d (listeners s') /\
    (forall d', d' <> d ->
                table_lookup d' (watching (epoll s')) = table_lookup d' (watching (epoll s))) /\
    (forall x, In x (listeners s') <-> x <> d /\ In x (listeners s)) /\
    flags (epoll s') = flags (epoll s) /\
    superStatus (epoll s') = superStatus (epoll s) /\
    tasks s' = tasks s /\
    trace s' = EvDel d :: trace s.
Proof.
  intros [Hnd Hall] Hlook. unfold epoll_control.
  change (EPOLL_CTL_DEL =? EPOLL_CTL_ADD) with false.
  change (EPOLL_CTL_DEL =? EPOLL_CTL_MOD) with false.
  rewrite Z.eqb_refl, Hlook. cbv iota.
  assert (Hd : descriptor w = d).
  { rewrite Forall_forall in Hall. apply (Hall _ (table_lookup_in _ _ _ Hlook)). }
  eexists. split; [reflexivity|].
  cbn [epoll watching listeners flags superStatus tasks trace log set_listeners
       set_watching set_epoll with_wflags descriptor].
  rewrite Hd. split; [now apply table_lookup_remove_same|].
  split; [intros Hin; apply in_remove_listener in Hin; destruct Hin as [Hne _]; now apply Hne|].
  split; [intros d' Hne; now apply table_lookup_remove_other|].
  split; [intros x; apply in_remove_listener|]. repeat split.
Qed.

(** X9.  A successful MOD replaces the subscription and re-arms the watch: the
    entry of the descriptor then carries the new event, and neither
    [EWF_EDGETRIGGER_REPORTED] nor [EWF_ONESHOT_REPORTED] is set, whatever
    was reported before; the listeners are the same and the other entries
    keep their subscriptions. *)
Theorem control_mod_rearms (s : Sim) (d : Z) (e : epoll_event) (w : EpollWatch) :
  table_wf (watching (epoll s)) ->
  table_lookup d (watching (epoll s)) = Some w ->
  exists s' w',
    epoll_control s EPOLL_CTL_MOD d (Some e) = Some (s', 0) /\
    table_lookup d (watching (epoll s')) = Some w' /\
    descriptor w' = d /\ event w' = e /\
    has (wflags w') EWF_WATCHING = true /\
    has (wflags w') EWF_EDGETRIGGER_REPORTED = false /\
    has (wflags w') EWF_ONESHOT_REPORTED = false /\
    referenceCount w' = referenceCount w /\
    listeners s' = listeners s /\
    (forall d', d' <> d ->
                option_map event (table_lookup d' (watching (epoll s')))
                = option_map event (table_lookup d' (watching (epoll s)))).
Proof.
  intros [Hnd Hall] Hlook. unfold epoll_control, utility_assert.
  change (EPOLL_CTL_MOD =? EPOLL_CTL_ADD) with false.
  rewrite Z.eqb_refl, Hlook. cbv iota.
  rewrite Forall_forall in Hall.
  destruct (Hall _ (table_lookup_in _ _ _ Hlook)) as [Hd Hwatching].
  cbn [fst snd] in Hd, Hwatching. rewrite Hwatching.
  set (w1 := with_wflags _ (clear_flag _ EWF_ONESHOT_REPORTED)).
  set (s1 := log _ (EvMod d)).
  assert (Hw1 : descriptor w1 = d /\ event w1 = e /\
                has (wflags w1) EWF_WATCHING = true /\
                has (wflags w1) EWF_EDGETRIGGER_REPORTED = false /\
                has (wflags w1) EWF_ONESHOT_REPORTED = false /\
                referenceCount w1 = referenceCount w).
  { unfold w1, with_wflags, with_event. cbn [descriptor event wflags referenceCount].
    split; [exact Hd|]. split; [reflexivity|].
    flag_consts. rewrite !has_clear_flag by lia. cbn [Z.eqb Pos.eqb negb].
    rewrite ?andb_true_r, ?andb_false_r.
    split; [exact Hwatching|]. repeat split. }
  pose proof (check_frame s1) as (_ & _ & Hl & _ & Hsw & _).
  pose proof (swept_lookup _ _ _ d Hsw) as Hd1.
  change (watching (epoll s1)) with (table_replace d w1 (watching (epoll s))) in Hd1.
  rewrite table_lookup_replace_same in Hd1. destruct Hd1 as (w' & Hw' & Hor).
  exists (_epoll_check s1), w'. split; [reflexivity|]. split; [exact Hw'|].
  destruct Hw1 as (H1 & H2 & H3 & H4 & H5 & H6).
  assert (Hsame : descriptor w' = d /\ event w' = e /\
                  has (wflags w') EWF_WATCHING = true /\
                  has (wflags w') EWF_EDGETRIGGER_REPORTED = false /\
                  has (wflags w') EWF_ONESHOT_REPORTED = false /\
                  referenceCount w' = referenceCount w).
  { destruct Hor as [->| ->]; [repeat split; assumption|].
    rewrite updateStatus_descriptor, updateStatus_event, updateStatus_watching,
      updateStatus_edge_reported, updateStatus_oneshot_reported, updateStatus_refcount.
    repeat split; assumption. }
  destruct Hsame as (G1 & G2 & G3 & G4 & G5 & G6).
  do 6 (split; [assumption|]). split; [exact Hl|].
  intros d' Hne. pose proof (swept_lookup _ _ _ d' Hsw) as Hd'.
  change (watching (epoll s1)) with (table_replace d w1 (watching (epoll s))) in Hd'.
  rewrite table_lookup_replace_other in Hd' by assumption.
  destruct (table_lookup d' (watching (epoll s))) as [w2|].
  - destruct Hd' as (w2' & -> & [->| ->]); cbn [option_map]; [reflexivity|].
    rewrite updateStatus_event. reflexivity.
  - rewrite Hd'. reflexivity.
Qed.


(** ** Operations in a row *)

Lemma control_add_lookup (s s1 : Sim) (d : Z) (e : epoll_event) :
  epoll_control s EPOLL_CTL_ADD d (Some e) = Some (s1, 0) ->
  table_lookup d (watching (epoll s)) = None /\
  exists w, table_lookup d (watching (epoll s1)) = Some w.
Proof.
  unfold epoll_control. rewrite Z.eqb_refl.
  destruct (table_lookup d (watching (epoll s))) as [w0|] eqn:Hlook; [discriminate|].
  set (w0 := with_wflags (_epollwatch_new d e) _).
  set (s0 := log _ (EvAdd d)).
  intros Heq. inversion Heq; subst s1. clear Heq. split; [reflexivity|].
  pose proof (check_frame s0) as (_ & _ & _ & _ & Hsw & _).
  pose proof (swept_lookup _ _ _ d Hsw) as Hd.
  change (watching (epoll s0)) with (table_replace (descriptor w0) w0 (watching (epoll s))) in Hd.
  change (descriptor w0) with d in Hd.
  rewrite table_lookup_replace_same in Hd. destruct Hd as (w & Hw & _). now exists w.
Qed.

Lemma control_del_lookup (s s1 : Sim) (d : Z) (ev : option epoll_event) :
  table_wf (watching (epoll s)) ->
  epoll_control s EPOLL_CTL_DEL d ev = Some (s1, 0) ->
  table_lookup d (watching (epoll s1)) = None.
Proof.
  intros [Hnd Hall]. unfold epoll_control.
  change (EPOLL_CTL_DEL =? EPOLL_CTL_ADD) with false.
  change (EPOLL_CTL_DEL =? EPOLL_CTL_MOD) with false.
  rewrite Z.eqb_refl. cbv iota.
  destruct (table_lookup d (watching (epoll s))) as [w|] eqn:Hlook; [|discriminate].
  intros Heq. inversion Heq; subst s1. clear Heq.
  assert (Hd : descriptor w = d).
  { rewrite Forall_forall in Hall. apply (Hall _ (table_lookup_in _ _ _ Hlook)). }
  cbn [epoll watching log set_listeners set_watching set_epoll with_wflags descriptor].
  rewrite Hd. now apply table_lookup_remove_same.
Qed.

(** X10.  Once an ADD of a descriptor has succeeded, another ADD of it is
    refused with [EEXIST], whatever event comes with it, and changes
    nothing. *)
Theorem control_add_twice_exists (s s1 : Sim) (d : Z) (e : epoll_event)
    (ev' : option epoll_event) :
  epoll_control s EPOLL_CTL_ADD d (Some e) = Some (s1, 0) ->
  epoll_control s1 EPOLL_CTL_ADD d ev' = Some (s1, EEXIST).
Proof.
  intros Hadd. destruct (control_add_lookup _ _ _ _ Hadd) as (_ & w & Hw).
  unfold epoll_control. rewrite Z.eqb_refl, Hw. reflexivity.
Qed.

(** X11.  Once a DEL of a descriptor has succeeded, a MOD or another DEL of it
    is refused with [ENOENT] and changes nothing, and the descriptor can be
    added again. *)
Theorem control_after_del (s s1 : Sim) (d : Z) (ev ev' : option epoll_event)
    (e : epoll_event) :
  table_wf (watching (epoll s)) ->
  epoll_control s EPOLL_CTL_DEL d ev = Some (s1, 0) ->
  epoll_control s1 EPOLL_CTL_DEL d ev' = Some (s1, ENOENT) /\
  epoll_control s1 EPOLL_CTL_MOD d ev' = Some (s1, ENOENT) /\
  exists s2, epoll_control s1 EPOLL_CTL_ADD d (Some e) = Some (s2, 0).
Proof.
  intros Hwf Hdel. pose proof (control_del_lookup _ _ _ _ Hwf Hdel) as Hnone.
  unfold epoll_control.
  change (EPOLL_CTL_DEL =? EPOLL_CTL_ADD) with false.
  change (EPOLL_CTL_DEL =? EPOLL_CTL_MOD) with false.
  change (EPOLL_CTL_MOD =? EPOLL_CTL_ADD) with false.
  rewrite !Z.eqb_refl, Hnone. cbv iota.
  split; [reflexivity|]. split; [reflexivity|]. eexists. reflexivity.
Qed.

Lemma table_replace_new d w t :
  table_lookup d t = None -> table_replace d w t = t ++ [(d, w)].
Proof.
  induction t as [|[k w0] t IH]; cbn; [reflexivity|].
  destruct (k =? d); [discriminate|]. intros H. rewrite (IH H). reflexivity.
Qed.

Lemma table_remove_last d w t :
  ~ In d (map fst t) -> table_remove d (t ++ [(d, w)]) = t.
Proof.
  induction t as [|[k w0] t IH]; cbn.
  - rewrite Z.eqb_refl. reflexivity.
  - intros Hnot. destruct (Z.eqb_spec k d) as [->|Hne]; [exfalso; apply Hnot; now left|].
    rewrite IH; [reflexivity|]. intros Hin. apply Hnot. now right.
Qed.

Lemma table_lookup_last d w t :
  ~ In d (map fst t) -> table_lookup d (t ++ [(d, w)]) = Some w.
Proof.
  induction t as [|[k w0] t IH]; cbn.
  - rewrite Z.eqb_refl. reflexivity.
  - intros Hnot. destruct (Z.eqb_spec k d) as [->|Hne]; [exfalso; apply Hnot; now left|].
    apply IH. intros Hin. apply Hnot. now right.
Qed.

Lemma remove_listener_absent d l : ~ In d l -> remove_listener d l = l.
Proof.
  unfold remove_listener. induction l as [|x l IH]; [reflexivity|].
  intros Hnot. cbn [filter]. destruct (Z.eqb_spec x d) as [->|Hne].
  - exfalso. apply Hnot. now left.
  - cbn [negb]. rewrite IH; [reflexivity|]. intros Hin. apply Hnot. now right.
Qed.

(** X12.  ADD followed by DEL of the same descriptor, one the epoll neither
    watched nor listened to, gives back the registrations there were:
    every descriptor is looked up in the table as before, with the watch
    there was (the check made by ADD may have refreshed its status flags),
    the added descriptor is not in the table, and the epoll listens to
    exactly the descriptors it listened to. *)
Theorem control_add_del_roundtrip (s : Sim) (d : Z) (e : epoll_event)
    (ev : option epoll_event) :
  table_lookup d (watching (epoll s)) = None ->
  ~ In d (listeners s) ->
  exists s1 s2,
    epoll_control s EPOLL_CTL_ADD d (Some e) = Some (s1, 0) /\
    epoll_control s1 EPOLL_CTL_DEL d ev = Some (s2, 0) /\
    (forall d',
        match table_lookup d' (watching (epoll s)) with
        | Some w =>
            exists w', table_lookup d' (watching (epoll s2)) = Some w' /\
                       (w' = w \/
                        w' = _epollwatch_updateStatus (status s (descriptor w)) w)
        | None => table_lookup d' (watching (epoll s2)) = None
        end) /\
    forall x, In x (listeners s2) <-> In x (listeners s).
Proof.
  intros Hlook Hnot. unfold epoll_control at 1. rewrite Z.eqb_refl, Hlook.
  set (w0 := with_wflags (_epollwatch_new d e) _).
  set (s0 := log _ (EvAdd d)).
  pose proof (check_frame s0) as (_ & _ & Hl & _ & Hsw & _).
  change (watching (epoll s0)) with (table_replace (descriptor w0) w0 (watching (epoll s))) in Hsw.
  change (descriptor w0) with d in Hsw.
  rewrite table_replace_new in Hsw by assumption.
  unfold swept in Hsw. apply Forall2_app_inv_l in Hsw.
  destruct Hsw as (t1 & tl & Hsw1 & Hswl & Ht1).
  inversion Hswl as [|x [k w] l l' [Hk Hw] Hnil]; subst. inversion Hnil; subst.
  cbn [fst snd] in Hk, Hw. subst k.
  assert (Hdw : descriptor w = d).
  { destruct Hw as [->| ->]; [reflexivity|]. now rewrite updateStatus_descriptor. }
  assert (Hkeys : map fst t1 = map fst (watching (epoll s)))
    by (apply (swept_keys (status s0)); exact Hsw1).
  assert (Hlk : table_lookup d (watching (epoll (_epoll_check s0))) = Some w).
  { rewrite Ht1. apply table_lookup_last. rewrite Hkeys.
    now apply table_lookup_none. }
  exists (_epoll_check s0). eexists. split; [reflexivity|].
  unfold epoll_control.
  change (EPOLL_CTL_DEL =? EPOLL_CTL_ADD) with false.
  change (EPOLL_CTL_DEL =? EPOLL_CTL_MOD) with false.
  rewrite Z.eqb_refl, Hlk. cbv iota. split; [reflexivity|].
  cbn [epoll watching listeners log set_listeners set_watching set_epoll with_wflags
       descriptor].
  rewrite Hdw, Ht1, table_remove_last
    by (rewrite Hkeys; now apply table_lookup_none).
  split; [intros d'; apply (swept_lookup (status s) _ _ d' Hsw1)|].
  rewrite Hl. change (listeners s0) with (add_listener d (listeners s)).
  unfold add_listener.
  destruct (existsb (Z.eqb d) (listeners s)) eqn:Hex.
  - apply existsb_exists in Hex. destruct Hex as (y & Hin & Hy).
    apply Z.eqb_eq in Hy. subst y. contradiction.
  - unfold remove_listener. cbn [filter]. rewrite Z.eqb_refl. cbn [negb].
    match goal with
    | |- forall x, In x ?l <-> _ =>
        assert (Heq : l = listeners s) by now apply remove_listener_absent
    end.
    rewrite Heq. intros x. reflexivity.
Qed.


(** ** What [epoll_getEvents] reports *)

Lemma reported_event_data w : data (reported_event w) = data (event w).
Proof.
  unfold reported_event.
  destruct (has (wflags w) EWF_READABLE && has (wflags w) EWF_WAITINGREAD),
    (has (wflags w) EWF_WRITEABLE && has (wflags w) EWF_WAITINGWRITE),
    (has (wflags w) EWF_EDGETRIGGER); reflexivity.
Qed.

Lemma ready_report_sound st k w t :
  ready_flags (wflags (_epollwatch_updateStatus (st (descriptor w)) w)) = true ->
  report_sound st ((k, w) :: t) (_epollwatch_updateStatus (st (descriptor w)) w)
    (reported_event (_epollwatch_updateStatus (st (descriptor w)) w)).
Proof.
  intros Hr. rewrite ready_flags_eq in Hr.
  rewrite updateStatus_active, updateStatus_closed, updateStatus_watching,
    updateStatus_readable, updateStatus_waitingread, updateStatus_writeable,
    updateStatus_waitingwrite in Hr.
  exists k, w. split; [now left|].
  rewrite updateStatus_descriptor, updateStatus_event, reported_event_data,
    reported_event_in, reported_event_out, reported_event_et, updateStatus_event,
    updateStatus_readable, updateStatus_waitingread, updateStatus_writeable,
    updateStatus_waitingwrite, updateStatus_edgetrigger.
  destruct (has (st (descriptor w)) DS_ACTIVE); [|discriminate].
  destruct (has (st (descriptor w)) DS_CLOSED); [discriminate|].
  destruct (has (wflags w) EWF_WATCHING); [|discriminate].
  do 9 (split; [reflexivity|]).
  destruct (has (st (descriptor w)) DS_READABLE && has (events (event w)) EPOLLIN);
    [now left|].
  destruct (has (st (descriptor w)) DS_WRITABLE && has (events (event w)) EPOLLOUT);
    [now right|discriminate].
Qed.

Lemma report_sound_cons st kw t w e :
  report_sound st t w e -> report_sound st (kw :: t) w e.
Proof.
  intros (k & w0 & Hin & H). exists k, w0. split; [now right|exact H].
Qed.

Lemma collect_loop_sound st t :
  forall i n,
    Forall (fun we => report_sound st t (fst we) (snd we))
           (snd (fst (collect_loop st t i n))).
Proof.
  induction t as [|[k w] t IH]; intros i n; cbn [collect_loop].
  - constructor.
  - destruct (i <? n); [|constructor].
    cbn [_epollwatch_isReady].
    destruct (ready_flags _) eqn:Hr.
    + specialize (IH (i + 1) n).
      destruct (collect_loop st t (i + 1) n) as [[t'' out] i']. cbn [fst snd] in *.
      constructor; [now apply ready_report_sound|].
      eapply Forall_impl; [|exact IH]. intros we. apply report_sound_cons.
    + specialize (IH i n).
      destruct (collect_loop st t i n) as [[t'' out] i']. cbn [fst snd] in *.
      eapply Forall_impl; [|exact IH]. intros we. apply report_sound_cons.
Qed.

Lemma collect_loop_keys st t :
  Forall (fun kw => descriptor (snd kw) = fst kw) t ->
  forall i n,
    let out := snd (fst (collect_loop st t i n)) in
    (forall d, In d (map (fun we => descriptor (fst we)) out) -> In d (map fst t)) /\
    (NoDup (map fst t) -> NoDup (map (fun we => descriptor (fst we)) out)).
Proof.
  intros Hall. induction Hall as [|[k w] t Hk Hall IH]; intros i n; cbn [collect_loop].
  - cbn. split; [tauto|intros _; constructor].
  - cbn [fst snd] in Hk. destruct (i <? n); [|cbn; split; [tauto|intros _; constructor]].
    cbn [_epollwatch_isReady].
    destruct (ready_flags _).
    + specialize (IH (i + 1) n).
      destruct (collect_loop st t (i + 1) n) as [[t'' out] i']. cbn [fst snd map] in *.
      destruct IH as [Hin Hnd]. rewrite updateStatus_descriptor, Hk. split.
      * intros d [Hd|Hd]; [now left|right; now apply Hin].
      * intros H. apply NoDup_cons_iff in H. destruct H as [Hnot H].
        constructor; [|now apply Hnd]. intros Hd. apply Hnot. now apply Hin.
    + specialize (IH i n).
      destruct (collect_loop st t i n) as [[t'' out] i']. cbn [fst snd map] in *.
      destruct IH as [Hin Hnd]. split.
      * intros d Hd. right. now apply Hin.
      * intros H. apply NoDup_cons_iff in H. destruct H as [_ H]. now apply Hnd.
Qed.

Lemma reports_of_os t : forallb is_os_call t = true -> reports_of t = [].
Proof.
  induction t as [|e t IH]; [reflexivity|]. cbn [forallb]. rewrite andb_true_iff.
  intros [He Ht]. destruct e; try discriminate; cbn; auto.
Qed.

Lemma os_epoll_wait_prefix (w : World) (space : Z) :
  firstn (Z.to_nat (fst (os_epoll_wait w space))) (snd (os_epoll_wait w space))
  = firstn (if osWaitFails w then 0%nat else Z.to_nat space) (osEvents w).
Proof.
  unfold os_epoll_wait. destruct (osWaitFails w); [reflexivity|]. cbn [fst snd].
  rewrite Nat2Z.id. apply firstn_all.
Qed.

(** The part of the log a call of [epoll_getEvents] makes, and what the
    call returns, in terms of it. *)
Lemma getEvents_log (s s' : Sim) (n : Z) (c : Collected) :
  epoll_getEvents s n = Some (s', c) ->
  let out := snd (fst (collect_loop (status s) (watching (epoll s)) 0 n)) in
  exists t k,
    trace s' = t ++ trace s /\
    reports_of t = rev (visible out) /\
    (forall w e, In (EvReport w e) t -> In (w, e) out) /\
    eventArray c = map snd out ++ firstn k (osEvents (world s)).
Proof.
  intros Hget. cbv zeta.
  destruct (Z.ltb_spec n 0) as [Hneg|Hpos].
  { rewrite getEvents_negative in Hget by assumption. discriminate. }
  pose proof (getEvents_steps s n Hpos (getEvents_returned _ _ _ _ Hget)) as Hsteps.
  destruct (collect_loop (status s) (watching (epoll s)) 0 n) as [[t0 out] i].
  destruct Hsteps as (s2 & c2 & tos & Hget2 & Harr & _ & _ & _ & Hw & _ & _ & Htr & Hos).
  rewrite Hget2 in Hget. inversion Hget; subst s' c. clear Hget.
  pose proof (check_frame s2) as (_ & _ & _ & _ & _ & tk & Htk & Hck).
  cbn [fst snd].
  exists (tk ++ tos ++ rev (map (fun de => EvReport (fst de) (snd de)) out)),
    (if n - i =? 0 then 0%nat
     else if osWaitFails (world s) then 0%nat else Z.to_nat (n - i)).
  split; [rewrite Htk, Htr, <- !app_assoc; reflexivity|].
  split; [rewrite !reports_of_app, (reports_of_check _ Hck), (reports_of_os _ Hos);
          apply reports_of_logged|].
  split.
  - intros w e Hin. apply in_app_or in Hin. destruct Hin as [Hin|Hin].
    { rewrite forallb_forall in Hck. specialize (Hck _ Hin). discriminate. }
    apply in_app_or in Hin. destruct Hin as [Hin|Hin].
    { rewrite forallb_forall in Hos. specialize (Hos _ Hin). discriminate. }
    apply in_rev, in_map_iff in Hin. destruct Hin as ([w1 e1] & Heq & Hin).
    cbn [fst snd] in Heq. inversion Heq; subst. exact Hin.
  - rewrite Harr. f_equal. destruct (n - i =? 0); [reflexivity|].
    apply os_epoll_wait_prefix.
Qed.

Lemma collect_loop_ready st t :
  forall i n, i <= n ->
    snd (fst (collect_loop st t i n))
    = map (fun w => (w, reported_event w))
          (firstn (Z.to_nat (n - i)) (ready_watches st t)).
Proof.
  induction t as [|[k w] t IH]; intros i n Hle; cbn [collect_loop].
  - unfold ready_watches. cbn. rewrite firstn_nil. reflexivity.
  - destruct (Z.ltb_spec i n) as [Hlt|Hge].
    + unfold ready_watches. cbn [_epollwatch_isReady filter fst snd].
      destruct (ready_flags _) eqn:Hr.
      * specialize (IH (i + 1) n ltac:(lia)).
        destruct (collect_loop st t (i + 1) n) as [[t'' out] i'].
        cbn [fst snd] in *.
        replace (Z.to_nat (n - i)) with (S (Z.to_nat (n - (i + 1)))) by lia.
        cbn [map firstn]. f_equal. exact IH.
      * specialize (IH i n Hle).
        destruct (collect_loop st t i n) as [[t'' out] i'].
        cbn [fst snd] in *. exact IH.
    + replace (n - i) with 0 by lia. reflexivity.
Qed.

(** X13.  What [epoll_getEvents] writes.  First come the events of the
    watches that [_epollwatch_isReady] finds ready, one for each in the
    order the table is iterated, as many as the buffer holds; so every
    ready watch has its event in the buffer when the ready watches fit in
    it.  After them come events of the kernel epoll: as many as fit in the
    space that is left of those pending there, none when the wait fails.
    Every watch that is reported is an entry of the table marked
    [EWF_WATCHING] whose descriptor is active and not closed; its event
    carries the cookie of the subscription, exactly the directions that are
    subscribed and true of the descriptor, at least one of them, and
    [EPOLLET] if subscribed.  The reports in the log are these. *)
Theorem getEvents_reports_ready (s s' : Sim) (n : Z) (c : Collected) :
  epoll_getEvents s n = Some (s', c) ->
  let ready := ready_watches (status s) (watching (epoll s)) in
  let reported := firstn (Z.to_nat n) ready in
  exists t,
    trace s' = t ++ trace s /\
    rev (reports_of t) = map (fun w => (descriptor w, reported_event w)) reported /\
    eventArray c
    = map reported_event reported
      ++ firstn (if osWaitFails (world s) then 0
                 else Z.to_nat n - length reported)%nat
                (osEvents (world s)) /\
    (forall w, In w reported ->
               report_sound (status s) (watching (epoll s)) w (reported_event w)) /\
    (Z.of_nat (length ready) <= n ->
     forall w, In w ready -> In (reported_event w) (eventArray c)).
Proof.
  intros Hget. cbv zeta.
  destruct (Z.ltb_spec n 0) as [Hneg|Hpos].
  { rewrite getEvents_negative in Hget by assumption. discriminate. }
  pose proof (getEvents_steps s n Hpos (getEvents_returned _ _ _ _ Hget)) as Hsteps.
  pose proof (collect_loop_ready (status s) (watching (epoll s)) 0 n Hpos) as Hout.
  pose proof (collect_loop_index (status s) (watching (epoll s)) 0 n) as Hidx.
  pose proof (collect_loop_sound (status s) (watching (epoll s)) 0 n) as Hall.
  destruct (collect_loop (status s) (watching (epoll s)) 0 n) as [[t0 out] i].
  cbn [fst snd] in Hout, Hall. rewrite Z.sub_0_r in Hout.
  destruct Hidx as [Hi _].
  destruct Hsteps as (s2 & c2 & tos & Hget2 & Harr & _ & _ & _ & _ & _ & _ & Htr & Hos).
  rewrite Hget2 in Hget. inversion Hget; subst s' c. clear Hget.
  pose proof (check_frame s2) as (_ & _ & _ & _ & _ & tk & Htk & Hck).
  set (reported := firstn (Z.to_nat n) (ready_watches (status s) (watching (epoll s))))
    in *.
  assert (Hlen : length out = length reported) by (rewrite Hout; apply length_map).
  assert (Harr' : eventArray c2
                  = map reported_event reported
                    ++ firstn (if osWaitFails (world s) then 0
                               else Z.to_nat n - length reported)%nat
                              (osEvents (world s))).
  { rewrite Harr. f_equal; [rewrite Hout, map_map; reflexivity|].
    destruct (Z.eqb_spec (n - i) 0) as [Hfull|Hspace].
    - replace (Z.to_nat n - length reported)%nat with 0%nat by lia.
      now destruct (osWaitFails (world s)).
    - rewrite os_epoll_wait_prefix.
      replace (Z.to_nat (n - i)) with (Z.to_nat n - length reported)%nat by lia.
      reflexivity. }
  exists (tk ++ tos ++ rev (map (fun de => EvReport (fst de) (snd de)) out)).
  split; [rewrite Htk, Htr, <- !app_assoc; reflexivity|].
  split.
  { rewrite !reports_of_app, (reports_of_check _ Hck), (reports_of_os _ Hos),
      reports_of_logged.
    cbn [app]. rewrite rev_involutive. unfold visible. rewrite Hout, map_map. reflexivity. }
  split; [exact Harr'|]. split.
  - intros w Hw. rewrite Forall_forall in Hall.
    apply (Hall (w, reported_event w)). rewrite Hout.
    apply in_map_iff. exists w. split; [reflexivity|exact Hw].
  - intros Hfit w Hw. rewrite Harr'. apply in_or_app. left.
    apply in_map. unfold reported. rewrite firstn_all2 by lia. exact Hw.
Qed.

(** X14.  One call of [epoll_getEvents] reports a descriptor at most once, and
    only descriptors that are registered. *)
Theorem getEvents_reports_distinct (s s' : Sim) (n : Z) (c : Collected) :
  table_wf (watching (epoll s)) ->
  epoll_getEvents s n = Some (s', c) ->
  exists t,
    trace s' = t ++ trace s /\
    NoDup (map fst (reports_of t)) /\
    forall d e, In (d, e) (reports_of t) ->
                table_lookup d (watching (epoll s)) <> None.
Proof.
  intros [Hnd Hall] Hget.
  destruct (getEvents_log _ _ _ _ Hget) as (t & k & Htr & Hrep & _ & _).
  exists t. split; [exact Htr|]. rewrite Hrep.
  assert (Hdesc : Forall (fun kw => descriptor (snd kw) = fst kw) (watching (epoll s)))
    by (eapply Forall_impl; [|exact Hall]; intros kw [H _]; exact H).
  pose proof (collect_loop_keys (status s) _ Hdesc 0 n) as [Hin Hno].
  cbv zeta in Hin, Hno.
  set (out := snd (fst (collect_loop (status s) (watching (epoll s)) 0 n))) in *.
  assert (Hmap : map fst (visible out) = map (fun we => descriptor (fst we)) out)
    by (unfold visible; rewrite map_map; reflexivity).
  split.
  - rewrite map_rev, Hmap. apply NoDup_rev. now apply Hno.
  - intros d e Hde. apply in_rev in Hde.
    apply (in_map fst) in Hde. rewrite Hmap in Hde. cbn [fst] in Hde.
    specialize (Hin _ Hde). intros Hnone. apply table_lookup_none in Hnone. contradiction.
Qed.


(** ** Clearing the listeners *)

Lemma clearWatchListeners_in (t : WatchTable) :
  forall (l : list Z) (x : Z),
    In x (fold_left (fun l kw => remove_listener (descriptor (snd kw)) l) t l) <->
    In x l /\ ~ In x (map (fun kw => descriptor (snd kw)) t).
Proof.
  induction t as [|kw t IH]; intros l x; cbn [fold_left map].
  - cbn. tauto.
  - rewrite IH, in_remove_listener. cbn [In]. intuition congruence.
Qed.

(** X15.  [epoll_clearWatchListeners] takes the epoll off the listeners of
    exactly the descriptors it watches: a descriptor has the epoll as a
    listener afterwards iff it had before and is not watched.  The call
    changes nothing else (the epoll and its table, the statuses, the queue
    and the log are as before), and clearing twice is the same as clearing
    once. *)
Theorem clearWatchListeners_stops_listening (s : Sim) :
  let watched x := In x (map (fun kw => descriptor (snd kw)) (watching (epoll s))) in
  (forall x, In x (listeners (epoll_clearWatchListeners s)) <->
             In x (listeners s) /\ ~ watched x) /\
  epoll (epoll_clearWatchListeners s) = epoll s /\
  status (epoll_clearWatchListeners s) = status s /\
  world (epoll_clearWatchListeners s) = world s /\
  tasks (epoll_clearWatchListeners s) = tasks s /\
  trace (epoll_clearWatchListeners s) = trace s /\
  listeners (epoll_clearWatchListeners (epoll_clearWatchListeners s))
  = listeners (epoll_clearWatchListeners s).
Proof.
  cbv zeta. unfold epoll_clearWatchListeners.
  cbn [listeners epoll status world tasks trace set_listeners watching].
  split; [intros x; apply clearWatchListeners_in|].
  do 5 (split; [reflexivity|]).
  set (l1 := fold_left _ (watching (epoll s)) (listeners s)).
  assert (Hnone : forall x, In x l1 ->
                            ~ In x (map (fun kw => descriptor (snd kw)) (watching (epoll s))))
    by (intros x Hx; now apply clearWatchListeners_in in Hx).
  clearbody l1. revert l1 Hnone.
  induction (watching (epoll s)) as [|kw t IH]; intros l1 Hnone; cbn [fold_left];
    [reflexivity|].
  rewrite remove_listener_absent.
  - apply IH. intros x Hx Hin. apply (Hnone x Hx). now right.
  - intros Hin. apply (Hnone _ Hin). now left.
Qed.

(** ** A new epoll *)

(** X16.  A new epoll is active and nothing else, has no flag set and watches
    nothing: MOD and DEL of any descriptor are refused with [ENOENT], an
    ADD with an event is accepted, and a collect returns nothing but a
    prefix of the events pending on the kernel epoll. *)
Theorem epoll_new_empty (handle osfd : Z) (st : Z -> Z) (w : World) :
  let s := mkSim (epoll_new handle osfd) st w [] 0 [] in
  superStatus (epoll s) = DS_ACTIVE /\ flags (epoll s) = 0 /\
  superHandle (epoll s) = handle /\ osEpollDescriptor (epoll s) = osfd /\
  any_ready st (watching (epoll s)) = false /\
  (forall d ev, epoll_control s EPOLL_CTL_MOD d ev = Some (s, ENOENT)) /\
  (forall d ev, epoll_control s EPOLL_CTL_DEL d ev = Some (s, ENOENT)) /\
  (forall d e, exists s', epoll_control s EPOLL_CTL_ADD d (Some e) = Some (s', 0)) /\
  (forall n s' c, epoll_getEvents s n = Some (s', c) ->
                  exists k, eventArray c = firstn k (osEvents w) /\
                            watching (epoll s') = []).
Proof.
  cbv zeta. set (s := mkSim (epoll_new handle osfd) st w [] 0 []).
  split; [reflexivity|]. do 4 (split; [reflexivity|]).
  split; [reflexivity|]. split; [reflexivity|].
  split; [intros d e; eexists; reflexivity|].
  intros n s' c Hget.
  destruct (getEvents_log s s' n c Hget) as (t & k & _ & _ & _ & Harr).
  change (watching (epoll s)) with (@nil (Z * EpollWatch)) in Harr.
  cbn [collect_loop fst snd map app] in Harr.
  exists k. split; [exact Harr|].
  destruct (Z.ltb_spec n 0) as [Hneg|Hpos].
  { rewrite getEvents_negative in Hget by assumption. discriminate. }
  pose proof (getEvents_steps s n Hpos (getEvents_returned _ _ _ _ Hget)) as Hsteps.
  change (watching (epoll s)) with (@nil (Z * EpollWatch)) in Hsteps.
  cbn [collect_loop] in Hsteps.
  destruct Hsteps as (s2 & c2 & tos & Hget2 & _ & _ & Hep & _).
  rewrite Hget2 in Hget. inversion Hget; subst s' c. clear Hget.
  pose proof (check_frame s2) as (_ & _ & _ & _ & Hsw & _).
  rewrite Hep in Hsw. cbn in Hsw. inversion Hsw. reflexivity.
Qed.


(** ** The table, the listeners and the log stay in line *)

Lemma registered_neutral d ts tr :
  forallb is_ledger_neutral ts = true -> registered d (ts ++ tr) = registered d tr.
Proof.
  induction ts as [|e ts IH]; [reflexivity|]. cbn [forallb app].
  rewrite andb_true_iff. intros [He Hts]. destruct e; try discriminate; cbn; auto.
Qed.

Lemma log_ok_neutral ts tr :
  forallb is_ledger_neutral ts = true -> log_ok tr -> log_ok (ts ++ tr).
Proof.
  induction ts as [|e ts IH]; [intros _ H; exact H|]. cbn [forallb app].
  rewrite andb_true_iff. intros [He Hts] H. destruct e; try discriminate; cbn; auto.
Qed.

Lemma finalize_free_suffix ts tr :
  existsb is_finalize (ts ++ tr) = false -> existsb is_finalize tr = false.
Proof. rewrite existsb_app. intros H. apply orb_false_iff in H. apply H. Qed.

Lemma check_events_neutral t :
  forallb is_check_event t = true -> forallb is_ledger_neutral t = true.
Proof.
  intros H. apply forallb_forall. intros e Hin. rewrite forallb_forall in H.
  specialize (H e Hin). destruct e; try discriminate; reflexivity.
Qed.

Lemma os_calls_neutral t :
  forallb is_os_call t = true -> forallb is_ledger_neutral t = true.
Proof.
  intros H. apply forallb_forall. intros e Hin. rewrite forallb_forall in H.
  specialize (H e Hin). destruct e; try discriminate; reflexivity.
Qed.

Lemma same_identity_refl t : same_identity t t.
Proof. induction t; constructor; auto. Qed.

Lemma same_identity_keys t t' : same_identity t t' -> map fst t' = map fst t.
Proof.
  intros H. induction H as [|x y t t' (Hk & _) _ IH]; [reflexivity|].
  cbn. now rewrite Hk, IH.
Qed.

Lemma same_identity_Forall t t' :
  same_identity t t' ->
  Forall (fun kw => descriptor (snd kw) = fst kw /\ referenceCount (snd kw) = 1) t ->
  Forall (fun kw => descriptor (snd kw) = fst kw /\ referenceCount (snd kw) = 1) t'.
Proof.
  intros H. induction H as [|x y t t' (Hk & Hd & Hr) _ IH]; [constructor|].
  intros Hall. apply Forall_cons_iff in Hall. destruct Hall as [[Hx1 Hx2] Hall].
  constructor; [split; congruence|now apply IH].
Qed.

Lemma swept_same_identity st t t' : swept st t t' -> same_identity t t'.
Proof.
  intros H. induction H as [|x y t t' (Hk & Hw) _ IH]; constructor; [|exact IH].
  split; [exact Hk|]. destruct Hw as [->| ->]; split; reflexivity.
Qed.

Lemma mark_collected_refcount w : referenceCount (mark_collected w) = referenceCount w.
Proof.
  unfold mark_collected, with_wflags. cbn [wflags].
  destruct (has _ EWF_EDGETRIGGER); cbn [wflags];
    destruct (has _ EWF_ONESHOT); reflexivity.
Qed.

Lemma collect_loop_same_identity st t :
  forall i n, same_identity t (fst (fst (collect_loop st t i n))).
Proof.
  induction t as [|[k w] t IH]; intros i n; cbn [collect_loop].
  - constructor.
  - destruct (i <? n); [|apply same_identity_refl].
    cbn [_epollwatch_isReady]. destruct (ready_flags _).
    + specialize (IH (i + 1) n).
      destruct (collect_loop st t (i + 1) n) as [[t'' out] i']. cbn [fst snd] in *.
      constructor; [|exact IH]. cbn [fst snd].
      rewrite mark_collected_descriptor, mark_collected_refcount. repeat split.
    + specialize (IH i n).
      destruct (collect_loop st t i n) as [[t'' out] i']. cbn [fst snd] in *.
      constructor; [|exact IH]. repeat split.
Qed.

Lemma ledger_frame t t' l ts tr :
  same_identity t t' -> forallb is_ledger_neutral ts = true ->
  ledger t l tr -> ledger t' l (ts ++ tr).
Proof.
  intros Hsi Hn (Hnd & Hall & Hreg & Hok & Hl & Hfin). unfold ledger.
  rewrite (same_identity_keys _ _ Hsi).
  split; [exact Hnd|]. split; [now apply (same_identity_Forall t)|].
  split; [intros d; rewrite registered_neutral by assumption; apply Hreg|].
  split; [now apply log_ok_neutral|]. split; [exact Hl|].
  intros H. apply Hfin. now apply finalize_free_suffix in H.
Qed.

Lemma ledger_report t l tr w e :
  In (descriptor w) (map fst t) -> ledger t l tr -> ledger t l (EvReport w e :: tr).
Proof.
  intros Hin (Hnd & Hall & Hreg & Hok & Hl & Hfin). unfold ledger.
  split; [exact Hnd|]. split; [exact Hall|]. split; [exact Hreg|].
  split; [split; [now apply Hreg|exact Hok]|]. split; [exact Hl|exact Hfin].
Qed.

Lemma ledger_reports t l (out : list (EpollWatch * epoll_event)) :
  (forall we, In we out -> In (descriptor (fst we)) (map fst t)) ->
  forall tr, ledger t l tr ->
             ledger t l (rev (map (fun de => EvReport (fst de) (snd de)) out) ++ tr).
Proof.
  induction out as [|[w e] out IH]; intros Hin tr Hled; [exact Hled|].
  cbn [map rev fst snd]. rewrite <- app_assoc. apply IH.
  - intros we Hwe. apply Hin. now right.
  - apply ledger_report; [|exact Hled]. apply (Hin (w, e)). now left.
Qed.

Lemma ledger_add t l tr d w :
  table_lookup d t = None -> descriptor w = d -> referenceCount w = 1 ->
  ledger t l tr -> ledger (table_replace d w t) (add_listener d l) (EvAdd d :: tr).
Proof.
  intros Hlook Hd Hr (Hnd & Hall & Hreg & Hok & Hl & Hfin). unfold ledger.
  pose proof (table_lookup_none _ _ Hlook) as Hnot.
  rewrite table_replace_new by assumption. rewrite map_app. cbn [map fst].
  split.
  { apply NoDup_app; [exact Hnd|repeat constructor; intros []|].
    intros x Hin [<-|[]]. contradiction. }
  split.
  { apply Forall_app. split; [exact Hall|]. constructor; [split; assumption|constructor]. }
  split.
  { intros d'. cbn [registered]. rewrite in_app_iff. cbn [In].
    destruct (Z.eqb_spec d d') as [->|Hne].
    - split; [intros _; right; now left|reflexivity].
    - rewrite Hreg. split; [now left|]. intros [H|[H|[]]]; [exact H|contradiction]. }
  split.
  { cbn [log_ok]. split; [|exact Hok].
    destruct (registered d tr) eqn:E; [|reflexivity]. apply Hreg in E. contradiction. }
  split.
  { intros x Hx. apply in_add_listener in Hx. apply in_app_iff.
    destruct Hx as [->|Hx]; [right; now left|left; now apply Hl]. }
  intros Hno x Hx. apply in_add_listener. apply in_app_iff in Hx.
  destruct Hx as [Hx|[<-|[]]]; [right; now apply Hfin|now left].
Qed.

Lemma table_replace_present d w w0 t :
  table_lookup d t = Some w0 -> map fst (table_replace d w t) = map fst t.
Proof.
  intros Hlook. rewrite table_replace_keys, table_lookup_existsb, Hlook. reflexivity.
Qed.

Lemma ledger_mod t l tr d w w' :
  table_lookup d t = Some w ->
  descriptor w' = descriptor w -> referenceCount w' = referenceCount w ->
  ledger t l tr -> ledger (table_replace d w' t) l (EvMod d :: tr).
Proof.
  intros Hlook Hd Hr (Hnd & Hall & Hreg & Hok & Hl & Hfin). unfold ledger.
  rewrite (table_replace_present _ _ _ _ Hlook).
  pose proof (table_lookup_in _ _ _ Hlook) as Hin.
  split; [exact Hnd|]. split.
  { apply table_replace_Forall; [exact Hall|].
    rewrite Forall_forall in Hall. destruct (Hall _ Hin) as [H1 H2].
    cbn [fst snd] in *. split; congruence. }
  split; [exact Hreg|].
  split; [split; [apply Hreg; apply (in_map fst _ _ Hin)|exact Hok]|].
  split; [exact Hl|exact Hfin].
Qed.

Lemma table_remove_keys_iff d t k :
  NoDup (map fst t) ->
  (In k (map fst (table_remove d t)) <-> k <> d /\ In k (map fst t)).
Proof.
  induction t as [|[k0 w0] t IH]; cbn; [tauto|].
  intros Hnd. apply NoDup_cons_iff in Hnd. destruct Hnd as [Hnot Hnd].
  destruct (Z.eqb_spec k0 d) as [->|Hne]; cbn.
  - split.
    + intros Hin. split; [|now right]. intros ->. contradiction.
    + intros [Hk [H|H]]; [congruence|exact H].
  - rewrite (IH Hnd). split.
    + intros [<-|[H1 H2]]; [split; [exact Hne|now left]|split; [exact H1|now right]].
    + intros [H1 [H|H]]; [now left|right; split; assumption].
Qed.

Lemma ledger_del t l tr d w :
  table_lookup d t = Some w ->
  ledger t l tr -> ledger (table_remove d t) (remove_listener d l) (EvDel d :: tr).
Proof.
  intros Hlook (Hnd & Hall & Hreg & Hok & Hl & Hfin). unfold ledger.
  pose proof (in_map fst _ _ (table_lookup_in _ _ _ Hlook)) as Hin. cbn [fst] in Hin.
  split; [now apply table_remove_NoDup|].
  split; [now apply table_remove_Forall|].
  split.
  { intros d'. cbn [registered]. rewrite table_remove_keys_iff by assumption.
    destruct (Z.eqb_spec d d') as [->|Hne].
    - split; [discriminate|intros [H _]; now destruct H].
    - rewrite Hreg. split; [intros H; split; [congruence|exact H]|tauto]. }
  split; [split; [now apply Hreg|exact Hok]|].
  split.
  { intros x Hx. apply in_remove_listener in Hx. destruct Hx as [Hne Hx].
    apply table_remove_keys_iff; [exact Hnd|]. split; [exact Hne|now apply Hl]. }
  intros Hno x Hx. apply table_remove_keys_iff in Hx; [|exact Hnd].
  destruct Hx as [Hne Hx]. apply in_remove_listener. split; [exact Hne|now apply Hfin].
Qed.

Lemma ledger_finalize t l l' tr :
  (forall x, In x l' -> In x l) -> ledger t l tr -> ledger t l' (EvFinalize :: tr).
Proof.
  intros Hsub (Hnd & Hall & Hreg & Hok & Hl & Hfin). unfold ledger.
  split; [exact Hnd|]. split; [exact Hall|]. split; [exact Hreg|]. split; [exact Hok|].
  split; [intros x Hx; apply Hl, Hsub, Hx|discriminate].
Qed.

Lemma ledger_frame_sim (s s' : Sim) :
  same_identity (watching (epoll s)) (watching (epoll s')) ->
  listeners s' = listeners s ->
  (exists ts, trace s' = ts ++ trace s /\ forallb is_ledger_neutral ts = true) ->
  ledger_sim s -> ledger_sim s'.
Proof.
  intros Hsi Hl (ts & Htr & Hn) H. unfold ledger_sim. rewrite Hl, Htr.
  now apply (ledger_frame (watching (epoll s))).
Qed.

Lemma ledger_check (s : Sim) : ledger_sim s -> ledger_sim (_epoll_check s).
Proof.
  pose proof (check_frame s) as (_ & _ & Hl & _ & Hsw & t & Htr & Hck).
  apply ledger_frame_sim; [now apply (swept_same_identity (status s))|exact Hl|].
  exists t. split; [exact Htr|now apply check_events_neutral].
Qed.

Lemma ledger_isReadyOS (s : Sim) : ledger_sim s -> ledger_sim (fst (_epoll_isReadyOS s)).
Proof.
  pose proof (isReadyOS_frame s) as (He & _ & _ & Hl & _ & t & Htr & Hck & _).
  apply ledger_frame_sim; [rewrite He; apply same_identity_refl|exact Hl|].
  exists t. split; [exact Htr|now apply check_events_neutral].
Qed.

Lemma ledger_getChildrenStatus (s : Sim) :
  ledger_sim s -> ledger_sim (_epoll_getChildrenStatus s).
Proof.
  apply ledger_frame_sim.
  - apply (swept_same_identity (status s)), notify_loop_swept.
  - reflexivity.
  - exists []. split; reflexivity.
Qed.

Lemma ledger_close (s : Sim) : ledger_sim s -> ledger_sim (_epoll_close s).
Proof.
  intros H. unfold ledger_sim, _epoll_close, epoll_clearWatchListeners.
  cbn [epoll watching listeners trace log set_listeners].
  apply (ledger_finalize _ (listeners s)); [|exact H].
  intros x Hx. now apply clearWatchListeners_in in Hx.
Qed.

Lemma ledger_logged (s : Sim) (e : Event) :
  is_ledger_neutral e = true -> ledger_sim s -> ledger_sim (log s e).
Proof.
  intros He. apply ledger_frame_sim; [apply same_identity_refl|reflexivity|].
  exists [e]. split; [reflexivity|]. cbn. now rewrite He.
Qed.

Lemma ledger_tryToClose (s : Sim) : ledger_sim s -> ledger_sim (_epoll_tryToClose s).
Proof.
  intros H. unfold _epoll_tryToClose.
  set (s1 := set_flags (log s EvCloseCall) _).
  assert (H1 : ledger_sim s1) by (apply (ledger_logged s EvCloseCall eq_refl H)).
  destruct (negb _); [now apply ledger_close|exact H1].
Qed.

Lemma ledger_control (s s' : Sim) operation d ev r :
  ledger_sim s -> epoll_control s operation d ev = Some (s', r) -> ledger_sim s'.
Proof.
  intros Hled. revert s' r.
  control_cases s operation d ev; intros s' r Hc; inversion Hc; subst; try exact Hled;
    try (match goal with |- ledger_sim (log _ (EvDel _)) => idtac end;
         unfold ledger_sim;
         cbn [epoll watching listeners trace log set_listeners set_watching set_epoll
              with_wflags descriptor];
         assert (Hd : descriptor w0 = d)
           by (destruct Hled as (_ & Hall & _); rewrite Forall_forall in Hall;
               apply (Hall _ (table_lookup_in _ _ _ Hlook)));
         rewrite Hd; now apply (ledger_del _ _ _ _ w0)).
  - apply ledger_check. unfold ledger_sim.
    cbn [epoll watching listeners trace log set_listeners set_watching set_epoll
         with_wflags _epollwatch_new descriptor].
    apply ledger_add; [exact Hlook|reflexivity|reflexivity|exact Hled].
  - apply ledger_check. unfold ledger_sim.
    cbn [epoll watching listeners trace log set_listeners set_watching set_epoll].
    apply (ledger_mod _ _ _ _ w0); [exact Hlook|reflexivity|reflexivity|exact Hled].
Qed.


Lemma ledger_getEvents (s s' : Sim) (n : Z) (c : Collected) :
  ledger_sim s -> epoll_getEvents s n = Some (s', c) -> ledger_sim s'.
Proof.
  intros Hled Hget.
  destruct (Z.ltb_spec n 0) as [Hneg|Hpos].
  { rewrite getEvents_negative in Hget by assumption. discriminate. }
  pose proof (getEvents_steps s n Hpos (getEvents_returned _ _ _ _ Hget)) as Hsteps.
  pose proof (collect_loop_same_identity (status s) (watching (epoll s)) 0 n) as Hsi.
  assert (Hdesc : Forall (fun kw => descriptor (snd kw) = fst kw) (watching (epoll s))).
  { destruct Hled as (_ & Hall & _). eapply Forall_impl; [|exact Hall].
    intros kw [H _]. exact H. }
  pose proof (collect_loop_keys (status s) _ Hdesc 0 n) as [Hkeys _]. cbv zeta in Hkeys.
  destruct (collect_loop (status s) (watching (epoll s)) 0 n) as [[t out] i].
  cbn [fst snd] in Hsi, Hkeys.
  destruct Hsteps as (s2 & c2 & tos & Hget2 & _ & _ & Hep & _ & _ & Hl & _ & Htr & Hos).
  rewrite Hget2 in Hget. inversion Hget; subst s' c. clear Hget.
  apply ledger_check. unfold ledger_sim. rewrite Hep, Hl, Htr.
  cbn [epoll watching set_watching set_epoll].
  apply (ledger_frame t); [apply same_identity_refl|now apply os_calls_neutral|].
  apply ledger_reports.
  - intros we Hwe. rewrite (same_identity_keys _ _ Hsi). apply Hkeys.
    apply (in_map (fun we => descriptor (fst we)) _ _ Hwe).
  - apply (ledger_frame (watching (epoll s)) t (listeners s) []);
      [exact Hsi|reflexivity|exact Hled].
Qed.

Lemma ledger_app_step (s s' : Sim) (a : AppOp) :
  ledger_sim s -> app_step s a = Some s' -> ledger_sim s'.
Proof.
  intros Hled. destruct a as [operation d ev|n| |d new|w]; cbn [app_step].
  - destruct (epoll_control s operation d ev) as [[s1 r]|] eqn:Hc; [|discriminate].
    cbn. intros Heq. inversion Heq; subst. eapply ledger_control; eassumption.
  - destruct (epoll_getEvents s n) as [[s1 c]|] eqn:Hg; [|discriminate].
    cbn. intros Heq. inversion Heq; subst. eapply ledger_getEvents; eassumption.
  - intros Heq. inversion Heq; subst. now apply ledger_tryToClose.
  - set (s1 := log (set_status s (fun x => if x =? d then new else status s x))
                 (EvStatus d (status s d) new)).
    assert (H1 : ledger_sim s1)
      by (apply (ledger_logged (set_status s (fun x => if x =? d then new else status s x))
                   (EvStatus d (status s d) new) eq_refl); exact Hled).
    destruct (existsb (Z.eqb d) (listeners s1)).
    + unfold epoll_descriptorStatusChanged.
      destruct (table_lookup d (watching (epoll s1))) as [w|]; [|discriminate].
      destruct (descriptor w =? d); [|discriminate].
      intros Heq. inversion Heq; subst. now apply ledger_check.
    + intros Heq. inversion Heq; subst. exact H1.
  - intros Heq. inversion Heq; subst. exact Hled.
Qed.

Lemma ledger_process_continue (continuation : list AppOp) :
  forall s s', ledger_sim s -> process_continue s continuation = Some s' -> ledger_sim s'.
Proof.
  induction continuation as [|a rest IH]; intros s s' Hled; cbn.
  - intros Heq. inversion Heq; subst. exact Hled.
  - destruct (app_step s a) as [s1|] eqn:Hstep; [|discriminate].
    apply IH. eapply ledger_app_step; eassumption.
Qed.

Lemma ledger_tryNotify (s s' : Sim) (continuation : list AppOp) :
  ledger_sim s -> _epoll_tryNotify s continuation = Some s' -> ledger_sim s'.
Proof.
  intros Hled. unfold _epoll_tryNotify.
  set (s0 := set_flags (log s EvTaskRun) _).
  assert (H0 : ledger_sim s0) by (apply (ledger_logged s EvTaskRun eq_refl Hled)).
  destruct (_ || _).
  { intros Heq. inversion Heq; subst. now apply ledger_close. }
  pose proof (notify_loop_swept (status s0) (watching (epoll s0))) as Hsw.
  destruct (notify_loop (status s0) (watching (epoll s0))) as [t r]. cbn [fst] in Hsw.
  assert (H1 : ledger_sim (set_watching s0 t)).
  { apply (ledger_frame_sim s0); [|reflexivity| |exact H0].
    - apply (swept_same_identity (status s0)). exact Hsw.
    - exists []. split; reflexivity. }
  assert (H2 : forall s2 r2,
             (if negb r then _epoll_isReadyOS (set_watching s0 t)
              else (set_watching s0 t, r)) = (s2, r2) -> ledger_sim s2).
  { intros s2 r2. destruct (negb r).
    - intros Heq. pose proof (ledger_isReadyOS _ H1) as H. rewrite Heq in H. exact H.
    - intros Heq. inversion Heq; subst. exact H1. }
  destruct (if negb r then _ else _) as [s2 r2]. specialize (H2 _ _ eq_refl).
  destruct r2; [|intros Heq; inversion Heq; subst; exact H2].
  destruct (wantsNotify (world s2)); [|discriminate].
  set (s3 := if DEBUG then _epoll_getChildrenStatus s2 else s2).
  assert (H3 : ledger_sim s3)
    by (unfold s3; destruct DEBUG; [apply ledger_getChildrenStatus|]; exact H2).
  destruct (process_continue _ continuation) as [s4|] eqn:Hcont; [|discriminate].
  assert (H4 : ledger_sim s4).
  { eapply ledger_process_continue; [|exact Hcont].
    apply (ledger_logged (set_flags s3 _) EvContinue eq_refl). exact H3. }
  intros Heq. inversion Heq; subst. apply ledger_check.
  set (s5 := set_flags (log s4 EvReturn) _).
  assert (H5 : ledger_sim s5) by (apply (ledger_logged s4 EvReturn eq_refl H4)).
  destruct DEBUG; [apply ledger_getChildrenStatus|]; exact H5.
Qed.

Lemma run_ledger (ops : list SimOp) :
  forall s s', ledger_sim s -> run s ops = Some s' -> ledger_sim s'.
Proof.
  induction ops as [|o rest IH]; intros s s' Hled; cbn.
  - intros Heq. inversion Heq; subst. exact Hled.
  - destruct (sim_step s o) as [s1|] eqn:Hstep; [|discriminate].
    apply IH. destruct o as [a|continuation]; cbn in Hstep.
    + eapply ledger_app_step; eassumption.
    + destruct (tasks s) as [|n] eqn:Ht.
      * inversion Hstep; subst. exact Hled.
      * eapply ledger_tryNotify; [|exact Hstep]. exact Hled.
Qed.

Lemma ledger_initial (s : Sim) :
  watching (epoll s) = [] -> listeners s = [] -> trace s = [] -> ledger_sim s.
Proof.
  intros Hw Hl Ht. unfold ledger_sim, ledger. rewrite Hw, Hl, Ht. cbn.
  split; [constructor|]. split; [constructor|].
  split; [intros d; split; [discriminate|intros []]|].
  split; [exact I|]. split; [intros d []|intros _ d []].
Qed.


(** ** References to watches *)

(** X17.  Taking a reference to a watch and giving it back leaves the watch as
    it was, and frees nothing, provided the watch was referenced and the
    counter does not overflow. *)
Theorem epollwatch_ref_unref_roundtrip (w : EpollWatch) :
  0 < referenceCount w < G_MAXINT ->
  exists w1,
    _epollwatch_ref w = Some w1 /\
    referenceCount w1 = referenceCount w + 1 /\
    _epollwatch_unref w1 = Some (Some w, []).
Proof.
  intros [Hpos Hmax]. unfold _epollwatch_ref.
  destruct (Z.ltb_spec (referenceCount w) G_MAXINT) as [_|Hge]; [|lia].
  eexists. split; [reflexivity|]. split; [reflexivity|].
  unfold _epollwatch_unref, with_referenceCount. cbn [referenceCount descriptor event wflags].
  destruct (Z.ltb_spec G_MININT (referenceCount w + 1)) as [_|Hle];
    [|unfold G_MININT in Hle; lia].
  destruct (Z.leb_spec (referenceCount w + 1 - 1) 0) as [Hle|_]; [lia|].
  destruct w as [d e f r]. cbn [referenceCount descriptor event wflags].
  replace (r + 1 - 1) with r by lia. reflexivity.
Qed.

Lemma unref_single (w : EpollWatch) :
  referenceCount w = 1 -> _epollwatch_unref w = Some (None, [descriptor w]).
Proof. intros H. unfold _epollwatch_unref. rewrite H. reflexivity. Qed.

Lemma destroy_table_single (t : WatchTable) :
  Forall (fun kw => descriptor (snd kw) = fst kw /\ referenceCount (snd kw) = 1) t ->
  destroy_table t = Some (map fst t, []).
Proof.
  intros H. induction H as [|[k w] t [Hd Hr] _ IH]; [reflexivity|].
  cbn [fst snd] in Hd, Hr. cbn [destroy_table map fst].
  rewrite (unref_single w Hr), IH, Hd. reflexivity.
Qed.

Lemma log_balance (d : Z) (tr : list Event) :
  log_ok tr ->
  count (is_add d) tr
  = (count (is_del d) tr + if registered d tr then 1 else 0)%nat.
Proof.
  unfold count. induction tr as [|e tr IH]; [reflexivity|].
  destruct e; cbn [log_ok filter is_add is_del registered]; try exact IH;
    try (intros [_ Hok]; exact (IH Hok)).
  - intros [Hreg Hok]. specialize (IH Hok).
    destruct (Z.eqb_spec d0 d) as [->|Hne]; [|exact IH].
    rewrite Hreg in IH. cbn [length]. lia.
  - intros [Hreg Hok]. specialize (IH Hok).
    destruct (Z.eqb_spec d0 d) as [->|Hne]; [|exact IH].
    rewrite Hreg in IH. cbn [length]. lia.
Qed.

Lemma table_lookup_some d t : In d (map fst t) -> exists w, table_lookup d t = Some w.
Proof.
  induction t as [|[k w] t IH]; cbn; [tauto|].
  destruct (Z.eqb_spec k d) as [->|Hne]; [intros _; now exists w|].
  intros [H|H]; [contradiction|now apply IH].
Qed.

(** X18.  From a new epoll on, every watch of the table holds exactly one
    reference.  So the watch a DEL takes out of the table is freed and its
    descriptor unreferenced; [_epoll_free] frees every remaining watch,
    unreferences each watched descriptor exactly once and closes the
    kernel epoll; and for every descriptor the references taken (one with
    each successful ADD) are those given back (one with each successful
    DEL, one more at [_epoll_free] if it is still watched). *)
Theorem run_watch_references (s s' : Sim) (ops : list SimOp) :
  watching (epoll s) = [] -> listeners s = [] -> trace s = [] ->
  run s ops = Some s' ->
  (forall d w, table_lookup d (watching (epoll s')) = Some w ->
               referenceCount w = 1 /\ _epollwatch_unref w = Some (None, [d])) /\
  (exists f,
      _epoll_free (epoll s') = Some f /\
      unreferenced f = map fst (watching (epoll s')) /\
      NoDup (unreferenced f) /\ surviving f = [] /\
      closedDescriptor f = osEpollDescriptor (epoll s') /\
      forall d, count (is_add d) (trace s')
                = (count (is_del d) (trace s')
                   + count_occ Z.eq_dec (unreferenced f) d)%nat).
Proof.
  intros Hw Hl Ht Hrun.
  pose proof (run_ledger ops s s' (ledger_initial s Hw Hl Ht) Hrun)
    as (Hnd & Hall & Hreg & Hok & _ & _).
  split.
  - intros d w Hlook. pose proof (table_lookup_in _ _ _ Hlook) as Hin.
    rewrite Forall_forall in Hall. destruct (Hall _ Hin) as [Hd Hr].
    cbn [fst snd] in Hd, Hr. split; [exact Hr|]. rewrite <- Hd. now apply unref_single.
  - unfold _epoll_free. rewrite (destroy_table_single _ Hall).
    eexists. split; [reflexivity|]. cbn [unreferenced surviving closedDescriptor].
    split; [reflexivity|]. split; [exact Hnd|]. split; [reflexivity|].
    split; [reflexivity|].
    intros d. rewrite (log_balance d _ Hok). f_equal.
    destruct (registered d (trace s')) eqn:E.
    + apply Hreg in E. symmetry. now apply NoDup_count_occ'.
    + symmetry. apply count_occ_not_In. intros Hin. apply Hreg in Hin. congruence.
Qed.

(** ** The epoll listens to what it watches *)

(** X19.  From a new epoll on, the epoll is a listener of watched descriptors
    only, so the assertion of [epoll_descriptorStatusChanged] holds
    whenever a descriptor calls back: the call returns and amounts to
    [_epoll_check].  And as long as the epoll was not finalized, it
    listens to every descriptor it watches. *)
Theorem run_listeners_are_watched (s s' : Sim) (ops : list SimOp) :
  watching (epoll s) = [] -> listeners s = [] -> trace s = [] ->
  run s ops = Some s' ->
  (forall d, In d (listeners s') ->
             epoll_descriptorStatusChanged s' d = Some (_epoll_check s')) /\
  (existsb is_finalize (trace s') = false ->
   forall d, table_lookup d (watching (epoll s')) <> None -> In d (listeners s')).
Proof.
  intros Hw Hl Ht Hrun.
  pose proof (run_ledger ops s s' (ledger_initial s Hw Hl Ht) Hrun)
    as (Hnd & Hall & _ & _ & Hlis & Hfin).
  split.
  - intros d Hd. destruct (table_lookup_some _ _ (Hlis _ Hd)) as (w & Hlook).
    unfold epoll_descriptorStatusChanged, utility_assert. rewrite Hlook.
    rewrite Forall_forall in Hall.
    destruct (Hall _ (table_lookup_in _ _ _ Hlook)) as [Hdw _]. cbn [fst snd] in Hdw.
    rewrite Hdw, Z.eqb_refl. reflexivity.
  - intros Hno d Hlook. apply (Hfin Hno).
    destruct (table_lookup d (watching (epoll s'))) as [w|] eqn:E; [|congruence].
    apply (in_map fst _ _ (table_lookup_in _ _ _ E)).
Qed.

(** ** No report without a registration *)

Lemma log_ok_suffix t tr : log_ok (t ++ tr) -> log_ok tr.
Proof.
  induction t as [|e t IH]; [auto|]. destruct e; cbn; try exact IH; tauto.
Qed.

Lemma registered_after_del d t1 t0 :
  registered d (t1 ++ EvDel d :: t0) = true -> In (EvAdd d) t1.
Proof.
  induction t1 as [|e t1 IH]; cbn [app registered].
  - rewrite Z.eqb_refl. discriminate.
  - destruct e; try (intros H; right; now apply IH).
    + destruct (Z.eqb_spec d0 d) as [->|Hne]; [intros _; now left|].
      intros H. right. now apply IH.
    + destruct (Z.eqb_spec d0 d) as [->|Hne]; [discriminate|].
      intros H. right. now apply IH.
Qed.

(** X20.  From a new epoll on, a descriptor is reported only while it is
    registered: before every report, the latest of the ADDs and DELs of
    its descriptor is an ADD.  In particular, after a successful DEL a
    descriptor is not reported again unless it was added again. *)
Theorem run_reports_only_registered (s s' : Sim) (ops : list SimOp) :
  watching (epoll s) = [] -> listeners s = [] -> trace s = [] ->
  run s ops = Some s' ->
  (forall (t2 t1 : list Event) (w : EpollWatch) (e : epoll_event),
      trace s' = t2 ++ EvReport w e :: t1 ->
      registered (descriptor w) t1 = true) /\
  (forall (t2 t1 t0 : list Event) (w : EpollWatch) (e : epoll_event),
      trace s' = t2 ++ EvReport w e :: t1 ++ EvDel (descriptor w) :: t0 ->
      In (EvAdd (descriptor w)) t1).
Proof.
  intros Hw Hl Ht Hrun.
  pose proof (run_ledger ops s s' (ledger_initial s Hw Hl Ht) Hrun)
    as (_ & _ & _ & Hok & _ & _).
  assert (H1 : forall t2 t1 w e, trace s' = t2 ++ EvReport w e :: t1 ->
                                 registered (descriptor w) t1 = true).
  { intros t2 t1 w e Htr. rewrite Htr in Hok. apply log_ok_suffix in Hok.
    cbn [log_ok] in Hok. apply Hok. }
  split; [exact H1|].
  intros t2 t1 t0 w e Htr. apply (registered_after_del _ _ t0). now apply (H1 t2 _ w e).
Qed.


(** ** Refreshing a watch twice *)

Lemma updateStatus_high st w i :
  13 <= i -> Z.testbit (wflags (_epollwatch_updateStatus st w)) i = false.
Proof.
  intros Hi. unfold _epollwatch_updateStatus, with_wflags. cbn [wflags]. flag_consts.
  repeat (progress (rewrite ?testbit_if, ?Z.lor_spec, ?testbit_choice, ?testbit_one_bit,
                      ?Z.bits_0 by lia)).
  repeat match goal with
         | |- context [i =? ?k] =>
             replace (i =? k) with false by (symmetry; apply Z.eqb_neq; lia)
         end.
  rewrite ?andb_false_r. cbn [orb].
  repeat match goal with |- context [if ?c then _ else _] => destruct c end;
    reflexivity.
Qed.


Lemma updateStatus_flags_idempotent st w :
  wflags (_epollwatch_updateStatus st (_epollwatch_updateStatus st w))
  = wflags (_epollwatch_updateStatus st w).
Proof.
  apply Z.bits_inj'. intros i Hi.
  assert (Hcases : i = 0 \/ i = 1 \/ i = 2 \/ i = 3 \/ i = 4 \/ i = 5 \/ i = 6 \/ i = 7
                   \/ i = 8 \/ i = 9 \/ i = 10 \/ i = 11 \/ i = 12 \/ 13 <= i) by lia.
  destruct Hcases as [->|[->|[->|[->|[->|[->|[->|[->|[->|[->|[->|[->|[->|Hhigh]]]]]]]]]]]]];
    [| | | | | | | | | | | | |now rewrite !updateStatus_high];
    rewrite <- !has_bit by lia.
  - change (Z.shiftl 1 0) with EWF_ACTIVE. now rewrite !updateStatus_active.
  - change (Z.shiftl 1 1) with EWF_READABLE. now rewrite !updateStatus_readable.
  - change (Z.shiftl 1 2) with EWF_WAITINGREAD.
    now rewrite !updateStatus_waitingread, updateStatus_event.
  - change (Z.shiftl 1 3) with EWF_READCHANGED.
    rewrite (updateStatus_readchanged st (_epollwatch_updateStatus st w)).
    rewrite updateStatus_readable.
    destruct (has st DS_READABLE); cbn [xorb]; apply orb_false_r.
  - change (Z.shiftl 1 4) with EWF_WRITEABLE. now rewrite !updateStatus_writeable.
  - change (Z.shiftl 1 5) with EWF_WAITINGWRITE.
    now rewrite !updateStatus_waitingwrite, updateStatus_event.
  - change (Z.shiftl 1 6) with EWF_WRITECHANGED.
    rewrite (updateStatus_writechanged st (_epollwatch_updateStatus st w)).
    rewrite updateStatus_writeable.
    destruct (has st DS_WRITABLE); cbn [xorb]; apply orb_false_r.
  - change (Z.shiftl 1 7) with EWF_CLOSED. now rewrite !updateStatus_closed.
  - change (Z.shiftl 1 8) with EWF_WATCHING. now rewrite !updateStatus_watching.
  - change (Z.shiftl 1 9) with EWF_EDGETRIGGER.
    now rewrite !updateStatus_edgetrigger, updateStatus_event.
  - change (Z.shiftl 1 10) with EWF_EDGETRIGGER_REPORTED.
    now rewrite !updateStatus_edge_reported.
  - change (Z.shiftl 1 11) with EWF_ONESHOT.
    now rewrite !updateStatus_oneshot, updateStatus_event.
  - change (Z.shiftl 1 12) with EWF_ONESHOT_REPORTED.
    now rewrite !updateStatus_oneshot_reported.
Qed.

(** X21.  Refreshing a watch twice from the same status is refreshing it once:
    a second [_epollwatch_updateStatus] changes nothing, and a second
    [_epollwatch_isReady] gives the same answer and the same watch.  So
    the sweeps of the table can be repeated without harm. *)
Theorem updateStatus_idempotent (st : Z) (w : EpollWatch) :
  _epollwatch_updateStatus st (_epollwatch_updateStatus st w)
  = _epollwatch_updateStatus st w /\
  _epollwatch_isReady st (fst (_epollwatch_isReady st w)) = _epollwatch_isReady st w.
Proof.
  assert (H : _epollwatch_updateStatus st (_epollwatch_updateStatus st w)
              = _epollwatch_updateStatus st w).
  { pose proof (updateStatus_flags_idempotent st w) as Hf.
    pose proof (updateStatus_descriptor st (_epollwatch_updateStatus st w)) as Hd.
    pose proof (updateStatus_event st (_epollwatch_updateStatus st w)) as He.
    pose proof (updateStatus_refcount st (_epollwatch_updateStatus st w)) as Hr.
    destruct (_epollwatch_updateStatus st (_epollwatch_updateStatus st w)).
    destruct (_epollwatch_updateStatus st w).
    cbn [wflags descriptor event referenceCount] in *. congruence. }
  split; [exact H|]. unfold _epollwatch_isReady. cbn [fst]. rewrite H. reflexivity.
Qed.


Lemma notify_loop_idempotent st t :
  notify_loop st (fst (notify_loop st t)) = notify_loop st t.
Proof.
  induction t as [|[k w] t IH]; [reflexivity|].
  cbn [notify_loop _epollwatch_isReady].
  destruct (notify_loop st t) as [t'' r'] eqn:Hloop. cbn [fst] in *.
  cbn [notify_loop _epollwatch_isReady]. rewrite IH.
  rewrite updateStatus_descriptor.
  pose proof (updateStatus_flags_idempotent (st (descriptor w)) w) as Hf.
  pose proof (updateStatus_descriptor (st (descriptor w))
                (_epollwatch_updateStatus (st (descriptor w)) w)) as Hd.
  pose proof (updateStatus_event (st (descriptor w))
                (_epollwatch_updateStatus (st (descriptor w)) w)) as He.
  pose proof (updateStatus_refcount (st (descriptor w))
                (_epollwatch_updateStatus (st (descriptor w)) w)) as Hr.
  rewrite Hf.
  destruct (_epollwatch_updateStatus (st (descriptor w))
              (_epollwatch_updateStatus (st (descriptor w)) w)) as [d2 e2 f2 r2].
  destruct (_epollwatch_updateStatus (st (descriptor w)) w) as [d1 e1 f1 r1].
  cbn [wflags descriptor event referenceCount] in *. subst. reflexivity.
Qed.

Lemma updateStatus_twice st w :
  _epollwatch_updateStatus st (_epollwatch_updateStatus st w)
  = _epollwatch_updateStatus st w.
Proof.
  pose proof (updateStatus_flags_idempotent st w) as Hf.
  pose proof (updateStatus_descriptor st (_epollwatch_updateStatus st w)) as Hd.
  pose proof (updateStatus_event st (_epollwatch_updateStatus st w)) as He.
  pose proof (updateStatus_refcount st (_epollwatch_updateStatus st w)) as Hr.
  destruct (_epollwatch_updateStatus st (_epollwatch_updateStatus st w))
    as [d2 e2 f2 r2].
  destruct (_epollwatch_updateStatus st w) as [d1 e1 f1 r1].
  cbn [wflags descriptor event referenceCount] in *. subst. reflexivity.
Qed.

Lemma check_loop_after_notify st t :
  check_loop st (fst (notify_loop st t))
  = (fst (notify_loop st t), snd (notify_loop st t)).
Proof.
  induction t as [|[k w] t IH]; [reflexivity|].
  cbn [notify_loop _epollwatch_isReady].
  destruct (notify_loop st t) as [t'' r'] eqn:Hloop. cbn [fst snd] in *.
  cbn [check_loop _epollwatch_isReady].
  rewrite updateStatus_descriptor, updateStatus_twice.
  destruct (ready_flags (wflags (_epollwatch_updateStatus (st (descriptor w)) w)));
    [reflexivity|].
  rewrite IH. reflexivity.
Qed.

Lemma notify_loop_lookup st t d :
  table_lookup d (fst (notify_loop st t))
  = option_map (fun w => _epollwatch_updateStatus (st (descriptor w)) w)
      (table_lookup d t).
Proof.
  induction t as [|[k w] t IH]; [reflexivity|].
  cbn [notify_loop _epollwatch_isReady].
  destruct (notify_loop st t) as [t'' r'] eqn:Hloop. cbn [fst] in *.
  cbn [table_lookup]. destruct (k =? d); [reflexivity|exact IH].
Qed.

(** X22.  The sweep of a notify task, which visits every watch, and the
    sweep of [_epoll_check], which stops at the first watch that is ready,
    give the same answer.  The sweep of the task leaves every watch as
    [_epollwatch_updateStatus] makes it for the status of its descriptor;
    repeating it, or making the sweep of the check after it, changes no
    watch and gives the same answer. *)
Theorem notify_sweep_stable (st : Z -> Z) (t : WatchTable) :
  let t' := fst (notify_loop st t) in
  snd (notify_loop st t) = snd (check_loop st t) /\
  (forall d,
      table_lookup d t'
      = option_map (fun w => _epollwatch_updateStatus (st (descriptor w)) w)
          (table_lookup d t)) /\
  notify_loop st t' = notify_loop st t /\
  check_loop st t' = (t', snd (notify_loop st t)).
Proof.
  cbv zeta. split; [now rewrite notify_loop_ready, check_loop_ready|].
  split; [intros d; apply notify_loop_lookup|].
  split; [apply notify_loop_idempotent|apply check_loop_after_notify].
Qed.

(** ** [EF_NOTIFYING] is set only while the process is called *)

Lemma app_step_notifying (s s' : Sim) (a : AppOp) :
  app_step s a = Some s' ->
  has (flags (epoll s')) EF_NOTIFYING = has (flags (epoll s)) EF_NOTIFYING.
Proof.
  intros Hstep.
  assert (Hck : forall x, has (flags (epoll (_epoll_check x))) EF_NOTIFYING
                          = has (flags (epoll x)) EF_NOTIFYING).
  { intros x. destruct (check_sched x) as [(Hf & _)|(_ & _ & _ & Hf & _)]; rewrite Hf;
      [reflexivity|]. epoll_flags. reflexivity. }
  destruct (app_step_shape _ _ _ Hstep) as [->|(s1 & (Hf & _) & [->| ->])].
  - unfold _epoll_tryToClose. cbn [epoll flags log set_flags set_epoll].
    destruct (negb _); sim_simpl; epoll_flags; reflexivity.
  - now rewrite Hf.
  - now rewrite Hck, Hf.
Qed.

Lemma tryNotify_notifying (s s' : Sim) (continuation : list AppOp) :
  _epoll_tryNotify s continuation = Some s' ->
  has (flags (epoll s)) EF_NOTIFYING = false ->
  has (flags (epoll s')) EF_NOTIFYING = false.
Proof.
  unfold _epoll_tryNotify. intros Hrun Hn. revert Hrun.
  set (s0 := set_flags (log s EvTaskRun) _).
  assert (H0 : has (flags (epoll s0)) EF_NOTIFYING = false)
    by (unfold s0; cbn [epoll flags log set_flags set_epoll]; epoll_flags; exact Hn).
  destruct (_ || _).
  { intros Heq. inversion Heq; subst. exact H0. }
  destruct (notify_loop (status s0) (watching (epoll s0))) as [t r].
  assert (H2 : forall s2 r2,
             (if negb r then _epoll_isReadyOS (set_watching s0 t)
              else (set_watching s0 t, r)) = (s2, r2) ->
             has (flags (epoll s2)) EF_NOTIFYING = false).
  { intros s2 r2. destruct (negb r).
    - intros Heq. pose proof (isReadyOS_frame (set_watching s0 t)) as (He & _).
      rewrite Heq in He. cbn [fst] in He. rewrite He. exact H0.
    - intros Heq. inversion Heq; subst. exact H0. }
  destruct (if negb r then _ else _) as [s2 r2]. specialize (H2 _ _ eq_refl).
  destruct r2; [|intros Heq; inversion Heq; subst; exact H2].
  destruct (wantsNotify (world s2)); [|discriminate].
  destruct (process_continue _ continuation) as [s4|]; [|discriminate].
  intros Heq. inversion Heq; subst. clear Heq.
  set (s5 := if DEBUG then _ else _).
  assert (H5 : has (flags (epoll s5)) EF_NOTIFYING = false)
    by (unfold s5; destruct DEBUG; cbn [epoll flags log set_flags set_epoll
                                         _epoll_getChildrenStatus set_watching];
        epoll_flags; reflexivity).
  destruct (check_sched s5) as [(Hf & _)|(_ & _ & _ & Hf & _)]; rewrite Hf;
    [exact H5|]. epoll_flags. exact H5.
Qed.

(** X23.  [EF_NOTIFYING] does not outlive the call of the process: along every
    run from a state in which it is clear, it is clear between the
    operations, so no check asked for there is skipped on its account. *)
Theorem run_notifying_clear (s s' : Sim) (ops : list SimOp) :
  has (flags (epoll s)) EF_NOTIFYING = false ->
  run s ops = Some s' ->
  has (flags (epoll s')) EF_NOTIFYING = false.
Proof.
  revert s. induction ops as [|o rest IH]; intros s Hn; cbn.
  - intros Heq. inversion Heq; subst. exact Hn.
  - destruct (sim_step s o) as [s1|] eqn:Hstep; [|discriminate].
    apply IH. destruct o as [a|continuation]; cbn in Hstep.
    + rewrite (app_step_notifying _ _ _ Hstep). exact Hn.
    + destruct (tasks s) as [|n] eqn:Ht.
      * inversion Hstep; subst. exact Hn.
      * apply (tryNotify_notifying _ _ _ Hstep). exact Hn.
Qed.


(** ** What a collect leaves alone *)

(** X24.  [epoll_getEvents] registers and unregisters nothing: the table has the
    same keys in the same order with the same subscriptions afterwards,
    the listeners are the same, and so are the statuses of the descriptors
    and the kernel descriptor of the epoll. *)
Theorem getEvents_keeps_registrations (s s' : Sim) (n : Z) (c : Collected) :
  epoll_getEvents s n = Some (s', c) ->
  same_subscriptions (watching (epoll s)) (watching (epoll s')) /\
  map fst (watching (epoll s')) = map fst (watching (epoll s)) /\
  listeners s' = listeners s /\
  status s' = status s /\
  osEpollDescriptor (epoll s') = osEpollDescriptor (epoll s) /\
  retval c = 0.
Proof.
  intros Hget.
  destruct (Z.ltb_spec n 0) as [Hneg|Hpos].
  { rewrite getEvents_negative in Hget by assumption. discriminate. }
  pose proof (getEvents_steps s n Hpos (getEvents_returned _ _ _ _ Hget)) as Hsteps.
  pose proof (collect_loop_same_subscriptions (status s) (watching (epoll s)) 0 n) as Hss.
  pose proof (collect_loop_same_identity (status s) (watching (epoll s)) 0 n) as Hsi.
  destruct (collect_loop (status s) (watching (epoll s)) 0 n) as [[t out] i].
  cbn [fst snd] in Hss, Hsi.
  destruct Hsteps as (s2 & c2 & tos & Hget2 & _ & _ & Hep & Hst & _ & Hl & _).
  assert (Hret : retval c = 0).
  { revert Hget. unfold epoll_getEvents.
    destruct (collect_loop (status s) (watching (epoll s)) 0 n) as [[t1 out1] i1].
    destruct (n - i1 <? 0); [discriminate|].
    destruct (negb (n - i1 =? 0)); cbn [andb];
      [destruct (stackEvents _ <? _); [discriminate|];
       destruct (os_epoll_wait _ _)|];
      intros Heq; inversion Heq; reflexivity. }
  rewrite Hget2 in Hget. inversion Hget; subst s'. clear Hget.
  pose proof (check_frame s2) as (Hst2 & _ & Hl2 & Hfd & Hsw & _).
  rewrite Hep in Hsw, Hfd. cbn [epoll watching set_watching set_epoll osEpollDescriptor]
    in Hsw, Hfd.
  split.
  { eapply same_subscriptions_trans; [exact Hss|].
    apply (swept_same_subscriptions (status s2)). exact Hsw. }
  split.
  { rewrite (swept_keys _ _ _ Hsw). apply (same_identity_keys _ _ Hsi). }
  split; [now rewrite Hl2|]. split; [now rewrite Hst2|]. split; [exact Hfd|exact Hret].
Qed.

(** ** A notification that is not answered is repeated *)

Lemma any_ready_swept st t :
  any_ready st (fst (notify_loop st t)) = any_ready st t.
Proof.
  rewrite <- !notify_loop_ready, notify_loop_idempotent. reflexivity.
Qed.

(** X25.  When a notify task finds a watch ready and the process, once called,
    does nothing about it (it neither collects nor changes a
    registration), the watch is still ready at the final check: the task
    returns with a new notify task queued and [EF_SCHEDULED] set. *)
Theorem tryNotify_renotifies (s : Sim) :
  has (flags (epoll s)) EF_CLOSED = false ->
  has (flags (epoll s)) EF_NOTIFYING = false ->
  isRunning (world s) = true ->
  wantsNotify (world s) = true ->
  scheduleOk (world s) = true ->
  any_ready (status s) (watching (epoll s)) = true ->
  exists s',
    _epoll_tryNotify s [] = Some s' /\
    tasks s' = S (tasks s) /\
    has (flags (epoll s')) EF_SCHEDULED = true /\
    exists t, trace s' = EvSchedule :: t ++ EvReturn :: EvContinue :: EvTaskRun :: trace s.
Proof.
  intros Hc Hn Hrun Hwant Hsched Hany. unfold _epoll_tryNotify.
  set (s0 := set_flags (log s EvTaskRun) _).
  assert (Hc0 : has (flags (epoll s0)) EF_CLOSED = false)
    by (unfold s0; cbn [epoll flags log set_flags set_epoll]; epoll_flags; exact Hc).
  rewrite Hc0. change (world s0) with (world s). rewrite Hrun. cbn [orb negb].
  pose proof (notify_loop_ready (status s0) (watching (epoll s0))) as Hr.
  change (any_ready (status s0) (watching (epoll s0)))
    with (any_ready (status s) (watching (epoll s))) in Hr.
  change (status s0) with (status s). change (watching (epoll s0)) with (watching (epoll s)).
  pose proof (any_ready_swept (status s) (watching (epoll s))) as Hkeep.
  change (status s0) with (status s) in Hr.
  change (watching (epoll s0)) with (watching (epoll s)) in Hr.
  destruct (notify_loop (status s) (watching (epoll s))) as [t r]. cbn [fst snd] in Hr, Hkeep.
  rewrite Hany in Hr. subst r. cbn [negb]. rewrite Hany in Hkeep.
  change (world (set_watching s0 t)) with (world s). rewrite Hwant. unfold utility_assert.
  set (s3 := if DEBUG then _epoll_getChildrenStatus (set_watching s0 t)
             else set_watching s0 t).
  cbn [process_continue].
  set (s5 := if DEBUG then _ else _).
  assert (H3 : any_ready (status s) (watching (epoll s3)) = true /\
               flags (epoll s3) = flags (epoll s0) /\ world s3 = world s /\
               status s3 = status s /\ tasks s3 = tasks s /\
               trace s3 = EvTaskRun :: trace s).
  { unfold s3. destruct DEBUG; [|repeat split; exact Hkeep].
    unfold _epoll_getChildrenStatus.
    cbn [epoll watching status set_watching set_epoll flags world tasks trace].
    rewrite any_ready_swept. repeat split. exact Hkeep. }
  destruct H3 as (Ha3 & Hf3 & Hw3 & Hst3 & Ht3 & Htr3).
  assert (H5 : any_ready (status s5) (watching (epoll s5)) = true /\
               has (flags (epoll s5)) EF_CLOSED = false /\
               has (flags (epoll s5)) EF_NOTIFYING = false /\
               has (flags (epoll s5)) EF_SCHEDULED = false /\
               world s5 = world s /\ tasks s5 = tasks s /\
               trace s5 = EvReturn :: EvContinue :: EvTaskRun :: trace s).
  { assert (Hflags : forall x,
               flags (epoll x)
               = clear_flag (set_flag (flags (epoll s3)) EF_NOTIFYING) EF_NOTIFYING ->
               has (flags (epoll x)) EF_CLOSED = false /\
               has (flags (epoll x)) EF_NOTIFYING = false /\
               has (flags (epoll x)) EF_SCHEDULED = false).
    { intros x Hx. rewrite Hx, Hf3. unfold s0.
      cbn [epoll flags log set_flags set_epoll]. epoll_flags. rewrite Hc.
      repeat split. }
    unfold s5. destruct DEBUG.
    - unfold _epoll_getChildrenStatus.
      cbn [epoll watching status set_watching set_epoll flags world tasks trace log
           set_flags].
      rewrite Hst3, any_ready_swept.
      split; [exact Ha3|]. destruct (Hflags (set_flags s3 (clear_flag
                (set_flag (flags (epoll s3)) EF_NOTIFYING) EF_NOTIFYING)) eq_refl)
        as (G1 & G2 & G3).
      cbn [epoll flags set_flags set_epoll] in G1, G2, G3.
      split; [exact G1|]. split; [exact G2|]. split; [exact G3|].
      split; [exact Hw3|]. split; [exact Ht3|]. rewrite Htr3. reflexivity.
    - cbn [epoll watching status set_watching set_epoll flags world tasks trace log
           set_flags].
      rewrite Hst3.
      split; [exact Ha3|]. destruct (Hflags (set_flags s3 (clear_flag
                (set_flag (flags (epoll s3)) EF_NOTIFYING) EF_NOTIFYING)) eq_refl)
        as (G1 & G2 & G3).
      cbn [epoll flags set_flags set_epoll] in G1, G2, G3.
      split; [exact G1|]. split; [exact G2|]. split; [exact G3|].
      split; [exact Hw3|]. split; [exact Ht3|]. rewrite Htr3. reflexivity. }
  destruct H5 as (Ha5 & Hc5 & Hn5 & Hs5 & Hw5 & Ht5 & Htr5).
  exists (_epoll_check s5). split; [reflexivity|].
  pose proof (check_cases s5) as Hck. cbv zeta in Hck.
  rewrite Hc5, Hn5 in Hck. cbn [orb] in Hck.
  assert (Hyes : check_schedules s5 = true).
  { unfold check_schedules. rewrite Hc5, Hn5, Hs5, Ha5, Hw5, Hwant, Hsched. reflexivity. }
  rewrite Hyes in Hck. destruct Hck as (_ & _ & Htasks & Hflags & t5 & Htr & _).
  split; [rewrite Htasks, Ht5; reflexivity|].
  split; [rewrite Hflags; epoll_flags; reflexivity|].
  exists t5. rewrite Htr, Htr5. reflexivity.
Qed.

End Epoll.

(** * The theorems at work

    The status bits are numbered 1, 2, 4 and 8 and the file is taken
    without [DEBUG]. *)

Lemma scene_is_new : scene = mkSim (epoll_new 1 3 4) (status scene) scene_world [] 0 [].
Proof. reflexivity. Qed.

Lemma isReady_iff_witness :
  snd (_epollwatch_isReady 1 2 4 8 3 (mkWatch 5 (mkEvent EPOLLIN 77) EWF_WATCHING 1)) = true.
Proof.
  pose proof (isReady_iff 1 2 4 8 3 (mkWatch 5 (mkEvent EPOLLIN 77) EWF_WATCHING 1)) as H.
  cbv beta iota zeta delta [_epollwatch_isReady] in H. destruct H as [_ H].
  cbn [snd]. apply H. vm_compute.
  repeat split; try (left; repeat split; discriminate); intros [Ha Hb]; discriminate.
Defined.

Lemma updateStatus_witness :
  let w := mkWatch 5 (mkEvent EPOLLIN 77) EWF_WATCHING 1 in
  has (wflags (_epollwatch_updateStatus 1 2 4 8 3 w)) EWF_READCHANGED = true.
Proof.
  intros w.
  pose proof (updateStatus_refreshes_and_keeps_sticky 1 2 4 8 3 w) as H.
  cbv zeta in H. decompose [and] H. clear H.
  match goal with
  | Hrc : has _ EWF_READCHANGED = _ |- _ => rewrite Hrc
  end.
  reflexivity.
Defined.

Lemma scene_watching_wf : table_wf (watching (epoll scene_watching)).
Proof.
  split.
  - repeat constructor. intros [].
  - repeat constructor.
Qed.

Lemma epoll_control_result_witness :
  exists s' r,
    epoll_control 1 2 4 8 scene_watching EPOLL_CTL_MOD 5 (Some (mkEvent EPOLLOUT 78))
    = Some (s', r)
    /\ r = 0.
Proof.
  destruct (epoll_control_result 1 2 4 8 scene_watching EPOLL_CTL_MOD 5
              (Some (mkEvent EPOLLOUT 78)))
    as (s' & r & Hc & Hex & Hne & Hok).
  - intros _. discriminate.
  - exact scene_watching_wf.
  - exists s', r. split; [exact Hc|]. apply Hok.
    + intros Hr. apply Hex in Hr. destruct Hr as [Hr _]. discriminate.
    + intros Hr. apply Hne in Hr. destruct Hr as [_ Hr]. discriminate.
Defined.

Lemma epoll_control_error_atomic_witness :
  epoll_control 1 2 4 8 scene_watching EPOLL_CTL_ADD 5 (Some (mkEvent EPOLLOUT 78))
  = Some (scene_watching, EEXIST)
  /\ scene_watching = scene_watching.
Proof.
  assert (H : epoll_control 1 2 4 8 scene_watching EPOLL_CTL_ADD 5
                (Some (mkEvent EPOLLOUT 78)) = Some (scene_watching, EEXIST))
    by reflexivity.
  split; [exact H|].
  apply (epoll_control_error_atomic 1 2 4 8 scene_watching scene_watching
           EPOLL_CTL_ADD 5 EEXIST (Some (mkEvent EPOLLOUT 78)) H).
  now left.
Defined.

Lemma getEvents_within_capacity_witness :
  epoll_getEvents 1 2 4 8 scene_watching 4 <> None /\
  exists s' c,
    epoll_getEvents 1 2 4 8 scene_watching 4 = Some (s', c) /\
    Z.of_nat (length (eventArray c)) = nEvents c /\ nEvents c <= 4.
Proof.
  set (r := epoll_getEvents 1 2 4 8 scene_watching 4).
  set (s1 := match r with Some (x, _) => x | None => scene_watching end).
  set (c1 := match r with Some (_, y) => y | None => mkCollected [] 0 0 end).
  assert (Hget : r = Some (s1, c1)) by (vm_compute; reflexivity).
  destruct (getEvents_within_capacity 1 2 4 8 scene_watching 4) as [Hret Hall];
    [lia|].
  split.
  - apply Hret. vm_compute. intros H. discriminate H.
  - destruct (Hall s1 c1 Hget) as (t & _ & Hlen & Hle & _).
    exists s1, c1. split; [exact Hget|]. split; [exact Hlen|exact Hle].
Defined.


Lemma oneshot_not_reported_again_without_mod_witness :
  In (EvMod 5)
     [EvMod 5; EvOs OsProbeClose; EvOs OsProbeDel; EvOs OsProbeWait; EvOs OsProbeAdd;
      EvOs OsProbeCreate; EvOs (OsWait 3)].
Proof.
  set (sub := mkEvent (Z.lor EPOLLIN EPOLLONESHOT) 77).
  set (ops := [OApp (AControl EPOLL_CTL_ADD 5 (Some sub)); OApp (AGetEvents 4);
               OApp (AControl EPOLL_CTL_MOD 5 (Some sub)); OApp (AGetEvents 4)]).
  assert (Hrun : exists s',
             run 1 2 4 8 false scene ops = Some s' /\
             trace s' =
             [EvOs OsProbeClose; EvOs OsProbeDel; EvOs OsProbeWait; EvOs OsProbeAdd;
              EvOs OsProbeCreate; EvOs (OsWait 3)]
               ++ EvReport (mkWatch 5 sub 2311 1) (mkEvent 1 77)
               :: [EvMod 5; EvOs OsProbeClose; EvOs OsProbeDel; EvOs OsProbeWait;
                   EvOs OsProbeAdd; EvOs OsProbeCreate; EvOs (OsWait 3)]
               ++ EvReport (mkWatch 5 sub 2319 1) (mkEvent 1 77)
               :: [EvSchedule; EvAdd 5])
    by (vm_compute; eexists; split; reflexivity).
  destruct Hrun as (s' & Hrun & Hlog).
  apply (oneshot_not_reported_again_without_mod 1 2 4 8 false scene s' ops 5
           _ _ _ _ _ _ _ (conj (NoDup_nil Z) (Forall_nil _)) eq_refl Hrun Hlog
           eq_refl eq_refl eq_refl).
  vm_compute. intuition discriminate.
Defined.

Lemma edge_reported_again_only_on_change_witness :
  let t1 := [EvStatus 5 1 3; EvOs OsProbeClose; EvOs OsProbeDel; EvOs OsProbeWait;
             EvOs OsProbeAdd; EvOs OsProbeCreate; EvStatus 5 3 1; EvOs OsProbeClose;
             EvOs OsProbeDel; EvOs OsProbeWait; EvOs OsProbeAdd; EvOs OsProbeCreate;
             EvOs (OsWait 3)] in
  (has 2147483649 EPOLLIN = true /\ status_changed 2 5 t1) \/
  (has 2147483649 EPOLLOUT = true /\ status_changed 4 5 t1).
Proof.
  intros t1.
  set (sub := mkEvent (Z.lor EPOLLIN EPOLLET) 77).
  set (ops := [OApp (AControl EPOLL_CTL_ADD 5 (Some sub)); OApp (AGetEvents 4);
               OApp (AStatus 5 1); OApp (AStatus 5 3); OApp (AGetEvents 4)]).
  assert (Hrun : exists s',
             run 1 2 4 8 false scene ops = Some s' /\
             trace s' =
             [EvOs OsProbeClose; EvOs OsProbeDel; EvOs OsProbeWait; EvOs OsProbeAdd;
              EvOs OsProbeCreate; EvOs (OsWait 3)]
               ++ EvReport (mkWatch 5 sub 1807 1) (mkEvent 2147483649 77)
               :: t1
               ++ EvReport (mkWatch 5 sub 783 1) (mkEvent 2147483649 77)
               :: [EvSchedule; EvAdd 5])
    by (vm_compute; eexists; split; reflexivity).
  destruct Hrun as (s' & Hrun & Hlog).
  apply (edge_reported_again_only_on_change 1 2 4 8 false scene s' ops 5
           _ _ _ _ _ _ _ (conj (NoDup_nil Z) (Forall_nil _)) eq_refl Hrun Hlog
           eq_refl eq_refl eq_refl eq_refl).
  - vm_compute. intuition discriminate.
  - vm_compute. intuition discriminate.
Defined.

Lemma check_skipped_while_notifying_or_closed_witness :
  _epoll_check 1 2 4 8 (set_flags scene_watching EF_NOTIFYING)
  = set_flags scene_watching EF_NOTIFYING
  /\ existsb is_schedule
       [EvOs (OsWait 3);
        EvReport (mkWatch 5 (mkEvent EPOLLIN 77) 271 1) (mkEvent 1 77)] = false
  /\ exists ta', [EvReturn; EvFinalize] = ta' ++ [EvFinalize].
Proof.
  destruct (check_skipped_while_notifying_or_closed 1 2 4 8 false)
    as (Hskip & Hquiet & Hclose).
  split; [|split].
  - apply Hskip. left. reflexivity.
  - set (ops := [OApp (AControl EPOLL_CTL_ADD 5 (Some (mkEvent EPOLLIN 77)));
                 ONotify [AGetEvents 4]]).
    assert (Hrun : exists s',
               run 1 2 4 8 false scene ops = Some s' /\
               trace s' =
               [EvSchedule]
                 ++ EvReturn
                 :: [EvOs (OsWait 3);
                     EvReport (mkWatch 5 (mkEvent EPOLLIN 77) 271 1) (mkEvent 1 77)]
                 ++ EvContinue :: [EvTaskRun; EvSchedule; EvAdd 5])
      by (vm_compute; eexists; split; reflexivity).
    destruct Hrun as (s' & Hrun & Hlog).
    apply (Hquiet scene s' ops _ _ _ eq_refl Hrun Hlog). reflexivity.
  - set (ops := [OApp (AControl EPOLL_CTL_ADD 5 (Some (mkEvent EPOLLIN 77)));
                 ONotify [AClose]]).
    assert (Hrun : exists s',
               run 1 2 4 8 false scene ops = Some s' /\
               trace s' =
               [EvReturn; EvFinalize]
                 ++ EvCloseCall :: [EvContinue; EvTaskRun; EvSchedule; EvAdd 5])
      by (vm_compute; eexists; split; reflexivity).
    destruct Hrun as (s' & Hrun & Hlog).
    apply (Hclose scene s' ops _ _ eq_refl Hrun Hlog). reflexivity.
Defined.

Lemma close_finalizes_once_witness :
  (finalized_since_close
     ([EvOs (OsWait 3);
       EvReport (mkWatch 5 (mkEvent EPOLLIN 77) 271 1) (mkEvent 1 77)]
        ++ EvFinalize :: [EvTaskRun] ++ EvCloseCall :: [EvSchedule; EvAdd 5]) + 0
   = 1)%nat /\
  existsb is_task_event
    [EvOs (OsWait 3); EvReport (mkWatch 5 (mkEvent EPOLLIN 77) 271 1) (mkEvent 1 77)]
  = false.
Proof.
  destruct (close_finalizes_once 1 2 4 8 false) as (_ & _ & Hone & Hlast).
  set (ops := [OApp (AControl EPOLL_CTL_ADD 5 (Some (mkEvent EPOLLIN 77)));
               OApp AClose; ONotify []; OApp (AGetEvents 4); ONotify []]).
  assert (Hrun : exists s',
             run 1 2 4 8 false scene ops = Some s' /\
             trace s' =
             [EvOs (OsWait 3);
              EvReport (mkWatch 5 (mkEvent EPOLLIN 77) 271 1) (mkEvent 1 77)]
               ++ EvFinalize :: [EvTaskRun] ++ EvCloseCall :: [EvSchedule; EvAdd 5] /\
             tasks s' = 0%nat)
    by (vm_compute; eexists; repeat split; reflexivity).
  destruct Hrun as (s' & Hrun & Hlog & Htasks).
  assert (Hwf : sched_wf scene) by (right; split; reflexivity).
  assert (Hcount : count is_close_call (trace s') = 1%nat) by (rewrite Hlog; reflexivity).
  split.
  - pose proof (Hone scene s' ops Hwf eq_refl eq_refl Hrun Hcount) as H.
    rewrite Hlog, Htasks in H. exact H.
  - exact (Hlast scene s' ops _ _ _ Hwf eq_refl Hrun Hlog eq_refl).
Defined.

(** ** Where the code departs from the specification *)

(** With capacity 0 and no watch ready, [epoll_getEvents] still makes
    kernel calls: the probe of the final [_epoll_check]. *)
Lemma getEvents_zero_capacity_probes_kernel :
  ~ (forall (s s' : Sim) (c : Collected) (t : list Event),
        epoll_getEvents 1 2 4 8 s 0 = Some (s', c) ->
        trace s' = t ++ trace s ->
        existsb is_os_call t = false).
Proof.
  intros H.
  assert (Hget : exists s' c,
             epoll_getEvents 1 2 4 8 scene 0 = Some (s', c) /\
             trace s' = [EvOs OsProbeClose; EvOs OsProbeDel; EvOs OsProbeWait;
                         EvOs OsProbeAdd; EvOs OsProbeCreate] ++ trace scene)
    by (vm_compute; eexists; eexists; split; reflexivity).
  destruct Hget as (s' & c & Hget & Hlog).
  specialize (H scene s' c _ Hget Hlog).
  cbn [existsb is_os_call orb] in H. discriminate H.
Qed.

(** A close called by the process while a notify task runs it is finalized
    there and then, between the call of the process and its return. *)
Lemma close_finalized_during_continuation :
  ~ (forall (s s' : Sim) (ops : list SimOp) (ta tb tc : list Event),
        trace s = [] ->
        run 1 2 4 8 false s ops = Some s' ->
        trace s' = ta ++ EvReturn :: tb ++ EvContinue :: tc ->
        existsb is_return tb = false ->
        existsb is_finalize tb = false).
Proof.
  intros H.
  set (ops := [OApp (AControl EPOLL_CTL_ADD 5 (Some (mkEvent EPOLLIN 77)));
               ONotify [AClose]]).
  assert (Hrun : exists s',
             run 1 2 4 8 false scene ops = Some s' /\
             trace s' =
             [] ++ EvReturn :: [EvFinalize; EvCloseCall]
                ++ EvContinue :: [EvTaskRun; EvSchedule; EvAdd 5])
    by (vm_compute; eexists; split; reflexivity).
  destruct Hrun as (s' & Hrun & Hlog).
  specialize (H scene s' ops _ _ _ eq_refl Hrun Hlog eq_refl).
  cbn [existsb is_finalize orb] in H. discriminate H.
Qed.

(** The finalization of a close called inside a notify task comes before
    the end of that task: the process goes on (here it collects an event)
    and returns to the task afterwards. *)
Lemma finalization_before_notify_completes :
  ~ (forall (s s' : Sim) (ops : list SimOp) (ta tm tb : list Event),
        sched_wf s -> trace s = [] ->
        run 1 2 4 8 false s ops = Some s' ->
        trace s' = ta ++ EvFinalize :: tm ++ EvCloseCall :: tb ->
        existsb is_task_event ta = false).
Proof.
  intros H.
  set (ops := [OApp (AControl EPOLL_CTL_ADD 5 (Some (mkEvent EPOLLIN 77)));
               ONotify [AClose; AGetEvents 4]]).
  assert (Hrun : exists s',
             run 1 2 4 8 false scene ops = Some s' /\
             trace s' =
             [EvReturn; EvOs (OsWait 3);
              EvReport (mkWatch 5 (mkEvent EPOLLIN 77) 271 1) (mkEvent 1 77)]
               ++ EvFinalize
               :: [] ++ EvCloseCall :: [EvContinue; EvTaskRun; EvSchedule; EvAdd 5])
    by (vm_compute; eexists; split; reflexivity).
  destruct Hrun as (s' & Hrun & Hlog).
  assert (Hwf : sched_wf scene) by (right; split; reflexivity).
  specialize (H scene s' ops _ _ _ Hwf eq_refl Hrun Hlog).
  cbn [existsb is_task_event orb] in H. discriminate H.
Qed.


(** ** The further properties at work *)

Lemma check_readable_iff_witness :
  has (superStatus (epoll (_epoll_check 1 2 4 8 scene_watching))) 2 = true.
Proof.
  destruct (check_readable_iff 1 2 4 8 scene_watching) as [H _];
    [discriminate|reflexivity|reflexivity|].
  apply H. left. reflexivity.
Defined.

Lemma run_at_most_one_task_witness :
  exists s',
    run 1 2 4 8 false scene [OApp (AControl EPOLL_CTL_ADD 5 (Some (mkEvent EPOLLIN 77)))]
    = Some s' /\
    (tasks s' <= 1)%nat.
Proof.
  assert (Hrun : exists s',
             run 1 2 4 8 false scene
               [OApp (AControl EPOLL_CTL_ADD 5 (Some (mkEvent EPOLLIN 77)))] = Some s')
    by (vm_compute; eexists; reflexivity).
  destruct Hrun as (s' & Hrun). exists s'. split; [exact Hrun|].
  assert (Hwf : sched_wf scene) by (right; split; reflexivity).
  apply (run_at_most_one_task 1 2 4 8 false scene s' _ Hwf Hrun).
Defined.

Lemma tryNotify_idle_witness :
  exists s',
    _epoll_tryNotify 1 2 4 8 false scene [AClose] = Some s' /\ tasks s' = tasks scene.
Proof.
  destruct (tryNotify_idle 1 2 4 8 false scene [AClose] eq_refl)
    as (s' & t & H1 & _ & _ & _ & _ & H6).
  exists s'. split; assumption.
Defined.

Lemma tryNotify_calls_process_once_witness :
  exists s',
    _epoll_tryNotify 1 2 4 8 false scene_watching [AGetEvents 4] = Some s' /\
    wantsNotify (world scene_watching) = true /\
    has (flags (epoll s')) EF_NOTIFYING = false.
Proof.
  assert (Hrun : exists s',
             _epoll_tryNotify 1 2 4 8 false scene_watching [AGetEvents 4] = Some s')
    by (vm_compute; eexists; reflexivity).
  destruct Hrun as (s' & Hrun). exists s'. split; [exact Hrun|].
  destruct (tryNotify_calls_process_once 1 2 4 8 false scene_watching s' _ eq_refl Hrun)
    as (H1 & H2 & _).
  split; assumption.
Defined.

Lemma control_add_registers_witness :
  exists s' w,
    epoll_control 1 2 4 8 scene EPOLL_CTL_ADD 5 (Some (mkEvent EPOLLIN 77)) = Some (s', 0) /\
    table_lookup 5 (watching (epoll s')) = Some w /\
    event w = mkEvent EPOLLIN 77 /\ In 5 (listeners s').
Proof.
  destruct (control_add_registers 1 2 4 8 scene 5 (mkEvent EPOLLIN 77) eq_refl)
    as (s' & w & H1 & H2 & _ & H4 & _ & _ & H7 & _).
  exists s', w. repeat split; assumption.
Defined.

Lemma control_del_unregisters_witness :
  exists s',
    epoll_control 1 2 4 8 scene_watching EPOLL_CTL_DEL 5 None = Some (s', 0) /\
    table_lookup 5 (watching (epoll s')) = None /\ ~ In 5 (listeners s').
Proof.
  destruct (control_del_unregisters 1 2 4 8 scene_watching 5 None
              (mkWatch 5 (mkEvent EPOLLIN 77) EWF_WATCHING 1) scene_watching_wf eq_refl)
    as (s' & H1 & H2 & H3 & _).
  exists s'. repeat split; assumption.
Defined.

Lemma control_mod_rearms_witness :
  exists s' w',
    epoll_control 1 2 4 8 scene_watching EPOLL_CTL_MOD 5 (Some (mkEvent EPOLLOUT 78))
    = Some (s', 0) /\
    table_lookup 5 (watching (epoll s')) = Some w' /\
    event w' = mkEvent EPOLLOUT 78 /\
    has (wflags w') EWF_ONESHOT_REPORTED = false.
Proof.
  destruct (control_mod_rearms 1 2 4 8 scene_watching 5 (mkEvent EPOLLOUT 78)
              (mkWatch 5 (mkEvent EPOLLIN 77) EWF_WATCHING 1) scene_watching_wf eq_refl)
    as (s' & w' & H1 & H2 & _ & H4 & _ & _ & H7 & _).
  exists s', w'. repeat split; assumption.
Defined.

Lemma control_add_twice_exists_witness :
  exists s1,
    epoll_control 1 2 4 8 scene EPOLL_CTL_ADD 5 (Some (mkEvent EPOLLIN 77)) = Some (s1, 0) /\
    epoll_control 1 2 4 8 s1 EPOLL_CTL_ADD 5 None = Some (s1, EEXIST).
Proof.
  assert (Hadd : exists s1,
             epoll_control 1 2 4 8 scene EPOLL_CTL_ADD 5 (Some (mkEvent EPOLLIN 77))
             = Some (s1, 0))
    by (vm_compute; eexists; reflexivity).
  destruct Hadd as (s1 & Hadd). exists s1. split; [exact Hadd|].
  apply (control_add_twice_exists 1 2 4 8 scene s1 5 (mkEvent EPOLLIN 77) None Hadd).
Defined.

Lemma control_after_del_witness :
  exists s1,
    epoll_control 1 2 4 8 scene_watching EPOLL_CTL_DEL 5 None = Some (s1, 0) /\
    epoll_control 1 2 4 8 s1 EPOLL_CTL_MOD 5 (Some (mkEvent EPOLLOUT 78))
    = Some (s1, ENOENT).
Proof.
  assert (Hdel : exists s1,
             epoll_control 1 2 4 8 scene_watching EPOLL_CTL_DEL 5 None = Some (s1, 0))
    by (vm_compute; eexists; reflexivity).
  destruct Hdel as (s1 & Hdel). exists s1. split; [exact Hdel|].
  destruct (control_after_del 1 2 4 8 scene_watching s1 5 None
              (Some (mkEvent EPOLLOUT 78)) (mkEvent EPOLLIN 77) scene_watching_wf Hdel)
    as (_ & H & _).
  exact H.
Defined.

Lemma control_add_del_roundtrip_witness :
  exists s1 s2,
    epoll_control 1 2 4 8 scene EPOLL_CTL_ADD 5 (Some (mkEvent EPOLLIN 77)) = Some (s1, 0) /\
    epoll_control 1 2 4 8 s1 EPOLL_CTL_DEL 5 None = Some (s2, 0) /\
    table_lookup 5 (watching (epoll s2)) = None /\
    forall x, In x (listeners s2) <-> In x (listeners scene).
Proof.
  destruct (control_add_del_roundtrip 1 2 4 8 scene 5 (mkEvent EPOLLIN 77) None)
    as (s1 & s2 & H1 & H2 & H3 & H4).
  - reflexivity.
  - intros [].
  - exists s1, s2. split; [exact H1|]. split; [exact H2|].
    split; [exact (H3 5)|exact H4].
Defined.

Lemma getEvents_reports_ready_witness :
  exists s' c,
    epoll_getEvents 1 2 4 8 scene_watching 4 = Some (s', c) /\
    In (mkEvent EPOLLIN 77) (eventArray c).
Proof.
  set (r := epoll_getEvents 1 2 4 8 scene_watching 4).
  set (s1 := match r with Some (x, _) => x | None => scene_watching end).
  set (c1 := match r with Some (_, y) => y | None => mkCollected [] 0 0 end).
  assert (Hget : r = Some (s1, c1)) by (vm_compute; reflexivity).
  destruct (getEvents_reports_ready 1 2 4 8 scene_watching s1 4 c1 Hget)
    as (t & _ & _ & _ & _ & Hall).
  exists s1, c1. split; [exact Hget|].
  apply (Hall ltac:(vm_compute; intros H; discriminate H)
              (mkWatch 5 (mkEvent EPOLLIN 77) 271 1)).
  vm_compute. left. reflexivity.
Defined.

Lemma getEvents_reports_distinct_witness :
  exists s' c t,
    epoll_getEvents 1 2 4 8 scene_watching 4 = Some (s', c) /\
    trace s' = t ++ trace scene_watching /\
    NoDup (map fst (reports_of t)).
Proof.
  assert (Hget : exists s' c, epoll_getEvents 1 2 4 8 scene_watching 4 = Some (s', c))
    by (vm_compute; eexists; eexists; reflexivity).
  destruct Hget as (s' & c & Hget).
  destruct (getEvents_reports_distinct 1 2 4 8 scene_watching s' 4 c scene_watching_wf Hget)
    as (t & H1 & H2 & _).
  exists s', c, t. repeat split; assumption.
Defined.

Lemma epollwatch_ref_unref_roundtrip_witness :
  exists w1,
    _epollwatch_ref (mkWatch 5 (mkEvent EPOLLIN 77) EWF_WATCHING 1) = Some w1 /\
    referenceCount w1 = 2 /\
    _epollwatch_unref w1 = Some (Some (mkWatch 5 (mkEvent EPOLLIN 77) EWF_WATCHING 1), []).
Proof.
  apply (epollwatch_ref_unref_roundtrip (mkWatch 5 (mkEvent EPOLLIN 77) EWF_WATCHING 1)).
  split; reflexivity.
Defined.

Lemma run_watch_references_witness :
  exists s' f,
    run 1 2 4 8 false scene
      [OApp (AControl EPOLL_CTL_ADD 5 (Some (mkEvent EPOLLIN 77)));
       OApp (AControl EPOLL_CTL_ADD 6 (Some (mkEvent EPOLLOUT 78)));
       OApp (AControl EPOLL_CTL_DEL 5 None)] = Some s' /\
    _epoll_free (epoll s') = Some f /\
    unreferenced f = map fst (watching (epoll s')) /\
    surviving f = [].
Proof.
  set (ops := [OApp (AControl EPOLL_CTL_ADD 5 (Some (mkEvent EPOLLIN 77)));
               OApp (AControl EPOLL_CTL_ADD 6 (Some (mkEvent EPOLLOUT 78)));
               OApp (AControl EPOLL_CTL_DEL 5 None)]).
  assert (Hrun : exists s', run 1 2 4 8 false scene ops = Some s')
    by (vm_compute; eexists; reflexivity).
  destruct Hrun as (s' & Hrun).
  destruct (run_watch_references 1 2 4 8 false scene s' ops eq_refl eq_refl eq_refl Hrun)
    as (_ & f & H1 & H2 & _ & H4 & _).
  exists s', f. repeat split; assumption.
Defined.

Lemma run_listeners_are_watched_witness :
  exists s',
    run 1 2 4 8 false scene
      [OApp (AControl EPOLL_CTL_ADD 5 (Some (mkEvent EPOLLIN 77)))] = Some s' /\
    epoll_descriptorStatusChanged 1 2 4 8 s' 5 = Some (_epoll_check 1 2 4 8 s').
Proof.
  set (ops := [OApp (AControl EPOLL_CTL_ADD 5 (Some (mkEvent EPOLLIN 77)))]).
  assert (Hrun : exists s', run 1 2 4 8 false scene ops = Some s' /\ listeners s' = [5])
    by (vm_compute; eexists; split; reflexivity).
  destruct Hrun as (s' & Hrun & Hl).
  destruct (run_listeners_are_watched 1 2 4 8 false scene s' ops eq_refl eq_refl eq_refl
              Hrun) as (H & _).
  exists s'. split; [exact Hrun|]. apply H. rewrite Hl. now left.
Defined.

Lemma run_reports_only_registered_witness :
  In (EvAdd 5) [EvAdd 5].
Proof.
  set (ops := [OApp (AControl EPOLL_CTL_ADD 5 (Some (mkEvent EPOLLIN 77)));
               OApp (AGetEvents 4);
               OApp (AControl EPOLL_CTL_DEL 5 None);
               OApp (AControl EPOLL_CTL_ADD 5 (Some (mkEvent EPOLLIN 77)));
               OApp (AGetEvents 4)]).
  assert (Hrun : exists s',
             run 1 2 4 8 false scene ops = Some s' /\
             trace s' =
             [EvOs (OsWait 3)]
               ++ EvReport (mkWatch 5 (mkEvent EPOLLIN 77) 271 1) (mkEvent 1 77)
               :: [EvAdd 5]
               ++ EvDel (descriptor (mkWatch 5 (mkEvent EPOLLIN 77) 271 1))
               :: [EvOs (OsWait 3);
                   EvReport (mkWatch 5 (mkEvent EPOLLIN 77) 271 1) (mkEvent 1 77);
                   EvSchedule; EvAdd 5])
    by (vm_compute; eexists; split; reflexivity).
  destruct Hrun as (s' & Hrun & Hlog).
  destruct (run_reports_only_registered 1 2 4 8 false scene s' ops eq_refl eq_refl eq_refl
              Hrun) as (_ & H).
  exact (H _ _ _ _ _ Hlog).
Defined.

Lemma run_notifying_clear_witness :
  exists s',
    run 1 2 4 8 false scene
      [OApp (AControl EPOLL_CTL_ADD 5 (Some (mkEvent EPOLLIN 77)));
       ONotify [AGetEvents 4]] = Some s' /\
    has (flags (epoll s')) EF_NOTIFYING = false.
Proof.
  set (ops := [OApp (AControl EPOLL_CTL_ADD 5 (Some (mkEvent EPOLLIN 77)));
               ONotify [AGetEvents 4]]).
  assert (Hrun : exists s', run 1 2 4 8 false scene ops = Some s')
    by (vm_compute; eexists; reflexivity).
  destruct Hrun as (s' & Hrun). exists s'. split; [exact Hrun|].
  apply (run_notifying_clear 1 2 4 8 false scene s' ops eq_refl Hrun).
Defined.


Lemma getEvents_keeps_registrations_witness :
  exists s' c,
    epoll_getEvents 1 2 4 8 scene_watching 4 = Some (s', c) /\
    map fst (watching (epoll s')) = [5] /\ listeners s' = [5].
Proof.
  assert (Hget : exists s' c, epoll_getEvents 1 2 4 8 scene_watching 4 = Some (s', c))
    by (vm_compute; eexists; eexists; reflexivity).
  destruct Hget as (s' & c & Hget).
  destruct (getEvents_keeps_registrations 1 2 4 8 scene_watching s' 4 c Hget)
    as (_ & H2 & H3 & _).
  exists s', c. repeat split; assumption.
Defined.

Lemma tryNotify_renotifies_witness :
  exists s',
    _epoll_tryNotify 1 2 4 8 false scene_watching [] = Some s' /\
    tasks s' = 1%nat /\ has (flags (epoll s')) EF_SCHEDULED = true.
Proof.
  destruct (tryNotify_renotifies 1 2 4 8 false scene_watching
              eq_refl eq_refl eq_refl eq_refl eq_refl eq_refl)
    as (s' & H1 & H2 & H3 & _).
  exists s'. repeat split; assumption.
Defined.
